(** * Verification of the spatial-analysis course notebooks

    The repository is a set of Jupyter notebooks (module 04: matplotlib,
    module 06: geopandas, module 10: spatial regression).  Their code cells
    are embedded below as Rocq functions: pandas frames become lists of
    labelled rows, the notebook namespace and the disk become explicit state,
    library calls that can raise become fallible primitives. *)

From stdpp Require Import gmap strings list fin_maps pretty sorting.
From Stdlib Require Import ZArith QArith Qround Qabs Lqa Lia.

Open Scope Z_scope.

(** ** pandas frames, as the notebooks use them *)

Module Pandas.

(** A cell of a frame: a missing value, a number or a string.  The numeric
    payload stands for the float or integer stored in the column; the code
    modelled here tests cells for null-ness and for equality, and prints
    the counties (county codes, whole numbers when they are numbers) into
    column names. *)
Inductive cell := NaN | Num (z : Z) | Str (s : string).

#[global] Instance cell_eq_dec : EqDecision cell.
Proof. solve_decision. Defined.

Definition notna (c : cell) : bool :=
  match c with NaN => false | _ => true end.

(** Elementwise [==]: a missing value is equal to nothing, not even itself. *)
Definition cell_eqb (a b : cell) : bool :=
  match a, b with
  | NaN, _ | _, NaN => false
  | _, _ => bool_decide (a = b)
  end.

(** A Series is a list of (index label, value); a DataFrame is a list of
    column names and a list of (index label, row).  Order and duplicate
    labels matter, so both are association lists. *)
Definition Series := list (Z * cell).

Record DataFrame := mkDF {
  columns : list string;
  rows : list (Z * list cell)
}.

Definition index (df : DataFrame) : list Z := (rows df).*1.
Definition s_index (s : Series) : list Z := s.*1.

Fixpoint col_pos (name : string) (cols : list string) : option nat :=
  match cols with
  | [] => None
  | c :: cs => if decide (c = name) then Some 0%nat else S <$> col_pos name cs
  end.

Definition cell_at (r : list cell) (p : nat) : cell := default NaN (r !! p).

(** [gpd.read_file] / [pd.read_csv] without [index_col]: the rows of the file
    under a fresh RangeIndex 0, 1, 2, ... *)
Definition read_file (cols : list string) (data : list (list cell)) : DataFrame :=
  mkDF cols (zip (seqZ 0 (Z.of_nat (length data))) data).

(** [df[name]]: KeyError (None) when the column does not exist. *)
Definition getitem_col (df : DataFrame) (name : string) : option Series :=
  p ← col_pos name (columns df);
  Some ((λ ir, (ir.1, cell_at ir.2 p)) <$> rows df).

(** [df[[n1, ..., nk]]]: KeyError when one of the columns does not exist. *)
Definition getitem_cols (df : DataFrame) (names : list string) : option DataFrame :=
  ps ← mapM (λ n, col_pos n (columns df)) names;
  Some (mkDF names ((λ ir, (ir.1, cell_at ir.2 <$> ps)) <$> rows df)).

(** [Series.dropna()] and [DataFrame.dropna()]: keep the rows without a
    missing value, with their labels. *)
Definition dropna_series (s : Series) : Series :=
  filter (λ ic, notna ic.2) s.

Definition dropna (df : DataFrame) : DataFrame :=
  mkDF (columns df) (filter (λ ir, forallb notna ir.2) (rows df)).

(** [df.dropna(subset=cols)] *)
Definition dropna_subset (df : DataFrame) (subset : list string) : option DataFrame :=
  ps ← mapM (λ n, col_pos n (columns df)) subset;
  Some (mkDF (columns df)
             (filter (λ ir, forallb (λ p, notna (cell_at ir.2 p)) ps) (rows df))).

(** [df.loc[labels]] with a list of labels: for each requested label, in the
    order requested, every row carrying that label; KeyError when a label is
    not in the index. *)
Definition rows_with (l : Z) (rs : list (Z * list cell)) : list (Z * list cell) :=
  filter (λ ir, ir.1 = l) rs.

Definition loc (df : DataFrame) (labels : list Z) : option DataFrame :=
  rs ← mapM (λ l, match rows_with l (rows df) with
                  | [] => None
                  | m => Some m
                  end) labels;
  Some (mkDF (columns df) (concat rs)).

(** Selection by a boolean mask: the mask is a Series computed from the frame
    itself, so it is aligned row by row; a mask of another length is
    rejected. *)
Fixpoint mask_rows {A} (mask : list bool) (rs : list A) : list A :=
  match mask, rs with
  | b :: mask', r :: rs' => if b then r :: mask_rows mask' rs' else mask_rows mask' rs'
  | _, _ => []
  end.

(** [df.loc[mask, names]] *)
Definition loc_mask_cols (df : DataFrame) (mask : list bool) (names : list string)
  : option DataFrame :=
  if decide (length mask = length (rows df)) then
    sel ← getitem_cols df names;
    Some (mkDF names (mask_rows mask (rows sel)))
  else None.

(** [df[name] = values], the values being aligned with the frame row by row:
    an existing column is overwritten in place, a new one is appended. *)
Definition setitem (df : DataFrame) (name : string) (vals : list cell) : DataFrame :=
  match col_pos name (columns df) with
  | Some p => mkDF (columns df)
                   (zip_with (λ ir v, (ir.1, <[p := v]> ir.2)) (rows df) vals)
  | None => mkDF (columns df ++ [name])
                 (zip_with (λ ir v, (ir.1, ir.2 ++ [v])) (rows df) vals)
  end.

(** [Series.unique()]: the distinct values in order of first appearance (a
    missing value, when present, is reported once). *)
Fixpoint unique (vs : list cell) : list cell :=
  match vs with
  | [] => []
  | v :: vs' => v :: filter (λ x, x ≠ v) (unique vs')
  end.

(** The dtype of a column.  A column has it from the moment the file is
    read and keeps it when rows are dropped. *)
Inductive dtype := object | int64 | float64.

Definition is_str (c : cell) : bool := match c with Str _ => true | _ => false end.
Definition is_num (c : cell) : bool := match c with Num _ => true | _ => false end.

(** The dtype [gpd.read_file] gives the column of a GeoJSON property:
    [object] when it holds strings (or nothing but nulls), [int64] for
    integers without a null, [float64] for integers with nulls. *)
Definition dtype_of (col : list cell) : dtype :=
  if existsb is_str col then object
  else if existsb is_num col
       then (if forallb notna col then int64 else float64)
       else object.

(** The cells a column of a dtype holds: strings and [None] in an object
    column read from a file, integers in an int64 one; in a float64 one
    whole numbers (below [2^53] in magnitude, where a float holds them
    exactly and prints them in full) and [nan]. *)
Definition holds (dt : dtype) (c : cell) : Prop :=
  match dt, c with
  | object, Str _ | object, NaN => True
  | object, Num _ => False
  | int64, Num z => - 2 ^ 63 ≤ z < 2 ^ 63
  | int64, _ => False
  | float64, Num z => Z.abs z < 2 ^ 53
  | float64, NaN => True
  | float64, Str _ => False
  end.

Definition has_dtype (dt : dtype) (col : list cell) : Prop := Forall (holds dt) col.

(** What an f-string prints for an element of a column of that dtype: a
    string as it is; a null as [None] in an object column and as [nan] in
    a float64 one; an integer as its digits, followed by [.0] when the
    column is float64. *)
Definition fmt (dt : dtype) (c : cell) : string :=
  match c with
  | Str s => s
  | NaN => match dt with float64 => "nan" | _ => "None" end
  | Num z => match dt with float64 => pretty z +:+ ".0" | _ => pretty z end
  end.

End Pandas.

(** ** Module 10: regression design matrices *)

Module Module10.
Import Pandas.

Definition response : string := "med_home_value".

(** [tracts = gpd.read_file(...)] then
    [tracts = tracts.dropna(subset=[response])] *)
Definition load_tracts (cols : list string) (data : list (list cell))
  : option DataFrame :=
  dropna_subset (read_file cols data) [response].

(** 1a: [X = tracts[predictors].dropna()] with one column name, a Series *)
Definition design_series (tracts : DataFrame) (predictor : string) : option Series :=
  dropna_series <$> getitem_col tracts predictor.

(** 1b, 2a, 2c: [X = tracts[predictors].dropna()] with a list of names *)
Definition design (tracts : DataFrame) (predictors : list string) : option DataFrame :=
  dropna <$> getitem_cols tracts predictors.

(** 2b: [X = tracts.loc[mask, predictors].dropna()] *)
Definition design_regimes (tracts : DataFrame) (mask : list bool)
    (predictors : list string) : option DataFrame :=
  dropna <$> loc_mask_cols tracts mask predictors.

(** [y = tracts.loc[X.index][response]] *)
Definition response_vector (tracts : DataFrame) (X_index : list Z) : option Series :=
  t ← loc tracts X_index; getitem_col t response.

(** [Y = tracts.loc[X.index][[response]]] *)
Definition response_matrix (tracts : DataFrame) (X_index : list Z) : option DataFrame :=
  t ← loc tracts X_index; getitem_cols t [response].

(** [regimes = tracts.loc[X.index]['COUNTYFP']] *)
Definition regimes_vector (tracts : DataFrame) (X_index : list Z) : option Series :=
  t ← loc tracts X_index; getitem_col t "COUNTYFP".

(** The frame handed to [Queen.from_dataframe]: [tracts.loc[X.index]] *)
Definition weights_frame (tracts : DataFrame) (X_index : list Z) : option DataFrame :=
  loc tracts X_index.

(** *** 2a: county dummies

    [dt] is the dtype of the column [COUNTYFP]. *)

(** [f'dummy_county_{county}'] *)
Definition dummy_name (dt : dtype) (county : cell) : string :=
  "dummy_county_" +:+ fmt dt county.

(** [(tracts['COUNTYFP'] == county).astype(int)] *)
Definition indicator (c county : cell) : Z := if cell_eqb c county then 1 else 0.

Definition dummy_values (col : list cell) (county : cell) : list cell :=
  (λ c, Num (indicator c county)) <$> col.

(** One iteration of the loop:
    [tracts[new_col] = (tracts['COUNTYFP'] == county).astype(int)] *)
Definition add_dummy (dt : dtype) (tracts : DataFrame) (county : cell)
  : option DataFrame :=
  col ← getitem_col tracts "COUNTYFP";
  Some (setitem tracts (dummy_name dt county) (dummy_values col.*2 county)).

Fixpoint add_dummies (dt : dtype) (tracts : DataFrame) (counties : list cell)
  : option DataFrame :=
  match counties with
  | [] => Some tracts
  | c :: cs => t ← add_dummy dt tracts c; add_dummies dt t cs
  end.

(** [for county in tracts['COUNTYFP'].unique(): ...] *)
Definition add_county_dummies (dt : dtype) (tracts : DataFrame) : option DataFrame :=
  col ← getitem_col tracts "COUNTYFP";
  add_dummies dt tracts (unique col.*2).

(** [county_dummies = [f'dummy_county_{county}' for county in ...unique()]]
    then [county_dummies = county_dummies[1:]] *)
Definition all_county_dummies (dt : dtype) (tracts : DataFrame)
  : option (list string) :=
  col ← getitem_col tracts "COUNTYFP";
  Some (dummy_name dt <$> unique col.*2).

Definition county_dummies (dt : dtype) (tracts : DataFrame) : option (list string) :=
  drop 1 <$> all_county_dummies dt tracts.

Definition predictors : list string :=
  ["med_household_income"; "pct_white"; "pct_single_family_home";
   "pct_built_before_1940"; "med_rooms_per_home"; "pct_bachelors_degree"].

(** [X = tracts[predictors + county_dummies].dropna()] *)
Definition fixed_effects_design (dt : dtype) (tracts : DataFrame)
  : option DataFrame :=
  ds ← county_dummies dt tracts;
  design tracts (predictors ++ ds).

(** The two cells of 2a and the design matrix, from the file: [COUNTYFP]
    has the dtype that reading the file gives it. *)
Definition fixed_effects (cols : list string) (data : list (list cell))
  : option (DataFrame * list string) :=
  col ← getitem_col (read_file cols data) "COUNTYFP";
  let dt := dtype_of col.*2 in
  tracts ← load_tracts cols data;
  tracts ← add_county_dummies dt tracts;
  ds ← county_dummies dt tracts;
  X ← design tracts (predictors ++ ds);
  Some (X, ds).

(** Row-wise sum of the given columns of a frame (the cells are 0/1 integers
    for the dummy columns). *)
Definition num_of (c : cell) : Z := match c with Num z => z | _ => 0 end.

Definition row_sums (df : DataFrame) (names : list string) : option (list Z) :=
  ps ← mapM (λ n, col_pos n (columns df)) names;
  Some ((λ ir, foldr Z.add 0 ((λ p, num_of (cell_at ir.2 p)) <$> ps)) <$> rows df).

(** The constant column that [add_constant] puts in front of the design
    matrix. *)
Definition ones (df : DataFrame) : list Z := replicate (length (rows df)) 1.

End Module10.

(** ** Floating-point numbers

    A binary64 ("float64", Python's [float]) is held as the rational it
    stands for; an operation is the exact operation followed by rounding to
    the nearest binary64. *)

Module Float64.

(** The nearest integer, ties to the even one. *)
Definition rne (y : Q) : Z :=
  let f := Qfloor y in
  match (y - inject_Z f ?= 1 # 2)%Q with
  | Lt => f
  | Gt => f + 1
  | Eq => if Z.even f then f else f + 1
  end.

Definition pow2 (k : Z) : Q :=
  if 0 <=? k then inject_Z (2 ^ k) else (1 # Z.to_pos (2 ^ (- k)))%Q.

(** [floor (log2 |q|)], for [q] in lowest terms and not 0. *)
Definition ilog2 (q : Q) : Z :=
  let k := Z.log2 (Z.abs (Qnum q)) - Z.log2 (Zpos (Qden q)) in
  if Qle_bool (pow2 k) (Qabs q) then k else k - 1.

(** The exponent of the last binary place a binary64 near [q] has: 52
    places below the leading one, and never below [2^-1074]. *)
Definition ulp_exp (q : Q) : Z := Z.max (ilog2 q - 52) (-1074).

(** The value of the binary64 nearest to [q], ties to even.  (Overflow to
    infinity has no counterpart: the quotients and roundings below stay
    under [2^1024].) *)
Definition nearest (q : Q) : Q :=
  let q := Qred q in
  if Qeq_bool q 0 then 0%Q
  else Qred (inject_Z (rne (q / pow2 (ulp_exp q))) * pow2 (ulp_exp q))%Q.

(** An int64 as a float64, and the quotient of two float64. *)
Definition of_int (z : Z) : Q := nearest (inject_Z z).
Definition div (a b : Q) : Q := nearest (a / b).
Definition add (a b : Q) : Q := nearest (a + b).

End Float64.

(** ** Module 04: weekday and weekend hourly shares *)

Module Module04.
Import Pandas.

(** The index of [dt] holds parsed dates; a timestamp is the number of
    seconds since 1970-01-01 00:00 (a Thursday). *)
Definition weekday (t : Z) : Z := (t / 86400 + 3) mod 7.
Definition hour (t : Z) : Z := (t mod 86400) / 3600.

(** A GPS record: its date (the index; [None] is a missing date, [NaT]) and
    the rest of the row. *)
Definition record : Type := option Z * list cell.

(** [weekend_mask = (dt.index.weekday==5) | (dt.index.weekday==6)]; the
    weekday of a missing date is missing and compares false. *)
Definition is_weekend (t : option Z) : bool :=
  match t with
  | Some t => (weekday t =? 5) || (weekday t =? 6)
  | None => false
  end.

Definition weekend_mask (dt : list record) : list bool :=
  (λ r, is_weekend r.1) <$> dt.

(** [weekends = dt[weekend_mask]] and [weekdays = dt[~weekend_mask]] *)
Definition weekends (dt : list record) : list record :=
  mask_rows (weekend_mask dt) dt.

Definition weekdays (dt : list record) : list record :=
  mask_rows (negb <$> weekend_mask dt) dt.

(** [groupby(keys).size()]: one entry per distinct key, in ascending key
    order, holding the number of rows with that key. *)
Fixpoint bump (k : Z) (acc : list (Z * Z)) : list (Z * Z) :=
  match acc with
  | [] => [(k, 1)]
  | (k', n) :: rest =>
      if k <? k' then (k, 1) :: acc
      else if k =? k' then (k', n + 1) :: rest
      else (k', n) :: bump k rest
  end.

Definition groupby_size (keys : list Z) : list (Z * Z) := foldr bump [] keys.

(** [df.index.hour] as group keys: a record without date has a missing key,
    and [groupby] leaves it out of every group. *)
Definition hours (sub : list record) : list Z := omap (λ r, hour <$> r.1) sub.

(** [df.groupby(df.index.hour).size()] *)
Definition hourly_counts (sub : list record) : list (Z * Z) :=
  groupby_size (hours sub).

(** [counts.sum()], an integer *)
Definition total (counts : list (Z * Z)) : Z := foldr Z.add 0 counts.*2.

(** [counts / counts.sum()]: the counts and their sum are int64, the
    division is the float64 one; dividing the empty Series gives the empty
    Series. *)
Definition hourly_share (sub : list record) : list (Z * Q) :=
  let counts := hourly_counts sub in
  (λ kn, (kn.1, Float64.div (Float64.of_int kn.2) (Float64.of_int (total counts))))
    <$> counts.

Definition weekday_hourly_share (dt : list record) := hourly_share (weekdays dt).
Definition weekend_hourly_share (dt : list record) := hourly_share (weekends dt).

(** The sum of a series of floats: as real numbers, and as Python's [sum]
    adds them, from left to right in float64. *)
Definition Qsum (l : list Q) : Q := foldr Qplus 0%Q l.
Definition fsum (l : list Q) : Q := foldl Float64.add 0%Q l.

End Module04.

(** ** Module 06: spatial join and spatial index *)

Module Geo.
Import Pandas.

(** [geometry.bounds]: (minx, miny, maxx, maxy).  The coordinates are floats
    that are only compared, never computed with; each is the rational it
    denotes. *)
Record box := mkBox { minx : Q; miny : Q; maxx : Q; maxy : Q }.

(** The test an R-tree applies between a stored box and the query box:
    closed intervals overlap on both axes. *)
Definition box_intersects (a b : box) : bool :=
  Qle_bool (minx a) (maxx b) && Qle_bool (minx b) (maxx a) &&
  Qle_bool (miny a) (maxy b) && Qle_bool (miny b) (maxy a).

Section SpatialJoin.
Context {L R : Type}.

(** The spatial predicate of the join ([op='within']): shapely's, a
    parameter here. *)
Variable within : L → R → bool.

(** Labels of the right rows that a left geometry is within. *)
Definition join_matches (g : L) (right : list (Z * R)) : list Z :=
  (filter (λ jr, within g jr.2) right).*1.

(** [gpd.sjoin(left, right, how='left', op='within')]: every left row is
    kept; it appears once per right row it matches, with that row's label
    as [index_right], and once with a missing [index_right] when it
    matches none. *)
Definition sjoin_left (left : list (Z * L)) (right : list (Z * R))
  : list (Z * L * option Z) :=
  left ≫= λ ig,
    match join_matches ig.2 right with
    | [] => [(ig.1, ig.2, None)]
    | ms => (λ j, (ig.1, ig.2, Some j)) <$> ms
    end.

(** Number of result rows a left row gives rise to. *)
Definition copies (g : L) (right : list (Z * R)) : nat :=
  Nat.max 1 (length (join_matches g right)).
End SpatialJoin.

Section SpatialIndex.
Context {geom : Type}.

(** shapely's [intersects] and [bounds], and the query of the R-tree that
    [rents.sindex] builds over the bounds of the frame's geometries:
    [sindex.intersection(b)] yields positions of rows. *)
Variable intersects : geom → geom → bool.
Variable bounds : geom → box.
Variable rtree_intersection : list box → box → list nat.

(** [matches = rents.intersects(geometry)], and the rows it selects,
    [rents[matches]] *)
Definition matches (rents : list (Z * geom)) (q : geom) : list bool :=
  (λ r, intersects r.2 q) <$> rents.

Definition brute_force (rents : list (Z * geom)) (q : geom) : list (Z * geom) :=
  mask_rows (matches rents q) rents.

(** [df.iloc[positions]]: IndexError when a position is out of range. *)
Definition iloc {A} (rs : list A) (positions : list nat) : option (list A) :=
  mapM (λ i, rs !! i) positions.

(** [possible_matches_index = list(sindex.intersection(geometry.bounds))]
    [possible_matches = rents.iloc[possible_matches_index]]
    [precise_matches = possible_matches[possible_matches.intersects(geometry)]] *)
Definition two_stage (rents : list (Z * geom)) (q : geom) : option (list (Z * geom)) :=
  let possible_matches_index :=
    rtree_intersection ((λ r, bounds r.2) <$> rents) (bounds q) in
  possible_matches ← iloc rents possible_matches_index;
  Some (mask_rows (matches possible_matches q) possible_matches).

(** What the R-tree query promises: the positions of the stored boxes that
    intersect the query box, each once, in no particular order. *)
Definition candidates (boxes : list box) (q : box) : list nat :=
  filter (λ i, from_option (λ b, box_intersects b q) false (boxes !! i))
         (seq 0 (length boxes)).

Definition rtree_sound (boxes : list box) (q : box) : Prop :=
  rtree_intersection boxes q ≡ₚ candidates boxes q.

(** What shapely promises for the rows at hand: a geometry that intersects
    the query has bounds that intersect the query's bounds. *)
Definition bounds_sound (rents : list (Z * geom)) (q : geom) : bool :=
  forallb (λ r, implb (intersects r.2 q)
                      (box_intersects (bounds r.2) (bounds q))) rents.
End SpatialIndex.

(** A small planar geometry for examples: axis-parallel rectangles (a point
    is a rectangle of no extent). *)
Definition Qlt_bool (a b : Q) : bool := negb (Qle_bool b a).

Definition box_within (p b : box) : bool :=
  Qlt_bool (minx b) (minx p) && Qlt_bool (maxx p) (maxx b) &&
  Qlt_bool (miny b) (miny p) && Qlt_bool (maxy p) (maxy b).

Definition pt (x y : Z) : box := mkBox (inject_Z x) (inject_Z y) (inject_Z x) (inject_Z y).
Definition rect (x0 y0 x1 y1 : Z) : box :=
  mkBox (inject_Z x0) (inject_Z y0) (inject_Z x1) (inject_Z y1).

End Geo.

(** ** Notebooks as programs: namespace, disk and failures *)

Module Notebook.

(** A coordinate reference system as the notebooks write it: a PROJ.4 string
    or a dictionary of PROJ.4 parameters. *)
Inductive CRS := Proj4 (s : string) | ProjDict (kv : list (string * string)).

Inductive error :=
| FileNotFound (path : string)
| NotADataset (path : string)
| NameError (name : string)
| AttributeError (name : string)
| KeyError (key : string)
| NaiveGeometries   (* to_crs: "Cannot transform naive geometries" *)
| NoTargetCRS       (* to_crs: "Must set either crs or epsg for output" *)
| LibraryError (op msg : string).

Section Library.

(** What the third-party libraries compute is a parameter: [Value] is
    whatever a library call returns (table contents, geometries, masks,
    numbers, figures, fitted models), [lib op args] is the result of the
    call written [op] on these arguments, or the message of the exception
    it raises. *)
Variable Value : Type.
Variable lib : string → list Value → string + Value.

(** pyproj's transformation of every geometry of a table. *)
Variable reproject : CRS → CRS → Value → string + Value.

(** The (latitude, longitude) columns of a table, geopy's
    [great_circle(a, b).miles], and a table with a numeric column set. *)
Variable latlong : Value → list (Q * Q).
Variable great_circle_miles : Q * Q → Q * Q → string + Q.
Variable with_column : Value → string → list Q → Value.

(** An object bound in the notebook namespace: a GeoDataFrame or GeoSeries
    with its [crs] attribute, or any other library value. *)
Inductive obj := Frame (crs : option CRS) (data : Value) | Plain (data : Value).

Definition data_of (o : obj) : Value :=
  match o with Frame _ v | Plain v => v end.

(** A file on disk: a dataset (CSV, shapefile, GeoJSON) with the reference
    system stored with it, if any, or a saved figure. *)
Inductive file :=
| DataFile (crs : option CRS) (data : Value)
| ImageFile (dpi : Z) (fig : Value).

Record World := mkWorld {
  disk : gmap string file;
  ns : gmap string obj;
  shown : nat
}.

(** A statement: it runs in a world and ends in a world, with a value or
    with the exception it raised. *)
Definition NB (A : Type) : Type := World → (error + A) * World.

#[export] Instance NB_ret : MRet NB := λ A a w, (inr a, w).
#[export] Instance NB_bind : MBind NB := λ A B f m w,
  match m w with
  | (inr a, w') => f a w'
  | (inl e, w') => (inl e, w')
  end.

Definition raise {A} (e : error) : NB A := λ w, (inl e, w).

Definition get (x : string) : NB obj := λ w,
  match ns w !! x with
  | Some o => (inr o, w)
  | None => (inl (NameError x), w)
  end.

Definition set (x : string) (o : obj) : NB unit := λ w,
  (inr tt, mkWorld (disk w) (<[x := o]> (ns w)) (shown w)).

Definition display : NB unit := λ w,
  (inr tt, mkWorld (disk w) (ns w) (S (shown w))).

Definition write (path : string) (f : file) : NB unit := λ w,
  (inr tt, mkWorld (<[path := f]> (disk w)) (ns w) (shown w)).

Definition lib_call (op : string) (args : list Value) : NB Value := λ w,
  match lib op args with
  | inr v => (inr v, w)
  | inl msg => (inl (LibraryError op msg), w)
  end.

Definition read_data (path : string) : NB (option CRS * Value) := λ w,
  match disk w !! path with
  | Some (DataFile c v) => (inr (c, v), w)
  | Some (ImageFile _ _) => (inl (NotADataset path), w)
  | None => (inl (FileNotFound path), w)
  end.

(** [pd.read_csv(path)] *)
Definition read_csv (path : string) : NB obj :=
  cv ← read_data path; mret (Plain cv.2).

(** [gpd.read_file(path)], [gpd.GeoDataFrame.from_file(path)]: the frame's
    crs is the one stored with the file. *)
Definition read_file (path : string) : NB obj :=
  cv ← read_data path; mret (Frame cv.1 cv.2).

(** [gdf.to_file(path)]: what the driver writes (for a shapefile, a directory
    of that name) is one entry of the disk, under the path given. *)
Definition to_file (o : obj) (path : string) : NB unit :=
  match o with
  | Frame c v => write path (DataFile c v)
  | Plain _ => raise (AttributeError "to_file")
  end.

(** [fig.savefig(path, dpi=dpi)] *)
Definition savefig (fig : obj) (path : string) (dpi : Z) : NB unit :=
  write path (ImageFile dpi (data_of fig)).

(** [gdf.to_crs(target)] *)
Definition to_crs (o : obj) (target : option CRS) : NB obj :=
  match o with
  | Plain _ => raise (AttributeError "to_crs")
  | Frame None _ => raise NaiveGeometries
  | Frame (Some src) v =>
      match target with
      | None => raise NoTargetCRS
      | Some dst =>
          match reproject src dst v with
          | inr v' => mret (Frame (Some dst) v')
          | inl msg => raise (LibraryError "to_crs" msg)
          end
      end
  end.

(** [gdf.crs] *)
Definition crs_of (o : obj) : NB (option CRS) :=
  match o with
  | Frame c _ => mret c
  | Plain _ => raise (AttributeError "crs")
  end.

(** [gdf.crs = c] *)
Definition with_crs (o : obj) (c : CRS) : obj :=
  match o with
  | Frame _ v => Frame (Some c) v
  | Plain v => Plain v
  end.

(** The result of a library call that keeps the kind and the crs of the
    object it is taken from (row selection, column selection of the
    geometry, copy, column assignment, buffer, ...). *)
Definition like (o : obj) (v : Value) : obj :=
  match o with
  | Frame c _ => Frame c v
  | Plain _ => Plain v
  end.

Definition gets (xs : list string) : NB (list Value) :=
  os ← mapM get xs; mret (data_of <$> os).

Definition derive (op : string) (x : string) (others : list string) : NB obj :=
  o ← get x; vs ← gets others; v ← lib_call op (data_of o :: vs);
  mret (like o v).

(** Any other library call on objects of the namespace. *)
Definition compute (op : string) (xs : list string) : NB obj :=
  vs ← gets xs; v ← lib_call op vs; mret (Plain v).

(** A call whose value the cell displays, or a plotting call. *)
Definition show (op : string) (xs : list string) : NB unit :=
  compute op xs;; display.

Definition assign (x : string) (m : NB obj) : NB unit := o ← m; set x o.

(** [def f(...): ...]: the function is kept under its name.  The namespace
    [ns] holds the data objects only (frames and library values), so it
    stays as it is. *)
Definition define (name : string) : NB unit := mret tt.

(** A statement evaluated for its effect, and a loop over a Python list. *)
Definition exec (op : string) (xs : list string) : NB unit :=
  compute op xs;; mret tt.

Fixpoint for_each {A} (xs : list A) (body : A → NB unit) : NB unit :=
  match xs with
  | [] => mret tt
  | x :: xs' => body x;; for_each xs' body
  end.

(** [a, b = call(...)]: the tuple is one library value, bound to each of the
    names. *)
Definition unpack (names : list string) (m : NB obj) : NB unit :=
  o ← m; for_each names (λ x, set x o).

(** [fig, ax = plt.subplots(...)] *)
Definition subplots (fig ax : string) (args : string) : NB unit :=
  unpack [fig; ax] (compute ("plt.subplots(" +:+ args +:+ ")") []).

(** Running a notebook: the cells in order, stopping at the first cell that
    raises. *)
Inductive outcome :=
| Finished (w : World)
| Halted (cell : nat) (e : error) (w : World).

Fixpoint run_cells (cells : list (nat * NB unit)) (w : World) : outcome :=
  match cells with
  | [] => Finished w
  | (n, c) :: rest =>
      match c w with
      | (inr _, w') => run_cells rest w'
      | (inl e, w') => Halted n e w'
      end
  end.

Definition final (r : outcome) : World :=
  match r with Finished w | Halted _ _ w => w end.

(** A fresh kernel on a given disk. *)
Definition fresh (d : gmap string file) : World := mkWorld d ∅ 0.

Notation "x ::= m" := (assign x m) (at level 60, no associativity).

(** *** Module 06 *)

Definition original_crs : CRS := ProjDict [("init", "epsg:4326")].

Definition utm_11 : CRS :=
  Proj4 "+proj=utm +zone=11 +ellps=GRS80 +datum=NAD83 +units=m +no_defs".

Definition albers_usa : CRS :=
  ProjDict [("datum", "NAD83"); ("ellps", "GRS80"); ("proj", "aea");
            ("lat_1", "33"); ("lat_2", "45"); ("lon_0", "-97"); ("lat_0", "39");
            ("x_0", "2500000.0"); ("y_0", "1750000.0"); ("units", "m")].

Definition lift {A} (op : string) (r : string + A) : NB A :=
  match r with
  | inr a => mret a
  | inl msg => raise (LibraryError op msg)
  end.

(** [great_circle(point0, point1).miles] on the first two rows *)
Definition first_two_distance (o : obj) : NB Q :=
  match latlong (data_of o) with
  | point0 :: point1 :: _ => lift "great_circle" (great_circle_miles point0 point1)
  | _ => raise (KeyError "loc")
  end.

(** Python's [round(x, 2)] on a float: the decimal with two places nearest
    to the value of [x] (ties to the even one), then the float nearest to
    that decimal. *)
Definition round2 (x : Q) : Q :=
  Float64.nearest (inject_Z (Float64.rne (x * 100)) / 100)%Q.

Definition snell_library : Q * Q := ((4233835 # 100000)%Q, (- (71088051 # 1000000))%Q).

(** [def get_distance(row)] *)
Definition get_distance (row : Q * Q) : NB Q :=
  distance ← lift "great_circle" (great_circle_miles snell_library row);
  mret (round2 distance).

(** [df.apply(f, axis=1)]: [f] on every row in order; the first exception
    ends the call. *)
Definition apply_rows {A B} (f : A → NB B) (rows : list A) : NB (list B) :=
  mapM f rows.

(** [def get_distance(row): ...]
    [usa_points['miles_from_snell'] = usa_points.apply(get_distance, axis=1)]
    [usa_points.head()] *)
Definition cell06_134 : NB unit :=
  define "get_distance";;
  usa_points ← get "usa_points";
  miles ← apply_rows get_distance (latlong (data_of usa_points));
  set "usa_points"
      (like usa_points (with_column (data_of usa_points) "miles_from_snell" miles));;
  display.

(** [states = gpd.GeoDataFrame.from_file('data/states_21basic/states.shp')]
    [len(states)] *)
Definition cell06_164 : NB unit :=
  "states" ::= read_file "data/states_21basic/states.shp";;
  display.

(** [states2['STATE_NAME'] = states2['STATE_NAME'].str.upper()]
    [states2.to_file('data/states2')] *)
Definition cell06_207 : NB unit :=
  "states2" ::= derive "states2['STATE_NAME'] = states2['STATE_NAME'].str.upper()"
                       "states2" [];;
  states2 ← get "states2";
  to_file states2 "data/states2".

(** [cal_points.crs = original_crs], [cal_points.crs] *)
Definition cell06_520 : NB unit :=
  cal_points ← get "cal_points";
  set "cal_points" (with_crs cal_points original_crs);;
  display.

(** [california = california.to_crs(utm_11)], [ax = california.plot()] *)
Definition cell06_562 : NB unit :=
  california ← get "california";
  "california" ::= to_crs california (Some utm_11);;
  "ax" ::= compute "california.plot()" ["california"];;
  display.

(** [cal_points = cal_points.to_crs(utm_11)] and two plots *)
Definition cell06_582 : NB unit :=
  cal_points ← get "cal_points";
  "cal_points" ::= to_crs cal_points (Some utm_11);;
  "ax" ::= compute "california.plot(color='gray')" ["california"];;
  "ax" ::= compute "cal_points.buffer(30000).plot(ax=ax, color='none', edgecolor='r')"
                   ["cal_points"; "ax"];;
  display.

(** [usa_points.crs = original_crs], [usa_points.head()] *)
Definition cell06_622 : NB unit :=
  usa_points ← get "usa_points";
  set "usa_points" (with_crs usa_points original_crs);;
  display.

(** [usa_points.to_crs(albers_usa).head()] *)
Definition cell06_669 : NB unit :=
  usa_points ← get "usa_points";
  to_crs usa_points (Some albers_usa);;
  display.

(** Two maps side by side, the second of
    [contiguous_states.to_crs(albers_usa)] *)
Definition cell06_682 : NB unit :=
  subplots "fig" "axes" "ncols=2, figsize=(12, 8)";;
  "ax1" ::= compute "contiguous_states.plot(ax=axes[0])" ["contiguous_states"; "axes"];;
  contiguous_states ← get "contiguous_states";
  projected ← to_crs contiguous_states (Some albers_usa);
  axes ← get "axes";
  lib_call ".plot(ax=axes[1])" [data_of projected; data_of axes];;
  display.

(** [contiguous_states_proj = contiguous_states.to_crs(albers_usa)], its
    area column in square kilometres, the five largest *)
Definition cell06_716 : NB unit :=
  contiguous_states ← get "contiguous_states";
  "contiguous_states_proj" ::= to_crs contiguous_states (Some albers_usa);;
  "contiguous_states_proj" ::=
    derive "contiguous_states_proj['area'] = contiguous_states_proj.area / 1e9"
           "contiguous_states_proj" [];;
  show "contiguous_states_proj.sort_values('area', ascending=False).head()[['STATE_NAME', 'area']]"
       ["contiguous_states_proj"].

(** The choropleth saved with [fig.savefig('data/map.png', dpi=600)] *)
Definition cell06_755 : NB unit :=
  subplots "fig" "ax" "";;
  "ax" ::= compute "contiguous_states_proj.plot(ax=ax, column='area', cmap='viridis', scheme='quantiles', edgecolor='k', linewidth=0.25)"
                   ["contiguous_states_proj"; "ax"];;
  compute "ax.axis('off')" ["ax"];;
  fig ← get "fig";
  savefig fig "data/map.png" 600;;
  display.

(** [rents = gpd.GeoDataFrame(rents)], its geometry column,
    [rents.crs = original_crs], [rents.head()] *)
Definition cell06_788 : NB unit :=
  rents ← get "rents";
  v ← lib_call "gpd.GeoDataFrame(rents)" [data_of rents];
  set "rents" (Frame None v);;
  "rents" ::= derive "rents['geometry'] = rents.apply(lambda row: Point(row['longitude'], row['latitude']), axis=1)"
                     "rents" [];;
  rents ← get "rents";
  set "rents" (with_crs rents original_crs);;
  display.

(** [rents = rents.to_crs(contiguous_states.crs)] *)
Definition cell06_809 : NB unit :=
  rents ← get "rents";
  contiguous_states ← get "contiguous_states";
  target ← crs_of contiguous_states;
  "rents" ::= to_crs rents target.

(** The notebook: its code cells in order, each under the line of the
    source file where it starts.  Import cells and the cells left empty for
    exercises have no statement and are left out; the three reference
    systems the notebook binds to names are the constants above. *)
Definition module06 : list (nat * NB unit) := [
  (96%nat, "df" ::= read_csv "data/usa-latlong.csv");
  (106%nat, df ← get "df";
            v ← lib_call "gpd.GeoDataFrame(df)" [data_of df];
            set "usa_points" (Frame None v);; display);
  (119%nat, usa_points ← get "usa_points";
            first_two_distance usa_points;; display);
  (134%nat, cell06_134);
  (164%nat, cell06_164);
  (175%nat, show "states.head()" ["states"]);
  (186%nat, show "states['STATE_NAME'].sort_values().unique()" ["states"]);
  (196%nat, "states2" ::= read_file "data/states.geojson";; display);
  (207%nat, cell06_207);
  (235%nat, "usa_points" ::= derive "usa_points['geometry'] = usa_points.apply(lambda row: Point(row['longitude'], row['latitude']), axis=1)"
                                    "usa_points" [];;
            display);
  (256%nat, "mask" ::= compute "states['geometry'].intersects(usa_points['geometry'].unary_union)"
                               ["states"; "usa_points"];;
            show "len(states[mask])" ["states"; "mask"]);
  (270%nat, show "states[~mask]['STATE_NAME']" ["states"; "mask"]);
  (289%nat, "california" ::= derive "states[states['STATE_NAME']=='California']['geometry']"
                                    "states" [];;
            "california_polygon" ::= compute "california.iloc[0]" ["california"];;
            display);
  (303%nat, "cal_points" ::= derive "usa_points[usa_points.within(california_polygon)]"
                                    "usa_points" ["california_polygon"];;
            display);
  (316%nat, subplots "fig" "ax" "";;
            "ax" ::= compute "california.plot(ax=ax, color='#999999')" ["california"; "ax"];;
            "ax" ::= compute "cal_points.plot(ax=ax, c='r', markersize=1)" ["cal_points"; "ax"];;
            compute "ax.axis('off')" ["ax"];;
            display);
  (331%nat, "alaska_polygon" ::= compute "states[states['STATE_NAME']=='Alaska']['geometry'].iloc[0]" ["states"];;
            "hawaii_polygon" ::= compute "states[states['STATE_NAME']=='Hawaii']['geometry'].iloc[0]" ["states"];;
            "alaska_hawaii_mask" ::= compute "usa_points.within(alaska_polygon) | usa_points.within(hawaii_polygon)"
                                             ["usa_points"; "alaska_polygon"; "hawaii_polygon"];;
            "contiguous_usa_points" ::= derive "usa_points[~alaska_hawaii_mask]"
                                               "usa_points" ["alaska_hawaii_mask"];;
            display);
  (366%nat, "mask" ::= compute "(states['STATE_NAME']!='Alaska') & (states['STATE_NAME']!='Hawaii')" ["states"];;
            "contiguous_states" ::= derive "states[mask]" "states" ["mask"]);
  (376%nat, "subregions" ::= derive "contiguous_states.dissolve('SUB_REGION')" "contiguous_states" [];;
            "ax" ::= compute "subregions.plot(linewidth=1, edgecolor='w')" ["subregions"];;
            display);
  (393%nat, "texas" ::= derive "states[states['STATE_NAME']=='Texas']" "states" [];;
            "ax" ::= compute "texas.convex_hull.plot(color='b')" ["texas"];;
            "ax" ::= compute "texas.plot(ax=ax, color='pink')" ["texas"; "ax"];;
            display);
  (404%nat, "ax" ::= compute "texas.envelope.plot(color='gray')" ["texas"];;
            "ax" ::= compute "texas.convex_hull.plot(ax=ax, color='b')" ["texas"; "ax"];;
            "ax" ::= compute "texas.plot(ax=ax, color='pink')" ["texas"; "ax"];;
            display);
  (415%nat, "ax" ::= compute "texas.envelope.plot(color='gray')" ["texas"];;
            "ax" ::= compute "texas.convex_hull.plot(ax=ax, color='b')" ["texas"; "ax"];;
            "ax" ::= compute "texas.plot(ax=ax, color='pink')" ["texas"; "ax"];;
            "ax" ::= compute "texas.centroid.plot(ax=ax, color='r')" ["texas"; "ax"];;
            display);
  (427%nat, "ax" ::= compute "contiguous_states.plot(color='gray', linewidth=0.5, edgecolor='w')" ["contiguous_states"];;
            "ax" ::= compute "contiguous_states.centroid.plot(ax=ax, color='r', markersize=5)" ["contiguous_states"; "ax"];;
            display);
  (458%nat, show "california_polygon.buffer(distance=1)" ["california_polygon"]);
  (468%nat, "buffered_points" ::= derive "cal_points.buffer(0.5)" "cal_points" [];;
            "ax" ::= compute "california.difference(buffered_points.unary_union).plot()"
                             ["california"; "buffered_points"];;
            display);
  (488%nat, "ax" ::= compute "california.intersection(buffered_points.unary_union).plot()"
                             ["california"; "buffered_points"];;
            display);
  (520%nat, cell06_520);
  (533%nat, california ← get "california"; crs_of california;; display);
  (542%nat, "ax" ::= compute "california.plot()" ["california"];; display);
  (562%nat, cell06_562);
  (582%nat, cell06_582);
  (622%nat, cell06_622);
  (669%nat, cell06_669);
  (682%nat, cell06_682);
  (705%nat, "contiguous_states" ::= derive "contiguous_states.copy()" "contiguous_states" [];;
            "contiguous_states" ::= derive "contiguous_states['area'] = contiguous_states.area" "contiguous_states" [];;
            show "contiguous_states.sort_values('area', ascending=False).head()[['STATE_NAME', 'area']]"
                 ["contiguous_states"]);
  (716%nat, cell06_716);
  (745%nat, "ax" ::= compute "contiguous_states_proj.plot(column='area', cmap='viridis', scheme='quantiles', edgecolor='k', linewidth=0.25)"
                             ["contiguous_states_proj"];;
            display);
  (755%nat, cell06_755);
  (778%nat, "rents" ::= read_csv "data/listings.csv";; display);
  (788%nat, cell06_788);
  (800%nat, rents ← get "rents"; crs_of rents;;
            contiguous_states ← get "contiguous_states"; crs_of contiguous_states;;
            display);
  (809%nat, cell06_809);
  (818%nat, "rents_states" ::= derive "gpd.sjoin(rents, contiguous_states, how='left', op='within')"
                                      "rents" ["contiguous_states"]);
  (827%nat, "groups" ::= compute "rents_states.groupby('STATE_NAME')" ["rents_states"]);
  (836%nat, show "groups['rent'].median().sort_values(ascending=False).head()" ["groups"]);
  (846%nat, show "groups['bedrooms'].mean().sort_values(ascending=False).head()" ["groups"]);
  (863%nat, "geometry" ::= compute "states[states['STATE_NAME']=='Massachusetts']['geometry'].iloc[0]" ["states"];;
            display);
  (873%nat, "matches" ::= compute "rents.intersects(geometry)" ["rents"; "geometry"]);
  (883%nat, "sindex" ::= compute "rents.sindex" ["rents"]);
  (892%nat, "possible_matches_index" ::= compute "list(sindex.intersection(geometry.bounds))" ["sindex"; "geometry"];;
            "possible_matches" ::= derive "rents.iloc[possible_matches_index]" "rents" ["possible_matches_index"];;
            "precise_matches" ::= derive "possible_matches[possible_matches.intersects(geometry)]"
                                         "possible_matches" ["geometry"])
].

(** *** Module 04 *)

(** [def scatter_plot(df, xcol, ycol)]; [fig] and [ax] are local to the
    function. *)
Definition scatter_plot (df : obj) (xcol ycol : string) : NB unit :=
  figax ← lib_call "plt.subplots(figsize=(6, 6))" [];
  lib_call ("ax.scatter(x=df['" +:+ xcol +:+ "'], y=df['" +:+ ycol +:+ "'], s=0.5, alpha=0.5)")
           [figax; data_of df];;
  lib_call ("ax.set_xlabel('" +:+ xcol +:+ "')") [figax];;
  lib_call ("ax.set_ylabel('" +:+ ycol +:+ "')") [figax];;
  display.

Definition cols04 : list string :=
  ["median_age"; "med_income_k"; "median_gross_rent_k"; "med_home_value_k"].

(** The notebook's code cells (lines of the first notebook of
    [src/unnamed/part_000]). *)
Definition module04 : list (nat * NB unit) := [
  (49%nat, subplots "fig" "ax" "");
  (59%nat, subplots "fig" "axes" "nrows=2, ncols=2, figsize=(8, 8)");
  (83%nat, "df" ::= read_csv "data/tracts.csv";; display);
  (94%nat, show "df.columns" ["df"]);
  (104%nat, "cities" ::= compute "df['place_name'].value_counts().head(10)" ["df"];;
            display);
  (115%nat, "ax" ::= compute "cities.plot(kind='bar')" ["cities"];; display);
  (125%nat, exec "plt.rcParams['font.family'] = 'helvetica,arial'" [];;
            exec "plt.rcParams['font.size'] = 12" []);
  (136%nat, "ax" ::= compute "cities.plot(kind='bar', figsize=(8, 6), width=0.6, alpha=0.6, color='g', edgecolor='k', zorder=2)" ["cities"];;
            exec "ax.yaxis.grid(True, ls=':')" ["ax"];;
            exec "ax.set_xticklabels(cities.index, rotation=45, rotation_mode='anchor', ha='right')" ["ax"; "cities"];;
            exec "ax.set_title('Cities with the most tracts')" ["ax"];;
            exec "ax.set_ylabel('Number of tracts')" ["ax"];;
            display);
  (155%nat, subplots "fig" "ax" "figsize=(8, 6)";;
            exec "ax.bar(x=cities.index, height=cities, width=0.6, alpha=0.6, color='g', edgecolor='k', zorder=2)" ["ax"; "cities"];;
            exec "ax.yaxis.grid(True, ls=':')" ["ax"];;
            exec "ax.set_xticklabels(cities.index, rotation=45, rotation_mode='anchor', ha='right')" ["ax"; "cities"];;
            exec "ax.set_title('Cities with the most tracts')" ["ax"];;
            exec "ax.set_ylabel('Number of tracts')" ["ax"];;
            display);
  (185%nat, subplots "fig" "ax" "figsize=(8, 6)";;
            exec "ax.bar(x=cities.index, height=np.log(cities), width=0.6, alpha=0.6, color='g', edgecolor='k', zorder=2)" ["ax"; "cities"];;
            exec "ax.yaxis.grid(True, ls=':')" ["ax"];;
            exec "ax.set_ylim((0, 8))" ["ax"];;
            exec "ax.set_xticklabels(cities.index, rotation=45, rotation_mode='anchor', ha='right')" ["ax"; "cities"];;
            exec "ax.set_title('Cities with the most tracts')" ["ax"];;
            exec "ax.set_ylabel('Number of tracts (log)')" ["ax"];;
            display);
  (223%nat, "ax" ::= compute "df['median_age'].hist()" ["df"];; display);
  (233%nat, "ax" ::= compute "df['median_age'].hist(bins=50, edgecolor='w', alpha=0.8, zorder=2)" ["df"];;
            exec "ax.grid(ls=':')" ["ax"];;
            exec "ax.set_xlim(left=0)" ["ax"];;
            exec "ax.set_ylim(top=1300)" ["ax"];;
            exec "ax.set_title('Tract median age histogram')" ["ax"];;
            display);
  (251%nat, "ax" ::= compute "df['median_age'].plot.kde()" ["df"];; display);
  (261%nat, "ax" ::= compute "df['median_age'].plot.kde(lw=4, alpha=0.6, bw_method=0.1)" ["df"];;
            exec "ax.grid(ls=':')" ["ax"];;
            exec "ax.set_xlim((0, 80))" ["ax"];;
            exec "ax.set_ylim(bottom=0)" ["ax"];;
            exec "ax.set_title('Tract median age probability density')" ["ax"];;
            display);
  (278%nat, subplots "fig" "ax" "figsize=(8, 6)";;
            "ax" ::= compute "df['median_age'].hist(ax=ax, bins=50, edgecolor='w', alpha=0.8, zorder=2)" ["df"; "ax"];;
            "ax" ::= compute "df['median_age'].plot.kde(ax=ax, lw=2, secondary_y=True, alpha=0.8)" ["df"; "ax"];;
            exec "ax.grid(ls=':')" ["ax"];;
            exec "ax.set_xlim((0, 75))" ["ax"];;
            exec "ax.set_ylim(bottom=0)" ["ax"];;
            exec "ax.set_title('Tract median age')" ["ax"];;
            display);
  (297%nat, subplots "fig" "axes" "nrows=2, ncols=2, figsize=(10, 8)";;
            for_each cols04 (λ col,
              "ax" ::= compute ("zip(axes.flatten(), cols): " +:+ col) ["axes"];;
              exec ("df['" +:+ col +:+ "'].hist(ax=ax, bins=50, alpha=0.8, zorder=2)") ["df"; "ax"];;
              exec "ax.grid(ls=':')" ["ax"];;
              exec "ax.set_xlim(left=0)" ["ax"];;
              exec ("ax.set_title('" +:+ col +:+ "')") ["ax"]);;
            exec "fig.suptitle('Histograms of tract-level variables', y=0.95, fontsize=16, weight='bold')" ["fig"];;
            display);
  (329%nat, "white_income" ::= compute "df[df['prop_white'] > 0.5]['med_income_k']" ["df"];;
            "ax" ::= compute "white_income.plot.kde(c='k', lw=2, ls='--', alpha=0.8, bw_method=1, label='majority white')" ["white_income"];;
            "black_income" ::= compute "df[df['prop_black'] > 0.5]['med_income_k']" ["df"];;
            "ax" ::= compute "black_income.plot.kde(c='k', lw=2, alpha=0.8, bw_method=1, label='majority black')" ["black_income"];;
            exec "ax.grid(ls=':')" ["ax"];;
            exec "ax.set_xlim((-30, 200))" ["ax"];;
            exec "ax.set_ylim(bottom=0)" ["ax"];;
            exec "ax.set_title('White vs Black Census Tracts')" ["ax"];;
            exec "ax.set_xlabel('Median income (USD, thousands)')" ["ax"];;
            exec "ax.set_ylabel('Probability density')" ["ax"];;
            exec "ax.legend()" ["ax"];;
            display);
  (373%nat, "dt" ::= read_csv "data/gps-coords.csv");
  (383%nat, "weekend_mask" ::= compute "(dt.index.weekday==5) | (dt.index.weekday==6)" ["dt"];;
            "weekends" ::= compute "dt[weekend_mask]" ["dt"; "weekend_mask"];;
            "weekdays" ::= compute "dt[~weekend_mask]" ["dt"; "weekend_mask"];;
            "weekday_hourly_share" ::= compute "weekdays.groupby(weekdays.index.hour).size() / weekdays.groupby(weekdays.index.hour).size().sum()" ["weekdays"];;
            "weekend_hourly_share" ::= compute "weekends.groupby(weekends.index.hour).size() / weekends.groupby(weekends.index.hour).size().sum()" ["weekends"];;
            "hourly_share" ::= compute "pd.DataFrame([weekday_hourly_share, weekend_hourly_share], index=['weekday', 'weekend']).T" ["weekday_hourly_share"; "weekend_hourly_share"];;
            "hourly_share" ::= compute "hourly_share.index = [s + ':00' for s in hourly_share.index.astype(str)]" ["hourly_share"];;
            display);
  (400%nat, "ax" ::= compute "hourly_share.plot(figsize=(10, 6), kind='bar', alpha=0.7, title='Share of observations, by hour')" ["hourly_share"];;
            display);
  (411%nat, "ax" ::= compute "hourly_share.plot(figsize=(10, 6), kind='bar', stacked=True, alpha=0.7, title='Share of observations, by hour')" ["hourly_share"];;
            display);
  (422%nat, "ax" ::= compute "hourly_share.plot(figsize=(10, 6), kind='bar', stacked=False, width=0.5, alpha=0.7, color=['#336699', '#ff3366'], edgecolor='k')" ["hourly_share"];;
            exec "ax.yaxis.grid(True, ls=':')" ["ax"];;
            exec "ax.set_xticklabels(hourly_share.index, rotation=60, rotation_mode='anchor', ha='right')" ["ax"; "hourly_share"];;
            exec "ax.set_title('Share of observations, by hour')" ["ax"];;
            display);
  (438%nat, "countdata" ::= compute "dt.groupby(dt.index.date).size()" ["dt"];; display);
  (449%nat, "ax" ::= compute "countdata.plot(kind='line', figsize=(10, 6))" ["countdata"];;
            display);
  (459%nat, "ax" ::= compute "countdata.plot(kind='line', figsize=(10, 6), lw=2, c='m', marker='o', markerfacecolor='w', markeredgewidth=1.5)" ["countdata"];;
            "xticks" ::= compute "np.unique(dt.index.date[(dt.index.day == 15) | (dt.index.day == 1)])" ["dt"];;
            exec "plt.xticks(ticks=xticks, rotation=45, rotation_mode='anchor', ha='right')" ["xticks"];;
            exec "ax.grid(ls=':')" ["ax"];;
            display);
  (494%nat, subplots "fig" "ax" "figsize=(6, 6)";;
            exec "ax.scatter(x=df['med_income_k'], y=df['med_home_value_k'], s=0.5, alpha=0.5)" ["ax"; "df"];;
            exec "ax.set_xlabel('Median Income (USD, thousands)')" ["ax"];;
            exec "ax.set_ylabel('Meidan Home Value (USD, thousands)')" ["ax"];;
            display);
  (507%nat, define "scatter_plot");
  (521%nat, df ← get "df";
            scatter_plot df "distance_to_center_km" "mean_travel_time_work");
  (531%nat, df ← get "df";
            scatter_plot df "prop_college_grad_student" "prop_renting");
  (541%nat, subplots "fig" "ax" "figsize=(10, 10)";;
            "mask" ::= compute "df['prop_white'] > 0.5" ["df"];;
            exec "ax.scatter(x=df[~mask]['med_income_k'], y=df[~mask]['med_home_value_k'], s=10, alpha=0.5, marker='o', c='none', edgecolor='r', label='minority white')" ["ax"; "df"; "mask"];;
            exec "ax.scatter(x=df[mask]['med_income_k'], y=df[mask]['med_home_value_k'], s=10, alpha=0.5, marker='o', c='none', edgecolor='k', label='majority white')" ["ax"; "df"; "mask"];;
            exec "ax.set_ylim((0, 1000))" ["ax"];;
            exec "ax.set_xlim((0, 175))" ["ax"];;
            exec "ax.set_xlabel('Median Income (USD, thousands)', fontsize=16)" ["ax"];;
            exec "ax.set_ylabel('Meidan Home Value (USD, thousands)', fontsize=16)" ["ax"];;
            exec "ax.legend()" ["ax"];;
            display)
].

(** *** Module 10 *)

(** [tracts = gpd.read_file('data/census_tracts_data.geojson')],
    [tracts.shape] *)
Definition cell10_651 : NB unit :=
  "tracts" ::= read_file "data/census_tracts_data.geojson";;
  display.

(** [X = tracts[predictors].dropna()], [y = tracts.loc[X.index][response]] *)
Definition design_cell (predictors : string) : NB unit :=
  "X" ::= compute ("tracts[" +:+ predictors +:+ "].dropna()") ["tracts"];;
  "y" ::= compute "tracts.loc[X.index][response]" ["tracts"; "X"].

(** [Xc = add_constant(X)], [model = sm.OLS(y, Xc)], [result = model.fit()],
    [print(result.summary())] *)
Definition ols_cell : NB unit :=
  "Xc" ::= compute "add_constant(X)" ["X"];;
  "model" ::= compute "sm.OLS(y, Xc)" ["y"; "Xc"];;
  "result" ::= compute "model.fit()" ["model"];;
  show "result.summary()" ["result"].

Definition predictors6 : string :=
  "['med_household_income', 'pct_white', 'pct_single_family_home', 'pct_built_before_1940', 'med_rooms_per_home', 'pct_bachelors_degree']".

(** The notebook's code cells (lines of the second notebook of
    [src/unnamed/part_000]). *)
Definition module10 : list (nat * NB unit) := [
  (651%nat, cell10_651);
  (662%nat, "tracts" ::= derive "tracts.dropna(subset=[response])" "tracts" []);
  (673%nat, show "tracts.plot(column=response, scheme='quantiles')" ["tracts"]);
  (683%nat, show "tracts.columns" ["tracts"]);
  (708%nat, design_cell "'med_household_income'");
  (720%nat, unpack ["m"; "b"; "r"; "p"; "se"] (compute "stats.linregress(x=X, y=y)" ["X"; "y"]);;
            display);
  (731%nat, ols_cell);
  (755%nat, design_cell "['med_household_income', 'pct_white']");
  (767%nat, ols_cell);
  (787%nat, show "tracts.columns" ["tracts"]);
  (796%nat, design_cell predictors6);
  (809%nat, ols_cell);
  (848%nat, "tracts" ::= derive "for county in tracts['COUNTYFP'].unique(): tracts[f'dummy_county_{county}'] = (tracts['COUNTYFP'] == county).astype(int)"
                                "tracts" []);
  (860%nat, "county_dummies" ::= compute "[f'dummy_county_{county}' for county in tracts['COUNTYFP'].unique()][1:]" ["tracts"]);
  (872%nat, "X" ::= compute "tracts[predictors + county_dummies].dropna()" ["tracts"; "county_dummies"];;
            "y" ::= compute "tracts.loc[X.index][response]" ["tracts"; "X"]);
  (885%nat, ols_cell);
  (907%nat, "counties" ::= compute "tracts['COUNTYFP'].value_counts().index[:3]" ["tracts"];;
            "mask" ::= compute "tracts['COUNTYFP'].isin(counties)" ["tracts"; "counties"]);
  (918%nat, "X" ::= compute "tracts.loc[mask, predictors].dropna()" ["tracts"; "mask"];;
            "Y" ::= compute "tracts.loc[X.index][[response]]" ["tracts"; "X"];;
            "regimes" ::= compute "tracts.loc[X.index]['COUNTYFP']" ["tracts"; "X"]);
  (930%nat, "olsr" ::= compute "ps.model.spreg.OLS_Regimes(y=Y.values, x=X.values, regimes=regimes.values, name_regimes='county', name_x=X.columns.tolist(), name_y=response, name_ds='tracts')"
                               ["Y"; "X"; "regimes"];;
            show "olsr.summary" ["olsr"]);
  (951%nat, "X" ::= compute ("tracts[" +:+ predictors6 +:+ "].dropna()") ["tracts"];;
            "Y" ::= compute "tracts.loc[X.index][[response]]" ["tracts"; "X"]);
  (964%nat, "W" ::= compute "ps.lib.weights.Queen.from_dataframe(tracts.loc[X.index])" ["tracts"; "X"];;
            "W" ::= compute "W.transform = 'r'" ["W"]);
  (975%nat, "ols" ::= compute "ps.model.spreg.OLS(y=Y.values, x=X.values, w=W, spat_diag=True, moran=True)"
                              ["Y"; "X"; "W"]);
  (985%nat, "mi" ::= compute "ps.explore.esda.Moran(y=Y, w=W, two_tailed=True)" ["Y"; "W"];;
            show "mi.I" ["mi"];;
            show "mi.p_sim" ["mi"]);
  (997%nat, show "ols.moran_res" ["ols"]);
  (1016%nat, show "ols.lm_lag" ["ols"]);
  (1026%nat, show "ols.lm_error" ["ols"]);
  (1045%nat, show "ols.rlm_lag" ["ols"]);
  (1055%nat, show "ols.rlm_error" ["ols"]);
  (1096%nat, "mll" ::= compute "ps.model.spreg.ML_Lag(y=Y.values, x=X.values, w=W, method='full', name_w='queen', name_x=X.columns.tolist(), name_y=response, name_ds='tracts')"
                               ["Y"; "X"; "W"];;
             show "mll.summary" ["mll"]);
  (1108%nat, show "mll.rho" ["mll"]);
  (1137%nat, "mle" ::= compute "ps.model.spreg.ML_Error(y=Y.values, x=X.values, w=W, method='full', name_w='queen', name_x=X.columns.tolist(), name_y=response, name_ds='tracts')"
                               ["Y"; "X"; "W"];;
             show "mle.summary" ["mle"]);
  (1149%nat, show "mle.lam" ["mle"]);
  (1180%nat, "gmc" ::= compute "ps.model.spreg.GM_Combo_Het(y=Y.values, x=X.values, w=W, name_w='queen', name_ds='tracts', name_x=X.columns.tolist(), name_y=response)"
                               ["Y"; "X"; "W"];;
             show "gmc.summary" ["gmc"])
].

Definition notebooks : list (list (nat * NB unit)) := [module04; module06; module10].

(** A full run: each notebook in a kernel of its own, on the disk the
    previous one left. *)
Definition run_notebooks (nbs : list (list (nat * NB unit)))
    (d : gmap string file) : gmap string file :=
  foldl (λ d nb, disk (final (run_cells nb (fresh d)))) d nbs.

(** *** Specifications of statements *)

(** A statement that leaves every file outside [S] as it was, whether it
    ends normally or raises. *)
Definition writes_within {A} (S : gset string) (m : NB A) : Prop :=
  ∀ w p, p ∉ S → disk (m w).2 !! p = disk w !! p.

(** A run that does not stop on [to_crs] refusing a frame without a
    reference system. *)
Definition never_naive (r : outcome) : Prop :=
  ∀ n w, r ≠ Halted n NaiveGeometries w.

(** Weakest precondition: [Q] on normal termination, [E] on an exception. *)
Definition wp {A} (m : NB A) (Q : A → World → Prop) (E : error → World → Prop)
    (w : World) : Prop :=
  match m w with
  | (inr a, w') => Q a w'
  | (inl e, w') => E e w'
  end.

End Library.
End Notebook.

(** ** The notebooks as written: codes, events and call sites *)

Module Code.
Import Notebook.

Section Code.
Context {Value : Type}.
Variable lib : string → list Value → string + Value.
Variable reproject : CRS → CRS → Value → string + Value.
Variable latlong : Value → list (Q * Q).
Variable great_circle_miles : Q * Q → Q * Q → string + Q.
Variable with_column : Value → string → list Q → Value.

Local Abbreviation NB := (NB Value).
Local Abbreviation World := (World Value).
Local Abbreviation obj := (obj Value).

(** How a statement is written: which primitive it is, or how it is put
    together from statements.  The index is the statement itself, so a
    statement has a code only if it is built from the constructs below;
    there is none for catching an exception. *)
Inductive code : ∀ {A : Type}, NB A → Type :=
| Ret {A} (a : A) : code (mret a)
| Bind {A B} (m : NB A) (f : A → NB B) :
    code m → (∀ a, code (f a)) → code (m ≫= f)
| Get (x : string) : code (get Value x)
| Set_ (x : string) (o : obj) : code (set Value x o)
| Display : code (display Value)
| Define (name : string) : code (define Value name)
| LibCall (op : string) (args : list Value) : code (lib_call Value lib op args)
| ReadData (path : string) : code (read_data Value path)
| ToFile (o : obj) (path : string) : code (to_file Value o path)
| Savefig (fig : obj) (path : string) (dpi : Z) : code (savefig Value fig path dpi)
| ToCrs (o : obj) (target : option CRS) : code (to_crs Value reproject o target)
| CrsOf (o : obj) : code (crs_of Value o)
| FirstTwo (o : obj) :
    code (first_two_distance Value latlong great_circle_miles o)
| Lift {A} (op : string) (r : string + A) : code (lift Value op r)
| MapM {A B} (f : A → NB B) (l : list A) :
    (∀ a, code (f a)) → code (mapM f l)
| Apply {A B} (f : A → NB B) (rows : list A) :
    (∀ r, code (f r)) → code (apply_rows Value f rows)
| ForEach {A} (xs : list A) (body : A → NB unit) :
    (∀ x, code (body x)) → code (for_each Value xs body)
| Call {A} (name : string) (m : NB A) : code m → code m.

(** The cells of a notebook, each with its code. *)
Inductive codes : list (nat * NB unit) → Type :=
| Nil : codes []
| Cons (n : nat) (c : NB unit) (rest : list (nat * NB unit)) :
    code c → codes rest → codes ((n, c) :: rest).

(** *** What a run calls *)

(** An operation carried out for the notebook by Python or a library, and
    the exception it raised, if it raised one. *)
Record event := mkEvent { callee : string; raised : option error }.

Definition failed {A} (op : string) (r : string + A) : option error :=
  match r with
  | inl msg => Some (LibraryError op msg)
  | inr _ => None
  end.

(** The events of a sequence of statements run one after the other. *)
Fixpoint each {A B} (f : A → NB B) (ev : A → World → list event)
    (l : list A) (w : World) : list event :=
  match l with
  | [] => []
  | x :: l' =>
      ev x w ++ match f x w with
                | (inr _, w') => each f ev l' w'
                | (inl _, _) => []
                end
  end.

(** The events of a statement run in a world, in order. *)
Fixpoint log {A} {m : NB A} (k : code m) (w : World) : list event :=
  match k with
  | Ret _ | Set_ _ _ | Display | Define _ => []
  | Bind m f km kf =>
      log km w ++ match m w with
                  | (inr a, w') => log (kf a) w'
                  | (inl _, _) => []
                  end
  | Get x =>
      [mkEvent x (match ns Value w !! x with
                  | Some _ => None
                  | None => Some (NameError x)
                  end)]
  | LibCall op args => [mkEvent op (failed op (lib op args))]
  | ReadData path =>
      [mkEvent path (match disk Value w !! path with
                     | Some (DataFile _ _ _) => None
                     | Some (ImageFile _ _ _) => Some (NotADataset path)
                     | None => Some (FileNotFound path)
                     end)]
  | ToFile o path =>
      [mkEvent "to_file" (match o with
                          | Frame _ _ _ => None
                          | Plain _ _ => Some (AttributeError "to_file")
                          end)]
  | Savefig _ _ _ => [mkEvent "savefig" None]
  | ToCrs o target =>
      [mkEvent "to_crs"
         (match o, target with
          | Plain _ _, _ => Some (AttributeError "to_crs")
          | Frame _ None _, _ => Some NaiveGeometries
          | Frame _ (Some _) _, None => Some NoTargetCRS
          | Frame _ (Some src) v, Some dst => failed "to_crs" (reproject src dst v)
          end)]
  | CrsOf o =>
      [mkEvent "crs" (match o with
                      | Frame _ _ _ => None
                      | Plain _ _ => Some (AttributeError "crs")
                      end)]
  | FirstTwo o =>
      match latlong (data_of Value o) with
      | point0 :: point1 :: _ =>
          [mkEvent "loc" None;
           mkEvent "great_circle"
             (failed "great_circle" (great_circle_miles point0 point1))]
      | _ => [mkEvent "loc" (Some (KeyError "loc"))]
      end
  | Lift op r => [mkEvent op (failed op r)]
  | MapM f l kf => each f (λ a, log (kf a)) l w
  | Apply f rows kf => each f (λ r, log (kf r)) rows w
  | ForEach xs body kb => each body (λ x, log (kb x)) xs w
  | Call _ _ km => log km w
  end.

(** The events of a run, each with the cell it happened in. *)
Fixpoint run_log {cells} (ks : codes cells) (w : World) : list (nat * event) :=
  match ks with
  | Nil => []
  | Cons n c rest k ks' =>
      ((λ ev, (n, ev)) <$> log k w)
      ++ match c w with
         | (inr _, w') => run_log ks' w'
         | (inl _, _) => []
         end
  end.

(** Nothing stands between a failure and the end of the run: an operation
    that raises is the last one of the run, and the run is halted at the
    cell of that operation with the exception it raised; a run none of
    whose operations raises goes through every cell. *)
Definition uncaught {cells} (ks : codes cells) (w : World) : Prop :=
  (∀ pre n ev post e,
     run_log ks w = pre ++ (n, ev) :: post → raised ev = Some e →
     post = [] ∧ ∃ w', run_cells Value cells w = Halted Value n e w') ∧
  (Forall (λ nev, raised nev.2 = None) (run_log ks w) →
   ∃ w', run_cells Value cells w = Finished Value w') ∧
  (∀ n e w', run_cells Value cells w = Halted Value n e w' →
     ∃ pre ev, run_log ks w = pre ++ [(n, ev)] ∧ raised ev = Some e).

(** *** Where the calls are written *)

(** A call as it stands in the source: in a cell or in the body of a
    function of the repository; to a library (or to Python itself) or to a
    function that the repository defines. *)
Inductive place := TopLevel | InBody (function : string).
Inductive origin := Library | Repository.

Record site := mkSite { s_place : place; s_callee : string; s_origin : origin }.

(** The call sites of a statement written at place [p].  What a statement
    goes on to do may depend on a value it has got; a site is a site
    whatever that value is. *)
Fixpoint sites {A} {m : NB A} (k : code m) (p : place) (s : site) : Prop :=
  match k with
  | Ret _ | Set_ _ _ | Display | Define _ | Get _ | CrsOf _ => False
  | Bind m f km kf => sites km p s ∨ ∃ a, sites (kf a) p s
  | LibCall op _ => s = mkSite p op Library
  | ReadData _ => s = mkSite p "read" Library
  | ToFile _ _ => s = mkSite p "to_file" Library
  | Savefig _ _ _ => s = mkSite p "savefig" Library
  | ToCrs _ _ => s = mkSite p "to_crs" Library
  | FirstTwo _ => s = mkSite p "great_circle" Library
  | Lift op _ => s = mkSite p op Library
  | MapM f l kf => ∃ a, sites (kf a) p s
  | Apply f rows kf => s = mkSite p "apply" Library ∨ ∃ r, sites (kf r) p s
  | ForEach xs body kb => ∃ x, sites (kb x) p s
  | Call name _ km => s = mkSite p name Repository ∨ sites km (InBody name) s
  end.

(** The functions a statement defines. *)
Fixpoint defines {A} {m : NB A} (k : code m) (name : string) : Prop :=
  match k with
  | Define n => n = name
  | Bind m f km kf => defines km name ∨ ∃ a, defines (kf a) name
  | MapM f l kf => ∃ a, defines (kf a) name
  | Apply f rows kf => ∃ r, defines (kf r) name
  | ForEach xs body kb => ∃ x, defines (kb x) name
  | Call _ _ km => defines km name
  | _ => False
  end.

(** The call sites and the definitions of a notebook, by cell. *)
Fixpoint cell_sites {cells} (ks : codes cells) (n : nat) (s : site) : Prop :=
  match ks with
  | Nil => False
  | Cons n' c rest k ks' => (n' = n ∧ sites k TopLevel s) ∨ cell_sites ks' n s
  end.

Fixpoint cell_defines {cells} (ks : codes cells) (n : nat) (name : string) : Prop :=
  match ks with
  | Nil => False
  | Cons n' c rest k ks' => (n' = n ∧ defines k name) ∨ cell_defines ks' n name
  end.

(** No event of the list raised. *)
Definition quiet (l : list event) : Prop := Forall (λ ev, raised ev = None) l.

(** The events of a statement against its result: none raised when it
    returns; when it raises, the last one raised that exception and none
    before it raised. *)
Definition agrees {A} (r : (error + A) * World) (l : list event) : Prop :=
  match r.1 with
  | inr _ => quiet l
  | inl e => ∃ pre ev, l = pre ++ [ev] ∧ raised ev = Some e ∧ quiet pre
  end.

(** A notebook that calls, of the repository's functions, only those that
    one of its own earlier cells (or the calling cell) defines; the bodies
    of these functions call libraries only. *)
Definition self_contained {cells} (ks : codes cells) : Prop :=
  ∀ n s, cell_sites ks n s →
    match s_origin s, s_place s with
    | Repository, TopLevel =>
        ∃ n', (n' ≤ n)%nat ∧ cell_defines ks n' (s_callee s)
    | Repository, InBody _ => False
    | Library, TopLevel => True
    | Library, InBody f => ∃ n', (n' ≤ n)%nat ∧ cell_defines ks n' f
    end.

End Code.

Arguments log {Value lib reproject latlong great_circle_miles A m} k w.
Arguments run_log {Value lib reproject latlong great_circle_miles cells} ks w.
Arguments uncaught {Value lib reproject latlong great_circle_miles cells} ks w.
Arguments sites {Value lib reproject latlong great_circle_miles A m} k p s.
Arguments defines {Value lib reproject latlong great_circle_miles A m} k name.
Arguments cell_sites {Value lib reproject latlong great_circle_miles cells} ks n s.
Arguments cell_defines {Value lib reproject latlong great_circle_miles cells} ks n name.
Arguments self_contained {Value lib reproject latlong great_circle_miles cells} ks.

(** The operations the specification names, as they are written in a
    call. *)
Definition named_operations : list string :=
  ["intersects("; "within("; "dissolve("; "buffer("; "to_crs"; "sjoin(";
   "weights."; "OLS"; "linregress("; "ML_Lag("; "ML_Error("; "GM_Combo";
   "Moran"; "lm_lag"; "lm_error"].

Definition mentions (needle s : string) : bool :=
  match String.index 0 needle s with Some _ => true | None => false end.

Definition named (callee : string) : bool :=
  existsb (λ needle, mentions needle callee) named_operations.

End Code.

(** ** The code of the three notebooks *)

Module Programs.
Import Notebook Code.

(** The code of a statement, read off the statement. *)
Ltac read_code :=
  lazymatch goal with
  | |- code _ _ _ _ (mbind _ _) => apply Bind; [|intros ?]
  | |- code _ _ _ _ (mret _) => apply Ret
  | |- code _ _ _ _ (get _ _) => apply Get
  | |- code _ _ _ _ (set _ _ _) => apply Set_
  | |- code _ _ _ _ (display _) => apply Display
  | |- code _ _ _ _ (define _ _) => apply Define
  | |- code _ _ _ _ (lib_call _ _ _ _) => apply LibCall
  | |- code _ _ _ _ (read_data _ _) => apply ReadData
  | |- code _ _ _ _ (to_file _ _ _) => apply ToFile
  | |- code _ _ _ _ (savefig _ _ _ _) => apply Savefig
  | |- code _ _ _ _ (to_crs _ _ _ _) => apply ToCrs
  | |- code _ _ _ _ (crs_of _ _) => apply CrsOf
  | |- code _ _ _ _ (first_two_distance _ _ _ _) => apply FirstTwo
  | |- code _ _ _ _ (lift _ _ _) => apply Lift
  | |- code _ _ _ _ (apply_rows _ _ _) => apply Apply; intros ?
  | |- code _ _ _ _ (mapM _ _) => apply MapM; intros ?
  | |- code _ _ _ _ (for_each _ _ _) => apply ForEach; intros ?
  | |- code _ _ _ _ (get_distance _ _ _) =>
      apply (Call _ _ _ _ "get_distance"); unfold get_distance
  | |- code _ _ _ _ (scatter_plot _ _ _ _ _) =>
      apply (Call _ _ _ _ "scatter_plot"); unfold scatter_plot
  | |- codes _ _ _ _ (_ :: _) => apply Cons
  | |- codes _ _ _ _ [] => apply Nil
  end.

Ltac read_codes :=
  unfold module04, module06, module10, cell06_134, cell06_164,
    cell06_207, cell06_520, cell06_562, cell06_582, cell06_622, cell06_669,
    cell06_682, cell06_716, cell06_755, cell06_788, cell06_809, cell10_651,
    design_cell, ols_cell, subplots, unpack, show, exec,
    assign, derive, compute, gets, read_csv, read_file;
  repeat read_code.

Section Programs.
Context {Value : Type}.
Variable lib : string → list Value → string + Value.
Variable reproject : CRS → CRS → Value → string + Value.
Variable latlong : Value → list (Q * Q).
Variable great_circle_miles : Q * Q → Q * Q → string + Q.
Variable with_column : Value → string → list Q → Value.

Definition code04 :
  codes lib reproject latlong great_circle_miles (module04 Value lib).
Proof. read_codes. Defined.

Definition code06 :
  codes lib reproject latlong great_circle_miles
    (module06 Value lib reproject latlong great_circle_miles with_column).
Proof. read_codes. Defined.

Definition code10 :
  codes lib reproject latlong great_circle_miles (module10 Value lib).
Proof. read_codes. Defined.

End Programs.
End Programs.

(** ** Sample inputs *)

Module Samples.
Import Pandas Module10 Module04 Geo Notebook.

(** Five tracts in three counties; the first tract, the only one of county
    001, has no household income. *)
Definition tract_columns : list string :=
  ["COUNTYFP"; "med_home_value"; "med_household_income"; "pct_white";
   "pct_single_family_home"; "pct_built_before_1940"; "med_rooms_per_home";
   "pct_bachelors_degree"].

Definition tract_rows : list (list cell) :=
  [[Str "001"; Num 310; NaN; Num 61; Num 40; Num 12; Num 5; Num 30];
   [Str "003"; Num 250; Num 52; Num 48; Num 55; Num 20; Num 6; Num 22];
   [Str "003"; Num 275; Num 58; Num 50; Num 51; Num 18; Num 5; Num 25];
   [Str "005"; Num 420; Num 90; Num 70; Num 30; Num 35; Num 4; Num 51];
   [Str "005"; Num 390; Num 84; Num 66; Num 33; Num 31; Num 5; Num 47]].

(** GPS records: Thursday 1970-01-01 00:30, Saturday 1970-01-03 05:00,
    Sunday 1970-01-04 05:10, Monday 1970-01-05 23:59. *)
Definition gps : list record :=
  [(Some 1800, []); (Some 190800, []); (Some 277800, []); (Some 431940, [])].

(** Six Thursday records, one in each of the hours 0 to 5; and two records
    without date. *)
Definition six_hours : list record :=
  [(Some 0, []); (Some 3600, []); (Some 7200, []); (Some 10800, []);
   (Some 14400, []); (Some 18000, [])].

Definition undated : list record := [(None, []); (None, [])].

(** A listing inside two overlapping rectangles, one inside a single
    rectangle, one outside both. *)
Definition listings : list (Z * box) := [(0, pt 5 5); (1, pt 1 1); (2, pt 20 20)].
Definition regions : list (Z * box) := [(0, rect 0 0 6 6); (1, rect 4 4 10 10)].

(** An R-tree that reports its hits from the last stored box to the
    first. *)
Definition rtree_backwards (boxes : list box) (q : box) : list nat :=
  reverse (candidates boxes q).

Definition id_bounds (b : box) : box := b.

(** A library that always succeeds. *)
Definition lib_ok (op : string) (args : list Z) : string + Z := inr 0.
Definition reproject_ok (src dst : CRS) (v : Z) : string + Z := inr v.
Definition latlong_two (v : Z) : list (Q * Q) :=
  [((42 # 1)%Q, (- (71 # 1))%Q); ((34 # 1)%Q, (- (118 # 1))%Q)].
Definition great_circle_ok (a b : Q * Q) : string + Q := inr (2591 # 1)%Q.
Definition with_column_ok (v : Z) (name : string) (col : list Q) : Z := v.

(** geopy refuses a latitude outside [-90, 90]. *)
Definition great_circle_checked (a b : Q * Q) : string + Q :=
  if Qle_bool (b.1) (90 # 1) then inr (2591 # 1)%Q
  else inl "Latitude must be in the [-90; 90] range.".
Definition latlong_bad (v : Z) : list (Q * Q) :=
  [((42 # 1)%Q, (- (71 # 1))%Q); ((134 # 1)%Q, (- (118 # 1))%Q)].

Definition disk06 (shp_crs : option CRS) : gmap string (file Z) :=
  list_to_map
    [("data/usa-latlong.csv", DataFile Z None 1);
     ("data/states_21basic/states.shp", DataFile Z shp_crs 2);
     ("data/states.geojson", DataFile Z (Some original_crs) 3);
     ("data/listings.csv", DataFile Z None 4)].

Definition nb06_ok : list (nat * NB Z unit) :=
  module06 Z lib_ok reproject_ok latlong_two great_circle_ok with_column_ok.

End Samples.

(** ** Frames column by column (module 10) *)

Module Frames.
Import Pandas Module10.

(** A frame whose every row has one cell per column. *)
Definition well_formed (df : DataFrame) : Prop :=
  Forall (λ ir, length ir.2 = length (columns df)) (rows df).

(** [df[name].values] *)
Definition col_values (df : DataFrame) (name : string) : option (list cell) :=
  (λ s : Series, s.*2) <$> getitem_col df name.

(** [Series.isin(values)] *)
Definition isin (col values : list cell) : list bool :=
  (λ c, bool_decide (c ∈ values)) <$> col.

(** The cells of a row at the positions [ps], as [df[names]] takes them, and
    whether [dropna] keeps the row. *)
Definition select (ps : list nat) (ir : Z * list cell) : Z * list cell :=
  (ir.1, cell_at ir.2 <$> ps).

Definition complete_row (ps : list nat) (ir : Z * list cell) : bool :=
  forallb notna (select ps ir).2.

End Frames.

(** ** Counts per hour and the two scatter series (module 04) *)

Module Charts.
Import Pandas Module04 Geo.

(** Number of records of a subset that fall in a given hour, and number of
    records of a subset that have a date. *)
Definition count_hour (h : Z) (sub : list record) : nat :=
  length (filter (λ r, hour <$> r.1 = Some h) sub).

Definition dated (sub : list record) : Z :=
  Z.of_nat (length (filter (λ r, is_Some r.1) sub)).

(** Number of occurrences of a key, and the count a [groupby().size()]
    result holds for a key (0 when the key is absent). *)
Definition occurrences (k : Z) (keys : list Z) : nat :=
  length (filter (λ x, x = k) keys).

Definition count_of (k : Z) (acc : list (Z * Z)) : Z :=
  foldr (λ kn s, if kn.1 =? k then kn.2 + s else s) 0 acc.

(** Cell 541: [mask = df['prop_white'] > 0.5]; a missing value compares
    false.  A tract is its label and its [prop_white]. *)
Definition above_half (c : option Q) : bool :=
  match c with
  | Some q => Qlt_bool (1 # 2) q
  | None => false
  end.

Definition white_mask (df : list (Z * option Q)) : list bool :=
  (λ r, above_half r.2) <$> df.

(** [df[~mask]], drawn as 'minority white', and [df[mask]], drawn as
    'majority white' *)
Definition minority_white (df : list (Z * option Q)) : list (Z * option Q) :=
  mask_rows (negb <$> white_mask df) df.

Definition majority_white (df : list (Z * option Q)) : list (Z * option Q) :=
  mask_rows (white_mask df) df.

End Charts.

(** ** The contiguous states and the join against them (module 06) *)

Module Contiguous.
Import Pandas Geo.

Section States.
Context {P G : Type}.
Variable within : P → G → bool.

(** A row of [states]: its label, its [STATE_NAME] and its geometry. *)
Definition state_row : Type := Z * (cell * G).

(** [mask = (states['STATE_NAME']!='Alaska') & (states['STATE_NAME']!='Hawaii')] *)
Definition contiguous_mask (states : list state_row) : list bool :=
  (λ s, negb (cell_eqb s.2.1 (Str "Alaska")) && negb (cell_eqb s.2.1 (Str "Hawaii")))
    <$> states.

(** [contiguous_states = states[mask]] *)
Definition contiguous_states (states : list state_row) : list state_row :=
  mask_rows (contiguous_mask states) states.

(** [rents_states = gpd.sjoin(rents, contiguous_states, how='left', op='within')] *)
Definition rents_states (rents : list (Z * P)) (states : list state_row)
  : list (Z * P * option Z) :=
  sjoin_left (λ p s, within p s.2) rents (contiguous_states states).
End States.

End Contiguous.

(** ** Why a run stops, and where module 06 ends *)

Module Outcomes.
Import Notebook.

Section Causes.
Context {Value : Type}.
Variable lib : string → list Value → string + Value.
Variable reproject : CRS → CRS → Value → string + Value.
Variable latlong : Value → list (Q * Q).
Variable great_circle_miles : Q * Q → Q * Q → string + Q.

(** The files the notebooks read. *)
Definition inputs : list string :=
  ["data/tracts.csv"; "data/gps-coords.csv"; "data/usa-latlong.csv";
   "data/states_21basic/states.shp"; "data/states.geojson";
   "data/listings.csv"; "data/census_tracts_data.geojson"].

(** What can make a run on the disk [d] stop with the exception [e]: an
    input file that is missing or is not a dataset, a points table with
    fewer than two rows, a states shapefile without reference system, or
    an exception of a library.  No other exception has a cause. *)
Definition caused (d : gmap string (file Value)) (e : error) : Prop :=
  match e with
  | FileNotFound p => p ∈ inputs ∧ d !! p = None
  | NotADataset p => p ∈ inputs ∧ ∃ dpi fig, d !! p = Some (ImageFile Value dpi fig)
  | KeyError _ =>
      ∃ c v0 v, d !! "data/usa-latlong.csv" = Some (DataFile Value c v0) ∧
                lib "gpd.GeoDataFrame(df)" [v0] = inr v ∧
                (length (latlong v) < 2)%nat
  | NaiveGeometries =>
      ∃ v, d !! "data/states_21basic/states.shp" = Some (DataFile Value None v)
  | LibraryError op msg =>
      (∃ args, lib op args = inl msg) ∨
      (op = "to_crs" ∧ ∃ src dst v, reproject src dst v = inl msg) ∨
      (op = "great_circle" ∧ ∃ a b, great_circle_miles a b = inl msg)
  | NameError _ | AttributeError _ | NoTargetCRS => False
  end.

Definition explained (d : gmap string (file Value)) (Φ : World Value → Prop)
    (r : outcome Value) : Prop :=
  match r with
  | Finished _ w => Φ w
  | Halted _ _ e _ => caused d e
  end.

(** The [crs] attribute of the frame bound to a name. *)
Definition frame_crs (w : World Value) (x : string) : option (option CRS) :=
  match ns Value w !! x with
  | Some (Frame _ c _) => Some c
  | _ => None
  end.

(** The state module 06 ends in. *)
Definition module06_final (d : gmap string (file Value)) (w : World Value) : Prop :=
  ∃ c v c2 v2 v2' fig,
    d !! "data/states_21basic/states.shp" = Some (DataFile Value (Some c) v) ∧
    d !! "data/states.geojson" = Some (DataFile Value c2 v2) ∧
    disk Value w = <["data/map.png" := ImageFile Value 600 fig]>
                     (<["data/states2" := DataFile Value c2 v2']> d) ∧
    frame_crs w "states" = Some (Some c) ∧
    frame_crs w "states2" = Some c2 ∧
    frame_crs w "contiguous_states" = Some (Some c) ∧
    frame_crs w "california" = Some (Some utm_11) ∧
    frame_crs w "cal_points" = Some (Some utm_11) ∧
    frame_crs w "usa_points" = Some (Some original_crs) ∧
    frame_crs w "contiguous_states_proj" = Some (Some albers_usa) ∧
    frame_crs w "rents" = Some (Some c) ∧
    frame_crs w "rents_states" = Some (Some c).

End Causes.
End Outcomes.

(** ** More sample inputs *)

Module MoreSamples.
Import Notebook Samples.

(** A disk with every input file of the three notebooks. *)
Definition disk_all : gmap string (file Z) :=
  list_to_map
    [("data/tracts.csv", DataFile Z None 5);
     ("data/gps-coords.csv", DataFile Z None 6);
     ("data/census_tracts_data.geojson", DataFile Z (Some original_crs) 7)]
  ∪ disk06 (Some original_crs).

(** A kernel in which [usa_points] is bound. *)
Definition world_points : World Z :=
  mkWorld Z ∅ {["usa_points" := Frame Z None 1]} 0.

(** A library in which the operations whose name contains [needle] raise. *)
Definition lib_failing (needle : string) (op : string) (args : list Z) : string + Z :=
  if Code.mentions needle op then inl "failed" else inr 0.

(** A reprojection that raises. *)
Definition reproject_failing (src dst : CRS) (v : Z) : string + Z := inl "failed".

End MoreSamples.

(** * Proofs *)

(** ** Row alignment of design matrix and response (module 10) *)

Section Alignment.
Import Pandas Module10.

Lemma filter_none {A} (P : A → Prop) `{!∀ x, Decision (P x)} (l : list A) :
  Forall (λ x, ¬ P x) l → filter P l = [].
Proof.
  induction 1 as [|x l Hx _ IH]; [done|]. by rewrite filter_cons_False.
Qed.

Lemma rows_with_unique (rs : list (Z * list cell)) l r :
  NoDup rs.*1 → (l, r) ∈ rs → rows_with l rs = [(l, r)].
Proof.
  unfold rows_with. induction rs as [|[l' r'] rs IH]; intros Hnd Hin.
  - by apply elem_of_nil in Hin.
  - rewrite fmap_cons in Hnd. apply NoDup_cons in Hnd as [Hnotin Hnd].
    apply elem_of_cons in Hin as [Heq|Hin].
    + injection Heq as <- <-. rewrite filter_cons_True by done.
      f_equal. apply filter_none, Forall_forall. intros [l2 r2] Hin2 Heq.
      simpl in Heq. subst l2. apply Hnotin.
      apply list_elem_of_fmap. by exists (l, r2).
    + rewrite filter_cons_False; [by apply IH|].
      simpl. intros ->. apply Hnotin. apply list_elem_of_fmap. by exists (l, r).
Qed.

Lemma loc_labels (df : DataFrame) (labels : list Z) :
  NoDup (index df) → labels ⊆ index df →
  ∃ t, loc df labels = Some t ∧ index t = labels ∧ columns t = columns df.
Proof.
  intros Hnd Hsub. unfold loc.
  assert (∃ rs, mapM (λ l, match rows_with l (rows df) with
                           | [] => None | m => Some m end) labels = Some rs
                ∧ (concat rs).*1 = labels) as (rs & -> & Hrs).
  { induction labels as [|l labels IH].
    - by exists [].
    - destruct IH as (rs & Hm & Hrs); [set_solver|].
      assert (l ∈ index df) as Hl by set_solver.
      apply list_elem_of_fmap in Hl as ([l' r] & -> & Hin).
      exists ([(l', r)] :: rs). split.
      + cbn. rewrite (rows_with_unique _ _ r) by done. cbn.
        by rewrite Hm.
      + cbn. by rewrite Hrs. }
  eexists. split; [done|]. by split.
Qed.

Lemma read_file_index_unique cols data : NoDup (index (read_file cols data)).
Proof.
  unfold index, read_file. simpl.
  rewrite fst_zip by (rewrite length_seqZ; lia). apply NoDup_seqZ.
Qed.

Lemma fmap_sublist {A B} (f : A → B) (l k : list A) :
  sublist l k → sublist (f <$> l) (f <$> k).
Proof. induction 1; simpl; by constructor. Qed.

Lemma filter_index_sublist {A} (P : Z * A → Prop) `{!∀ x, Decision (P x)}
    (rs : list (Z * A)) :
  sublist (filter P rs).*1 rs.*1.
Proof. apply fmap_sublist, sublist_filter. Qed.

Lemma mask_rows_sublist {A} (mask : list bool) (rs : list A) :
  sublist (mask_rows mask rs) rs.
Proof.
  revert rs. induction mask as [|[] mask IH]; intros [|r rs]; simpl;
    try apply sublist_nil_l; constructor; apply IH.
Qed.

Lemma dropna_subset_index df subset t :
  dropna_subset df subset = Some t →
  sublist (index t) (index df) ∧ columns t = columns df.
Proof.
  unfold dropna_subset. intros H. apply bind_Some in H as (ps & _ & [= <-]).
  split; [apply filter_index_sublist | done].
Qed.

Lemma setitem_index df name vals :
  length vals = length (rows df) → index (setitem df name vals) = index df.
Proof.
  unfold setitem, index. intros Hlen.
  destruct (col_pos name (columns df)); simpl;
    revert vals Hlen; induction (rows df) as [|ir rs IH]; intros [|v vals] Hlen;
    simpl in *; try done; f_equal; apply IH; lia.
Qed.

Lemma add_dummies_index dt counties : ∀ df t,
  add_dummies dt df counties = Some t → index t = index df.
Proof.
  induction counties as [|c cs IH]; intros df t H; simpl in H.
  - by injection H as <-.
  - apply bind_Some in H as (t1 & H1 & H2).
    rewrite (IH _ _ H2). unfold add_dummy in H1.
    apply bind_Some in H1 as (col & Hcol & [= <-]).
    apply setitem_index. unfold dummy_values. rewrite !length_fmap.
    unfold getitem_col in Hcol. apply bind_Some in Hcol as (p & _ & [= <-]).
    by rewrite length_fmap.
Qed.

Lemma getitem_col_index df name s :
  getitem_col df name = Some s → s_index s = index df.
Proof.
  unfold getitem_col. intros H. apply bind_Some in H as (p & _ & [= <-]).
  unfold s_index, index. by rewrite <- list_fmap_compose.
Qed.

Lemma getitem_cols_index df names t :
  getitem_cols df names = Some t → index t = index df.
Proof.
  unfold getitem_cols. intros H. apply bind_Some in H as (p & _ & [= <-]).
  unfold index. simpl. by rewrite <- list_fmap_compose.
Qed.

Lemma col_pos_Some name cols : name ∈ cols → is_Some (col_pos name cols).
Proof.
  induction cols as [|c cs IH]; intros Hin; [by apply elem_of_nil in Hin|].
  simpl. case_decide; [done|].
  apply elem_of_cons in Hin as [->|Hin]; [done|].
  destruct (IH Hin) as [p ->]. done.
Qed.

Lemma col_pos_elem name cols p : col_pos name cols = Some p → name ∈ cols.
Proof.
  revert p. induction cols as [|c cs IH]; intros p H; [done|].
  simpl in H. case_decide; [subst; left|].
  apply fmap_Some in H as (q & Hq & _). right. eauto.
Qed.

(** The response taken at the labels of a design matrix carries exactly
    these labels, as soon as the frame's index has no duplicate and holds
    the response column. *)
Lemma response_aligned tracts X_index :
  NoDup (index tracts) → response ∈ columns tracts →
  sublist X_index (index tracts) →
  (∃ y, response_vector tracts X_index = Some y ∧ s_index y = X_index) ∧
  (∃ Y, response_matrix tracts X_index = Some Y ∧ index Y = X_index) ∧
  (∃ T, weights_frame tracts X_index = Some T ∧ index T = X_index).
Proof.
  intros Hnd Hresp Hsub.
  destruct (loc_labels tracts X_index Hnd) as (t & Hloc & Hidx & Hcols).
  { intros l Hl. by eapply elem_of_sublist. }
  unfold response_vector, response_matrix, weights_frame. rewrite Hloc. cbn.
  rewrite <- Hcols in Hresp. destruct (col_pos_Some _ _ Hresp) as [p Hp].
  repeat split.
  - unfold getitem_col. rewrite Hp. cbn. eexists. split; [done|].
    unfold s_index. rewrite <- list_fmap_compose. exact Hidx.
  - unfold getitem_cols. cbn. rewrite Hp. cbn. eexists. split; [done|].
    unfold index. simpl. rewrite <- list_fmap_compose. exact Hidx.
  - eauto.
Qed.

Lemma setitem_columns df name vals c :
  c ∈ columns df → c ∈ columns (setitem df name vals).
Proof.
  unfold setitem. destruct (col_pos name (columns df)); simpl; [done|].
  intros ?. apply elem_of_app. by left.
Qed.

Lemma add_dummies_columns dt counties : ∀ df t c,
  add_dummies dt df counties = Some t → c ∈ columns df → c ∈ columns t.
Proof.
  induction counties as [|k ks IH]; intros df t c H Hc; simpl in H.
  - by injection H as <-.
  - apply bind_Some in H as (t1 & H1 & H2). eapply IH; [done|].
    unfold add_dummy in H1. apply bind_Some in H1 as (col & _ & [= <-]).
    by apply setitem_columns.
Qed.

(** What the cells before any design-matrix cell establish for [tracts]:
    unique row labels and a response column. *)
Lemma tracts_invariant dt cols data tracts0 tracts :
  load_tracts cols data = Some tracts0 →
  tracts = tracts0 ∨ add_county_dummies dt tracts0 = Some tracts →
  NoDup (index tracts) ∧ response ∈ columns tracts.
Proof.
  intros Hload Hdum.
  assert (NoDup (index tracts0) ∧ response ∈ columns tracts0) as [Hnd Hresp].
  { unfold load_tracts in Hload.
    destruct (dropna_subset_index _ _ _ Hload) as [Hsub Hcols]. split.
    - eapply sublist_NoDup; [apply read_file_index_unique | done].
    - unfold dropna_subset in Hload. apply bind_Some in Hload as (ps & Hps & _).
      cbn in Hps. destruct (col_pos response cols) as [p|] eqn:Hp; [|done].
      rewrite Hcols. simpl. by eapply col_pos_elem. }
  destruct Hdum as [->|Hdum]; [done|].
  unfold add_county_dummies in Hdum. apply bind_Some in Hdum as (col & _ & Hdum).
  split.
  - by rewrite (add_dummies_index _ _ _ _ Hdum).
  - by eapply add_dummies_columns.
Qed.

(** C3.  For the frame [tracts] as the notebook has it at any of its
    design-matrix cells (loaded and stripped of null responses, with or
    without the county dummy columns), and for each of the three ways a
    predictor frame X is formed (one column, a list of columns, a list of
    columns under a row mask), the response vector y, the response matrix Y
    and the frame given to the spatial weights are built and carry exactly
    the index of X. *)
Theorem design_response_rows_aligned dt cols data tracts0 tracts :
  load_tracts cols data = Some tracts0 →
  tracts = tracts0 ∨ add_county_dummies dt tracts0 = Some tracts →
  (∀ p X, design_series tracts p = Some X →
     ∃ y, response_vector tracts (s_index X) = Some y ∧ s_index y = s_index X) ∧
  (∀ ps X, design tracts ps = Some X →
     (∃ y, response_vector tracts (index X) = Some y ∧ s_index y = index X) ∧
     (∃ Y, response_matrix tracts (index X) = Some Y ∧ index Y = index X) ∧
     (∃ T, weights_frame tracts (index X) = Some T ∧ index T = index X)) ∧
  (∀ mask ps X, design_regimes tracts mask ps = Some X →
     ∃ Y, response_matrix tracts (index X) = Some Y ∧ index Y = index X).
Proof.
  intros Hload Hdum.
  destruct (tracts_invariant _ _ _ _ _ Hload Hdum) as [Hnd Hresp].
  split; [|split].
  - intros p X HX. apply (response_aligned tracts (s_index X) Hnd Hresp).
    unfold design_series in HX. apply fmap_Some in HX as (s & Hs & ->).
    rewrite <- (getitem_col_index _ _ _ Hs). apply filter_index_sublist.
  - intros ps X HX. apply (response_aligned tracts (index X) Hnd Hresp).
    unfold design in HX. apply fmap_Some in HX as (t & Ht & ->).
    rewrite <- (getitem_cols_index _ _ _ Ht). apply filter_index_sublist.
  - intros mask ps X HX.
    apply (response_aligned tracts (index X) Hnd Hresp).
    unfold design_regimes in HX. apply fmap_Some in HX as (t & Ht & ->).
    unfold loc_mask_cols in Ht. case_decide; [|done].
    apply bind_Some in Ht as (sel & Hsel & [= <-]).
    rewrite <- (getitem_cols_index _ _ _ Hsel).
    etrans; [apply filter_index_sublist|]. simpl.
    apply fmap_sublist, mask_rows_sublist.
Qed.

End Alignment.

(** ** Rounding to the nearest binary64 *)

Section Float64Facts.
Import Float64.

Lemma rne_close (y : Q) : (Qabs (inject_Z (rne y) - y) <= 1 # 2)%Q.
Proof.
  unfold rne. set (f := Qfloor y).
  assert (inject_Z f <= y)%Q as Hlo by apply Qfloor_le.
  assert (y < inject_Z f + 1)%Q as Hhi.
  { pose proof (Qlt_floor y) as H. rewrite inject_Z_plus in H. exact H. }
  apply Qabs_Qle_condition.
  destruct (Qcompare_spec (y - inject_Z f) (1 # 2)) as [Heq|Hlt|Hgt].
  - destruct (Z.even f); rewrite ?inject_Z_plus; change (inject_Z 1) with 1%Q;
      split; lra.
  - split; lra.
  - rewrite inject_Z_plus. change (inject_Z 1) with 1%Q. split; lra.
Qed.

(** Half-way between two integers it is the even one. *)
Lemma rne_tie (y : Q) :
  (Qabs (inject_Z (rne y) - y) == 1 # 2)%Q → Z.even (rne y) = true.
Proof.
  unfold rne. set (f := Qfloor y).
  assert (inject_Z f <= y)%Q as Hlo by apply Qfloor_le.
  assert (y < inject_Z f + 1)%Q as Hhi.
  { pose proof (Qlt_floor y) as H. rewrite inject_Z_plus in H. exact H. }
  destruct (Qcompare_spec (y - inject_Z f) (1 # 2)) as [Heq|Hlt|Hgt].
  - intros _. destruct (Z.even f) eqn:He; [done|].
    rewrite Z.even_add. by rewrite He.
  - intros H. exfalso.
    assert (Qabs (inject_Z f - y) == y - inject_Z f)%Q as Habs.
    { rewrite <- Qabs_opp.
      assert (- (inject_Z f - y) == y - inject_Z f)%Q as -> by ring.
      apply Qabs_pos. lra. }
    lra.
  - intros H. exfalso. rewrite inject_Z_plus in H. change (inject_Z 1) with 1%Q in H.
    assert (Qabs (inject_Z f + 1 - y) == inject_Z f + 1 - y)%Q as Habs
      by (apply Qabs_pos; lra).
    lra.
Qed.

Lemma rne_proper (y y' : Q) : (y == y')%Q → rne y = rne y'.
Proof.
  intros H. unfold rne. rewrite (Qfloor_comp _ _ H).
  assert ((y - inject_Z (Qfloor y') ?= 1 # 2)%Q = (y' - inject_Z (Qfloor y') ?= 1 # 2)%Q)
    as -> by (by rewrite H).
  done.
Qed.

Lemma rne_int (z : Z) : rne (inject_Z z) = z.
Proof.
  unfold rne. rewrite Qfloor_Z.
  assert ((inject_Z z - inject_Z z ?= 1 # 2)%Q = Lt) as ->; [|done].
  apply Qlt_alt.
  assert (inject_Z z - inject_Z z == 0)%Q as -> by ring. done.
Qed.

Lemma pow2_pos (k : Z) : (0 < pow2 k)%Q.
Proof.
  unfold pow2. destruct (0 <=? k) eqn:Hk.
  - apply Z.leb_le in Hk. rewrite <- (Zlt_Qlt 0). by apply Z.pow_pos_nonneg.
  - done.
Qed.

Lemma pow2_nonpos (e : Z) : e ≤ 0 → (pow2 e == / inject_Z (2 ^ (- e)))%Q.
Proof.
  intros He. unfold pow2. destruct (0 <=? e) eqn:Hk.
  - apply Z.leb_le in Hk. assert (e = 0) as -> by lia. done.
  - assert (0 < 2 ^ (- e)) as Hpos by (apply Z.pow_pos_nonneg; lia).
    destruct (2 ^ (- e)) as [|p|p] eqn:Hp; try lia. simpl. done.
Qed.

Lemma pow2_le_neg (e k : Z) : e ≤ - k → 0 ≤ k → (pow2 e <= 1 # Z.to_pos (2 ^ k))%Q.
Proof.
  intros He Hk. rewrite (pow2_nonpos e) by lia.
  assert (0 < 2 ^ k) as Hk2 by (by apply Z.pow_pos_nonneg).
  assert (2 ^ k ≤ 2 ^ (- e)) as Hle by (apply Z.pow_le_mono_r; lia).
  destruct (2 ^ k) as [|p|p] eqn:Hp; try lia.
  destruct (2 ^ (- e)) as [|p'|p'] eqn:Hp'; try lia.
  unfold Qle. simpl. lia.
Qed.

Lemma nearest_proper (q q' : Q) : (q == q')%Q → nearest q = nearest q'.
Proof. intros H. unfold nearest. by rewrite (Qred_complete _ _ H). Qed.

Lemma nearest_zero (q : Q) : (q == 0)%Q → nearest q = 0%Q.
Proof. intros H. by rewrite (nearest_proper _ _ H). Qed.

(** The nearest binary64 is at most half a unit of the last place away. *)
Lemma nearest_close (q : Q) :
  (Qabs (nearest q - q) <= (1 # 2) * pow2 (ulp_exp (Qred q)))%Q.
Proof.
  pose proof (pow2_pos (ulp_exp (Qred q))) as Hpos.
  unfold nearest. cbv zeta. destruct (Qeq_bool (Qred q) 0) eqn:H0.
  - apply Qeq_bool_eq in H0. rewrite Qred_correct in H0.
    apply Qabs_Qle_condition. split; lra.
  - set (e := ulp_exp (Qred q)) in *. rewrite Qred_correct.
    pose proof (rne_close (Qred q / pow2 e)) as Hc.
    apply Qabs_Qle_condition in Hc as [Hc1 Hc2].
    assert (Qred q / pow2 e * pow2 e == q)%Q as Hq.
    { rewrite Qred_correct. field. lra. }
    set (y := (Qred q / pow2 e)%Q) in *.
    apply Qabs_Qle_condition. rewrite <- Hq. split; nra.
Qed.

Lemma ilog2_le_0 (q : Q) : (0 < q)%Q → (q <= 1)%Q → ilog2 (Qred q) ≤ 0.
Proof.
  intros Hpos Hle. rewrite <- (Qred_correct q) in Hpos, Hle.
  unfold ilog2. cbv zeta.
  destruct (Qred q) as [n d]. unfold Qlt, Qle in Hpos, Hle.
  simpl in Hpos, Hle. cbn [Qnum Qden].
  assert (Z.log2 (Z.abs n) ≤ Z.log2 (Z.pos d)) by (apply Z.log2_le_mono; lia).
  destruct (Qle_bool _ _); lia.
Qed.

Lemma nearest_close_unit (q : Q) :
  (0 < q)%Q → (q <= 1)%Q → (Qabs (nearest q - q) <= 1 # 2 ^ 53)%Q.
Proof.
  intros Hpos Hle. eapply Qle_trans; [apply nearest_close|].
  assert (ulp_exp (Qred q) ≤ - 52) as He.
  { unfold ulp_exp. pose proof (ilog2_le_0 q Hpos Hle). lia. }
  pose proof (pow2_le_neg _ 52 He ltac:(lia)) as H.
  change (Z.to_pos (2 ^ 52)) with (2 ^ 52)%positive in H.
  assert ((1 # 2 ^ 53) == (1 # 2) * (1 # 2 ^ 52))%Q as -> by done.
  pose proof (pow2_pos (ulp_exp (Qred q))). nra.
Qed.

Lemma Qred_inject_Z (z : Z) : Qred (inject_Z z) = inject_Z z.
Proof.
  unfold Qred, inject_Z.
  pose proof (Z.ggcd_gcd z 1) as Hg. pose proof (Z.ggcd_correct_divisors z 1) as Hd.
  destruct (Z.ggcd z 1) as (g & aa & bb). simpl in Hg.
  rewrite Z.gcd_1_r in Hg. subst g. destruct Hd as [Ha Hb].
  assert (aa = z) as -> by lia. assert (bb = 1) as -> by lia. done.
Qed.

(** Integers below [2^53] are binary64 values. *)
Lemma nearest_int (z : Z) : 0 < z < 2 ^ 53 → nearest (inject_Z z) = inject_Z z.
Proof.
  intros Hz.
  pose proof (Qred_inject_Z z) as Hred.
  unfold nearest. cbv zeta. rewrite Hred.
  assert (Qeq_bool (inject_Z z) 0 = false) as ->.
  { apply not_true_is_false. intros H%Qeq_bool_iff.
    unfold Qeq in H. simpl in H. lia. }
  set (k := Z.log2 z).
  assert (0 ≤ k < 53) as Hk.
  { split; [apply Z.log2_nonneg|]. apply Z.log2_lt_pow2; lia. }
  assert (2 ^ k ≤ z) as Hlow by (apply Z.log2_spec; lia).
  assert (ilog2 (inject_Z z) = k) as Hlog.
  { unfold ilog2. cbv zeta. simpl Qnum. simpl Qden.
    rewrite Z.abs_eq by lia. change (Z.log2 1) with 0. rewrite Z.sub_0_r.
    fold k. assert (Qle_bool (pow2 k) (Qabs (inject_Z z)) = true) as ->; [|done].
    apply Qle_bool_iff. rewrite Qabs_pos by (rewrite <- (Zle_Qle 0); lia).
    unfold pow2. rewrite (proj2 (Z.leb_le 0 k)) by lia.
    by rewrite <- Zle_Qle. }
  assert (ulp_exp (inject_Z z) = k - 52) as -> by (unfold ulp_exp; lia).
  set (e := k - 52). assert (e ≤ 0) as He by lia.
  assert (0 < 2 ^ (- e)) as Hpow by (apply Z.pow_pos_nonneg; lia).
  assert (inject_Z z / pow2 e == inject_Z (z * 2 ^ (- e)))%Q as Hdiv.
  { rewrite (pow2_nonpos e He), inject_Z_mult. field.
    intros H. unfold Qeq in H. simpl in H. lia. }
  rewrite (rne_proper _ _ Hdiv), rne_int.
  trans (Qred (inject_Z z)); [|exact Hred]. apply Qred_complete.
  rewrite (pow2_nonpos e He), inject_Z_mult. field.
  intros H. unfold Qeq in H. simpl in H. lia.
Qed.

End Float64Facts.

(** ** Weekday / weekend partition and hourly shares (module 04) *)

Section HourlyShares.
Import Pandas Module04 Charts.

Lemma mask_rows_partition {A} (mask : list bool) (rs : list A) :
  length mask = length rs →
  mask_rows (negb <$> mask) rs ++ mask_rows mask rs ≡ₚ rs.
Proof.
  revert rs. induction mask as [|b mask IH]; intros [|r rs] Hlen; simpl in *;
    try done.
  destruct b; simpl.
  - rewrite <- Permutation_middle. constructor. apply IH. lia.
  - constructor. apply IH. lia.
Qed.

Lemma mask_rows_fmap_elem {A} (f : A → bool) (rs : list A) x :
  x ∈ mask_rows (f <$> rs) rs ↔ x ∈ rs ∧ f x = true.
Proof.
  induction rs as [|r rs IH]; simpl.
  - split; [by intros ?%elem_of_nil | by intros [?%elem_of_nil _]].
  - destruct (f r) eqn:Hr; rewrite ?elem_of_cons, IH.
    + split; [intros [->|[? ?]]; auto | intros [[->|?] ?]; auto].
    + split; [intros [? ?]; auto | intros [[->|?] ?]; [congruence | auto]].
Qed.

Lemma total_bump k acc : total (bump k acc) = total acc + 1.
Proof.
  unfold total. induction acc as [|[k' n] acc IH]; [done|].
  cbn [bump]. destruct (k <? k'); [|destruct (k =? k')];
    rewrite ?fmap_cons; cbn [foldr snd]; rewrite ?IH; lia.
Qed.

Lemma total_groupby_size keys : total (groupby_size keys) = Z.of_nat (length keys).
Proof.
  induction keys as [|k keys IH]; [done|].
  simpl groupby_size. rewrite total_bump, IH. simpl length. lia.
Qed.

Lemma Qsum_div (ns : list Z) (t : Z) :
  (Qsum ((λ n, inject_Z n / inject_Z t) <$> ns) == inject_Z (foldr Z.add 0%Z ns) / inject_Z t)%Q.
Proof.
  induction ns as [|n ns IH]; simpl.
  - unfold Qdiv. ring.
  - rewrite IH, inject_Z_plus. unfold Qdiv. ring.
Qed.

Lemma is_weekend_spec t :
  is_weekend t = true ↔ ∃ s, t = Some s ∧ (weekday s = 5 ∨ weekday s = 6).
Proof.
  destruct t as [s|]; simpl.
  - rewrite orb_true_iff, !Z.eqb_eq. split; [eauto|].
    by intros (s' & [= <-] & H).
  - split; [done|]. by intros (s & ? & _).
Qed.

Lemma count_of_bump_same k acc : count_of k (bump k acc) = count_of k acc + 1.
Proof.
  induction acc as [|[k' n] acc IH]; simpl.
  - rewrite Z.eqb_refl. lia.
  - destruct (k <? k') eqn:Hlt; simpl.
    + rewrite Z.eqb_refl. destruct (k' =? k); lia.
    + destruct (k =? k') eqn:Heq; simpl.
      * apply Z.eqb_eq in Heq as ->. rewrite Z.eqb_refl. lia.
      * rewrite Z.eqb_sym, Heq. exact IH.
Qed.

Lemma count_of_bump_other k k0 acc :
  k ≠ k0 → count_of k (bump k0 acc) = count_of k acc.
Proof.
  intros Hne. induction acc as [|[k' n] acc IH]; simpl.
  - by rewrite (proj2 (Z.eqb_neq k0 k)).
  - destruct (k0 <? k') eqn:Hlt; simpl.
    + by rewrite (proj2 (Z.eqb_neq k0 k)).
    + destruct (k0 =? k') eqn:Heq; simpl.
      * apply Z.eqb_eq in Heq as ->. by rewrite (proj2 (Z.eqb_neq k' k)).
      * by rewrite IH.
Qed.

Lemma count_of_groupby_size k keys :
  count_of k (groupby_size keys) = Z.of_nat (occurrences k keys).
Proof.
  unfold occurrences. induction keys as [|k0 keys IH]; [done|].
  simpl groupby_size. rewrite filter_cons. destruct (decide (k0 = k)) as [->|Hne].
  - rewrite count_of_bump_same, IH. simpl length. lia.
  - by rewrite count_of_bump_other.
Qed.

Lemma bump_keys k acc x : x ∈ (bump k acc).*1 → x = k ∨ x ∈ acc.*1.
Proof.
  induction acc as [|[k' n] acc IH]; simpl.
  - intros ?%list_elem_of_singleton. by left.
  - destruct (k <? k'); [|destruct (k =? k')]; simpl; rewrite !elem_of_cons;
      intuition.
Qed.

Lemma bump_sorted k acc :
  StronglySorted Z.lt acc.*1 → StronglySorted Z.lt (bump k acc).*1.
Proof.
  induction acc as [|[k' n] acc IH]; intros Hs; simpl.
  - repeat constructor.
  - rewrite fmap_cons in Hs. apply StronglySorted_inv in Hs as [Hs Hall].
    destruct (k <? k') eqn:Hlt; [|destruct (k =? k') eqn:Heq]; simpl.
    + apply Z.ltb_lt in Hlt. constructor; [by constructor|].
      constructor; [done|]. eapply Forall_impl; [done|]. simpl. lia.
    + by constructor.
    + apply Z.ltb_ge in Hlt. apply Z.eqb_neq in Heq.
      constructor; [by apply IH|]. apply Forall_forall. intros x Hx.
      apply bump_keys in Hx as [->|Hx]; [lia|].
      by eapply Forall_forall in Hall.
Qed.

Lemma bump_positive k acc :
  Forall (λ kn, 0 < kn.2) acc → Forall (λ kn, 0 < kn.2) (bump k acc).
Proof.
  induction 1 as [|[k' n] acc Hn Hacc IH]; simpl.
  - by repeat constructor.
  - destruct (k <? k'); [|destruct (k =? k')]; repeat constructor;
      simpl in *; try done; lia.
Qed.

Lemma groupby_size_sorted keys : StronglySorted Z.lt (groupby_size keys).*1.
Proof.
  induction keys as [|k keys IH]; [constructor|]. by apply bump_sorted.
Qed.

Lemma groupby_size_positive keys : Forall (λ kn, 0 < kn.2) (groupby_size keys).
Proof.
  induction keys as [|k keys IH]; [constructor|]. by apply bump_positive.
Qed.

Lemma count_of_absent k (acc : list (Z * Z)) : k ∉ acc.*1 → count_of k acc = 0.
Proof.
  induction acc as [|[k' n] acc IH]; [done|]. rewrite fmap_cons.
  intros [Hne Hk]%not_elem_of_cons. simpl in *.
  rewrite (proj2 (Z.eqb_neq k' k)) by done. by apply IH.
Qed.

Lemma count_of_elem k n (acc : list (Z * Z)) :
  StronglySorted Z.lt acc.*1 → (k, n) ∈ acc → count_of k acc = n.
Proof.
  induction acc as [|[k' n'] acc IH]; intros Hs Hin; [by apply elem_of_nil in Hin|].
  rewrite fmap_cons in Hs. apply StronglySorted_inv in Hs as [Hs Hall].
  apply elem_of_cons in Hin as [[= <- <-]|Hin]; simpl.
  - rewrite Z.eqb_refl, count_of_absent; [lia|].
    intros Hk. eapply Forall_forall in Hall; [|done]. simpl in Hall. lia.
  - assert (k' ≠ k) as Hne.
    { intros ->. eapply Forall_forall in Hall;
        [|apply list_elem_of_fmap; by exists (k, n)]. simpl in Hall. lia. }
    rewrite (proj2 (Z.eqb_neq k' k)) by done. by apply IH.
Qed.

Lemma count_of_present k (acc : list (Z * Z)) :
  count_of k acc ≠ 0 → Forall (λ kn, 0 < kn.2) acc →
  StronglySorted Z.lt acc.*1 → (k, count_of k acc) ∈ acc.
Proof.
  intros Hne Hpos Hs.
  destruct (decide (k ∈ acc.*1)) as [Hin|Hnot].
  - apply list_elem_of_fmap in Hin as ([k' n] & -> & Hin). simpl.
    by rewrite (count_of_elem _ n).
  - by rewrite count_of_absent in Hne.
Qed.

(** [groupby(keys).size()] lists the distinct keys in increasing order, each
    with its number of occurrences. *)
Lemma groupby_size_spec keys k n :
  (k, n) ∈ groupby_size keys ↔ n = Z.of_nat (occurrences k keys) ∧ 0 < n.
Proof.
  split.
  - intros Hin. split.
    + rewrite <- count_of_groupby_size. symmetry.
      apply count_of_elem; [apply groupby_size_sorted|done].
    + pose proof (groupby_size_positive keys) as Hpos.
      rewrite Forall_forall in Hpos. by apply (Hpos (k, n)).
  - intros [-> Hpos]. rewrite <- count_of_groupby_size in *.
    apply count_of_present; [lia|apply groupby_size_positive|apply groupby_size_sorted].
Qed.

Lemma hour_range t : 0 ≤ hour t < 24.
Proof.
  unfold hour. pose proof (Z.mod_pos_bound t 86400 ltac:(lia)) as H.
  split; [apply Z.div_pos; lia|]. apply Z.div_lt_upper_bound; lia.
Qed.

Lemma hours_cons (t : option Z) r (sub : list record) :
  hours ((t, r) :: sub)
  = match t with Some t => hour t :: hours sub | None => hours sub end.
Proof. by destruct t. Qed.

Lemma length_hours (sub : list record) : Z.of_nat (length (hours sub)) = dated sub.
Proof.
  unfold dated. f_equal. induction sub as [|[t r] sub IH]; [done|].
  rewrite hours_cons, filter_cons.
  destruct t as [t|]; destruct (decide _) as [Hs|Hs].
  - simpl. f_equal. exact IH.
  - exfalso. apply Hs. simpl. eauto.
  - by destruct Hs.
  - exact IH.
Qed.

Lemma total_hourly_counts (sub : list record) :
  total (hourly_counts sub) = dated sub.
Proof. unfold hourly_counts. by rewrite total_groupby_size, length_hours. Qed.

Lemma occurrences_hours h (sub : list record) :
  occurrences h (hours sub) = count_hour h sub.
Proof.
  unfold occurrences, count_hour.
  induction sub as [|[t r] sub IH]; [done|].
  rewrite hours_cons, (filter_cons (λ r : record, hour <$> r.1 = Some h)).
  destruct t as [t|].
  - rewrite filter_cons.
    destruct (decide (hour t = h)) as [Heq|Hne]; destruct (decide _) as [Hs|Hs].
    + simpl. f_equal. exact IH.
    + exfalso. apply Hs. simpl. by rewrite Heq.
    + simpl in Hs. injection Hs as Hs. done.
    + exact IH.
  - destruct (decide _) as [Hs|Hs]; [done|]. exact IH.
Qed.

Lemma count_hour_positive h (sub : list record) :
  (0 < count_hour h sub)%nat ↔ ∃ r t, r ∈ sub ∧ r.1 = Some t ∧ hour t = h.
Proof.
  unfold count_hour. split.
  - intros Hpos. destruct (filter _ sub) as [|r l] eqn:Hf; [simpl in Hpos; lia|].
    assert (r ∈ filter (λ r, hour <$> r.1 = Some h) sub) as Hr by (rewrite Hf; left).
    apply list_elem_of_filter in Hr as [Hh Hr].
    apply fmap_Some in Hh as (t & Ht & ->). eauto.
  - intros (r & t & Hr & Ht & Hh).
    assert (r ∈ filter (λ r, hour <$> r.1 = Some h) sub) as Hin.
    { apply list_elem_of_filter. split; [|done]. by rewrite Ht, <- Hh. }
    destruct (filter _ sub); [by apply elem_of_nil in Hin|simpl; lia].
Qed.

Lemma count_hour_le h (sub : list record) : Z.of_nat (count_hour h sub) ≤ dated sub.
Proof.
  unfold count_hour, dated. apply inj_le.
  induction sub as [|[t r] sub IH]; [done|].
  rewrite !filter_cons.
  destruct t as [t|].
  - rewrite (decide_True (P := is_Some (Some t, r).1)) by (simpl; eauto).
    destruct (decide _); cbn [length];
      [apply le_n_S; exact IH | apply Nat.le_le_succ_r; exact IH].
  - rewrite (decide_False (P := hour <$> (None, r).1 = Some h)) by done.
    destruct (decide _) as [[? ?]|?]; [done|]. exact IH.
Qed.

(** The entries of an hourly-share series. *)
Lemma hourly_share_spec (sub : list record) h q :
  (h, q) ∈ hourly_share sub ↔
  (∃ r t, r ∈ sub ∧ r.1 = Some t ∧ hour t = h) ∧
  q = Float64.div (Float64.of_int (Z.of_nat (count_hour h sub)))
                  (Float64.of_int (dated sub)).
Proof.
  unfold hourly_share. cbv zeta. rewrite total_hourly_counts.
  unfold hourly_counts. rewrite list_elem_of_fmap. split.
  - intros ([h' n] & [= -> ->] & Hin). simpl.
    apply groupby_size_spec in Hin as [-> Hpos].
    rewrite occurrences_hours in *. split; [|done].
    apply count_hour_positive. lia.
  - intros [Hex ->]. exists (h, Z.of_nat (count_hour h sub)). split; [done|].
    apply groupby_size_spec. rewrite occurrences_hours. split; [done|].
    apply count_hour_positive in Hex. lia.
Qed.

(** A share is the float nearest to the exact quotient. *)
Lemma share_close (c N : Z) :
  0 < c ≤ N → N < 2 ^ 53 →
  (Qabs (Float64.div (Float64.of_int c) (Float64.of_int N)
         - inject_Z c / inject_Z N) <= 1 # 2 ^ 53)%Q.
Proof.
  intros Hc HN. unfold Float64.div, Float64.of_int.
  rewrite !nearest_int by lia.
  assert (0 < inject_Z N)%Q by (rewrite <- (Zlt_Qlt 0); lia).
  apply nearest_close_unit.
  - apply Qlt_shift_div_l; [done|]. rewrite Qmult_0_l, <- (Zlt_Qlt 0). lia.
  - apply Qle_shift_div_r; [done|]. rewrite Qmult_1_l, <- Zle_Qle. lia.
Qed.

Lemma share_bounds (c N : Z) :
  0 < c ≤ N → N < 2 ^ 53 →
  (0 < Float64.div (Float64.of_int c) (Float64.of_int N))%Q ∧
  (Float64.div (Float64.of_int c) (Float64.of_int N) <= 1)%Q.
Proof.
  intros Hc HN. pose proof (share_close c N Hc HN) as Hclose.
  apply Qabs_Qle_condition in Hclose as [Hlo Hhi].
  assert (0 < inject_Z N)%Q as HNpos by (rewrite <- (Zlt_Qlt 0); lia).
  assert (1 # 2 ^ 53 < 1 / inject_Z N)%Q as Hsmall.
  { apply Qlt_shift_div_l; [done|].
    assert (inject_Z N < inject_Z (2 ^ 53))%Q as H by (rewrite <- Zlt_Qlt; lia).
    change (inject_Z (2 ^ 53)) with (9007199254740992 # 1)%Q in H.
    change (1 # 2 ^ 53)%Q with (1 # 9007199254740992)%Q. lra. }
  assert (inject_Z c / inject_Z N == inject_Z c * (1 / inject_Z N))%Q as Hq
    by (field; lra).
  assert (1 <= inject_Z c)%Q as Hc1 by (rewrite <- (Zle_Qle 1); lia).
  assert (0 < 1 / inject_Z N)%Q as Hinv.
  { apply Qlt_shift_div_l; [done|]. lra. }
  split.
  - rewrite Hq in Hlo. nra.
  - destruct (decide (c = N)) as [->|Hne].
    + unfold Float64.div, Float64.of_int. rewrite !nearest_int by lia.
      assert (inject_Z N / inject_Z N == inject_Z 1)%Q as HNN by (field; lra).
      rewrite (nearest_proper _ _ HNN), nearest_int by lia. done.
    + assert (inject_Z c + 1 <= inject_Z N)%Q as Hc2.
      { assert (c + 1 ≤ N) as H by lia. rewrite Zle_Qle in H.
        rewrite inject_Z_plus in H. exact H. }
      assert (inject_Z N * (1 / inject_Z N) == 1)%Q as HN1 by (field; lra).
      rewrite Hq in Hhi. nra.
Qed.

Lemma Qsum_close {A} (f g : A → Q) (l : list A) (ε : Q) :
  (∀ x, x ∈ l → (Qabs (f x - g x) <= ε)%Q) →
  (Qabs (Qsum (f <$> l) - Qsum (g <$> l)) <= inject_Z (Z.of_nat (length l)) * ε)%Q.
Proof.
  induction l as [|x l IH]; intros H.
  - change (Qabs (0 - 0) <= 0 * ε)%Q. apply Qabs_Qle_condition. split; lra.
  - rewrite !fmap_cons. cbn [Qsum foldr length]. fold (Qsum (f <$> l)).
    fold (Qsum (g <$> l)). rewrite Nat2Z.inj_succ, <- Z.add_1_r, inject_Z_plus.
    change (inject_Z 1) with 1%Q.
    pose proof (H x ltac:(left)) as Hx. apply Qabs_Qle_condition in Hx as [? ?].
    assert (∀ y, y ∈ l → (Qabs (f y - g y) <= ε)%Q) as Hl
      by (intros y Hy; apply H; by right).
    apply IH in Hl. apply Qabs_Qle_condition in Hl as [? ?].
    apply Qabs_Qle_condition. split; lra.
Qed.

Lemma elem_le_total (counts : list (Z * Z)) kn :
  Forall (λ kn, 0 < kn.2) counts → kn ∈ counts → kn.2 ≤ total counts.
Proof.
  unfold total. induction 1 as [|kn' counts Hpos Hall IH]; intros Hin.
  - by apply elem_of_nil in Hin.
  - rewrite fmap_cons. cbn [foldr].
    assert (0 ≤ foldr Z.add 0 counts.*2) as Hnn.
    { clear -Hall. induction Hall as [|? ? ? ? IH']; [done|].
      rewrite fmap_cons. cbn [foldr]. lia. }
    apply elem_of_cons in Hin as [->|Hin]; [lia|]. specialize (IH Hin). lia.
Qed.

Lemma sorted_range_length (l : list Z) (a b : Z) :
  StronglySorted Z.lt l → Forall (λ k, a ≤ k < b) l →
  Z.of_nat (length l) ≤ Z.max 0 (b - a).
Proof.
  revert a. induction l as [|k l IH]; intros a Hs Hr; [simpl; lia|].
  apply StronglySorted_inv in Hs as [Hs Hk].
  apply Forall_cons in Hr as [Hka Hr].
  assert (Forall (λ k', k + 1 ≤ k' < b) l) as Hr'.
  { rewrite Forall_forall in Hk, Hr. apply Forall_forall. intros x Hx.
    specialize (Hk x Hx). specialize (Hr x Hx). lia. }
  specialize (IH (k + 1) Hs Hr'). simpl length. lia.
Qed.

Lemma hourly_share_sorted (sub : list record) :
  StronglySorted Z.lt (hourly_share sub).*1.
Proof.
  unfold hourly_share. cbv zeta. rewrite <- list_fmap_compose.
  apply groupby_size_sorted.
Qed.

Lemma hourly_share_hours (sub : list record) h q :
  (h, q) ∈ hourly_share sub → 0 ≤ h < 24.
Proof.
  intros [(r & t & _ & _ & <-) _]%hourly_share_spec. apply hour_range.
Qed.

Lemma hourly_share_length (sub : list record) :
  (length (hourly_share sub) ≤ 24)%nat.
Proof.
  pose proof (sorted_range_length (hourly_share sub).*1 0 24
                (hourly_share_sorted sub)) as H.
  rewrite length_fmap in H. apply Nat2Z.inj_le. etrans; [apply H|]; [|done].
  apply Forall_forall. intros h ([h' q] & -> & Hin)%list_elem_of_fmap.
  by eapply hourly_share_hours.
Qed.

(** The shares of a subset with a dated record sum to 1 up to the rounding
    of each division. *)
Lemma hourly_share_sum (sub : list record) :
  0 < dated sub < 2 ^ 53 →
  (Qabs (Qsum (hourly_share sub).*2 - 1) <= 24 # 2 ^ 53)%Q.
Proof.
  intros Hd. pose proof (hourly_share_length sub) as Hlen.
  unfold hourly_share in *. cbv zeta in *.
  rewrite total_hourly_counts in *. set (N := dated sub) in *.
  set (counts := hourly_counts sub) in *.
  assert (∀ (q : Z → Q) (l : list (Z * Z)),
            ((λ kn, (kn.1, q kn.2)) <$> l).*2 = (λ kn, q kn.2) <$> l) as Hsnd.
  { intros q l. by rewrite <- !list_fmap_compose. }
  rewrite (Hsnd (λ n, Float64.div (Float64.of_int n) (Float64.of_int N))).
  rewrite length_fmap in Hlen.
  assert (Qsum ((λ kn : Z * Z, inject_Z kn.2 / inject_Z N) <$> counts) == 1)%Q
    as Hexact.
  { assert ((λ kn : Z * Z, (inject_Z kn.2 / inject_Z N)%Q) <$> counts
            = (λ n, (inject_Z n / inject_Z N)%Q) <$> counts.*2) as ->
      by (by rewrite <- list_fmap_compose).
    rewrite Qsum_div. fold (total counts). subst counts.
    rewrite total_hourly_counts. fold N. field.
    intros H. unfold Qeq in H. simpl in H. lia. }
  pose proof (Qsum_close
                (λ kn : Z * Z, Float64.div (Float64.of_int kn.2) (Float64.of_int N))
                (λ kn : Z * Z, (inject_Z kn.2 / inject_Z N)%Q) counts (1 # 2 ^ 53))
    as Hsum.
  assert (inject_Z (Z.of_nat (length counts)) <= 24)%Q as Hl24.
  { change 24%Q with (inject_Z 24). rewrite <- Zle_Qle. lia. }
  assert (Forall (λ kn, 0 < kn.2) counts) as Hpos
    by apply groupby_size_positive.
  assert (Qabs (Qsum ((λ kn : Z * Z,
                          Float64.div (Float64.of_int kn.2) (Float64.of_int N))
                       <$> counts)
                - Qsum ((λ kn : Z * Z, (inject_Z kn.2 / inject_Z N)%Q) <$> counts))
          <= inject_Z (Z.of_nat (length counts)) * (1 # 2 ^ 53))%Q as Hclose.
  { apply Hsum. intros kn Hkn. apply share_close; [|lia]. split.
    - rewrite Forall_forall in Hpos. by apply Hpos.
    - subst N. rewrite <- total_hourly_counts. by apply elem_le_total. }
  apply Qabs_Qle_condition in Hclose as [Hlo Hhi].
  assert (inject_Z (Z.of_nat (length counts)) * (1 # 2 ^ 53)
          <= 24 * (1 # 2 ^ 53))%Q as Hmul
    by (by apply Qmult_le_compat_r).
  change (24 # 2 ^ 53)%Q with (24 * (1 # 2 ^ 53))%Q.
  apply Qabs_Qle_condition. rewrite Hexact in Hlo, Hhi. split; lra.
Qed.

(** C10, as the code has it.  The weekend mask and its complement split
    the GPS records: the two subsets together are the records (each one
    once); a record is a weekend record exactly when it has a date whose
    weekday is 5 or 6, and a weekday record otherwise -- also when its date
    is missing.  For each subset the hourly counts add up to the number of
    records that have a date, and the shares, each the float64 quotient of a
    count by that number, add up to 1 within 24 roundings of 2^-53 when the
    subset has a dated record. *)
Theorem weekend_partition_hourly_shares (dt : list record) :
  weekdays dt ++ weekends dt ≡ₚ dt ∧
  (∀ r, r ∈ weekends dt ↔
        r ∈ dt ∧ ∃ t, r.1 = Some t ∧ (weekday t = 5 ∨ weekday t = 6)) ∧
  (∀ r, r ∈ weekdays dt ↔
        r ∈ dt ∧ ¬ ∃ t, r.1 = Some t ∧ (weekday t = 5 ∨ weekday t = 6)) ∧
  (∀ sub, sub = weekdays dt ∨ sub = weekends dt →
     total (hourly_counts sub) = dated sub ∧
     (∀ h q, (h, q) ∈ hourly_share sub →
        ∃ n, (h, n) ∈ hourly_counts sub ∧
             q = Float64.div (Float64.of_int n) (Float64.of_int (dated sub))) ∧
     (0 < dated sub < 2 ^ 53 →
      (Qabs (Qsum (hourly_share sub).*2 - 1) <= 24 # 2 ^ 53)%Q)).
Proof.
  split; [|split; [|split]].
  - apply mask_rows_partition. unfold weekend_mask. by rewrite length_fmap.
  - intros r. unfold weekends, weekend_mask.
    by rewrite (mask_rows_fmap_elem (λ r, is_weekend r.1)), is_weekend_spec.
  - intros r. unfold weekdays, weekend_mask. rewrite <- list_fmap_compose.
    rewrite (mask_rows_fmap_elem (negb ∘ (λ r, is_weekend r.1))).
    simpl. rewrite negb_true_iff, <- is_weekend_spec.
    destruct (is_weekend r.1); intuition congruence.
  - intros sub _. split; [apply total_hourly_counts|]. split.
    + intros h q. unfold hourly_share. cbv zeta. rewrite total_hourly_counts.
      intros ([h' n] & [= -> ->] & Hin)%list_elem_of_fmap. by exists n.
    + apply hourly_share_sum.
Qed.

(** X4.  The hourly share series of cell 383 (module 04), for the weekday or
    the weekend subset: one entry per hour at which the subset has a record,
    hours increasing and between 0 and 23; the entry is the float64 quotient
    of the number of records of that hour by the number of records of the
    subset that have a date, a float above 0 and at most 1 (for fewer than
    2^53 records).  An hour without record has no entry (not a zero), and a
    record without date counts nowhere. *)
Theorem hourly_share_entries (sub : list record) :
  StronglySorted Z.lt (hourly_share sub).*1 ∧
  (∀ h q, (h, q) ∈ hourly_share sub ↔
          (∃ r t, r ∈ sub ∧ r.1 = Some t ∧ hour t = h) ∧
          q = Float64.div (Float64.of_int (Z.of_nat (count_hour h sub)))
                          (Float64.of_int (dated sub))) ∧
  (∀ h q, (h, q) ∈ hourly_share sub → 0 ≤ h < 24) ∧
  (dated sub < 2 ^ 53 →
   ∀ h q, (h, q) ∈ hourly_share sub → (0 < q)%Q ∧ (q <= 1)%Q).
Proof.
  split; [apply hourly_share_sorted|].
  split; [apply hourly_share_spec|].
  split; [apply hourly_share_hours|].
  intros Hd h q [Hex ->]%hourly_share_spec.
  apply share_bounds; [|done]. split.
  - apply count_hour_positive in Hex. lia.
  - apply count_hour_le.
Qed.

End HourlyShares.

(** ** Spatial join and spatial index (module 06) *)

Section SpatialJoinFacts.
Import Pandas Geo.
Context {L R : Type} (within : L → R → bool).

Lemma sjoin_left_length (left : list (Z * L)) (right : list (Z * R)) :
  length (sjoin_left within left right)
  = sum_list ((λ ig, copies within ig.2 right) <$> left).
Proof.
  unfold sjoin_left, copies. induction left as [|[i g] left IH]; [done|].
  rewrite bind_cons, length_app, IH, fmap_cons. cbn [sum_list sum_list_with].
  f_equal. cbn [fst snd].
  destruct (join_matches within g right) as [|j ms]; [done|].
  rewrite length_fmap. cbn [length id]. lia.
Qed.

(** C1, as the code has it.  The left join keeps every row of the left
    table, so the result has at least as many rows as the left table; it has
    no more rows than the left table exactly when no left geometry is within
    more than one right geometry. *)
Theorem sjoin_left_row_count (left : list (Z * L)) (right : list (Z * R)) :
  (length left ≤ length (sjoin_left within left right))%nat ∧
  ((length (sjoin_left within left right) ≤ length left)%nat ↔
   Forall (λ ig, (length (join_matches within ig.2 right) ≤ 1)%nat) left).
Proof.
  rewrite sjoin_left_length.
  induction left as [|[i g] left [IHge IHle]].
  - split; [done|]. split; [constructor | done].
  - rewrite fmap_cons, Forall_cons. cbn [sum_list sum_list_with length fst snd id].
    fold (sum_list ((λ ig, copies within ig.2 right) <$> left)).
    assert (1 ≤ copies within g right)%nat as H1 by (unfold copies; lia).
    split; [lia|]. rewrite <- IHle. unfold copies in *. split.
    + intros Hle. split; lia.
    + intros [Hg Hrest]. lia.
Qed.

End SpatialJoinFacts.

Section SpatialIndexFacts.
Import Pandas Geo.
Context {geom : Type}.
Variable intersects : geom → geom → bool.
Variable bounds : geom → box.
Variable rtree_intersection : list box → box → list nat.

Lemma mask_rows_filter {A} (f : A → bool) (l : list A) :
  mask_rows (f <$> l) l = filter (λ x, f x) l.
Proof.
  induction l as [|x l IH]; [done|].
  rewrite fmap_cons, filter_cons. cbn [mask_rows]. rewrite IH.
  by destruct (f x).
Qed.

Lemma omap_lookup_filter_seq {A} (P : A → bool) (l : list A) : ∀ pre,
  omap (λ i, (pre ++ l) !! i)
       (filter (λ i, from_option P false ((pre ++ l) !! i))
               (seq (length pre) (length l)))
  = filter (λ x, P x) l.
Proof.
  induction l as [|x l IH]; intros pre; [done|].
  cbn [length seq]. rewrite !filter_cons.
  assert ((pre ++ x :: l) !! length pre = Some x) as Hx.
  { by rewrite lookup_app_r, Nat.sub_diag by lia. }
  specialize (IH (pre ++ [x])). rewrite <- app_assoc in IH. cbn [app] in IH.
  rewrite length_app in IH. cbn [length] in IH.
  replace (length pre + 1)%nat with (S (length pre)) in IH by lia.
  rewrite Hx. cbn [from_option].
  destruct (P x) eqn:HPx.
  - rewrite !decide_True by done. cbn [omap list_omap]. rewrite Hx.
    f_equal. exact IH.
  - rewrite !decide_False by (by intros ?). exact IH.
Qed.

Lemma iloc_omap {A} (rs : list A) (positions : list nat) :
  Forall (λ i, (i < length rs)%nat) positions →
  iloc rs positions = Some (omap (λ i, rs !! i) positions).
Proof.
  unfold iloc. induction 1 as [|i positions Hi _ IH]; [done|].
  destruct (lookup_lt_is_Some_2 rs i Hi) as [r Hr].
  cbn. rewrite Hr. cbn. by rewrite IH.
Qed.

Lemma candidates_in_range boxes q :
  Forall (λ i, (i < length boxes)%nat) (candidates boxes q).
Proof.
  apply Forall_forall. intros i Hi. unfold candidates in Hi.
  apply list_elem_of_filter in Hi as [_ Hi]. apply elem_of_seq in Hi. lia.
Qed.

Lemma filter_ext_elem {A} (P Q : A → Prop)
    `{!∀ x, Decision (P x), !∀ x, Decision (Q x)} (l : list A) :
  (∀ x, x ∈ l → P x ↔ Q x) → filter P l = filter Q l.
Proof.
  induction l as [|x l IH]; intros Hext; [done|].
  rewrite !filter_cons. rewrite IH by (intros y Hy; apply Hext; by right).
  destruct (decide (P x)) as [HP|HP], (decide (Q x)) as [HQ|HQ]; try done;
    exfalso; apply (Hext x) in HP || apply (Hext x) in HQ; try done; by left.
Qed.

Lemma eq_reflexive_perm {A} (l k : list A) : l = k → l ≡ₚ k.
Proof. by intros ->. Qed.

Lemma candidates_rows (rents : list (Z * geom)) (q : geom) :
  omap (λ i, rents !! i) (candidates ((λ r, bounds r.2) <$> rents) (bounds q))
  = filter (λ r, box_intersects (bounds r.2) (bounds q)) rents.
Proof.
  unfold candidates. rewrite length_fmap.
  rewrite <- (omap_lookup_filter_seq
                (λ r : Z * geom, box_intersects (bounds r.2) (bounds q)) rents []).
  cbn [app length]. f_equal. apply list_filter_iff. intros i.
  rewrite list_lookup_fmap. by destruct (rents !! i).
Qed.

(** C8.  When the R-tree query returns the positions whose stored bounds
    intersect the query bounds, and intersecting geometries have
    intersecting bounds, the two-stage query succeeds and selects the rows
    of the brute-force mask, each as many times, up to their order. *)
Theorem two_stage_selects_brute_force (rents : list (Z * geom)) (q : geom) :
  rtree_sound rtree_intersection ((λ r, bounds r.2) <$> rents) (bounds q) →
  bounds_sound intersects bounds rents q = true →
  ∃ precise_matches,
    two_stage intersects bounds rtree_intersection rents q = Some precise_matches ∧
    precise_matches ≡ₚ brute_force intersects rents q ∧
    (∀ r, r ∈ precise_matches ↔ r ∈ brute_force intersects rents q).
Proof.
  intros Hrt Hbs. unfold two_stage, rtree_sound in *. cbv zeta.
  set (boxes := (λ r, bounds r.2) <$> rents) in *.
  assert (Forall (λ i, (i < length rents)%nat)
                 (rtree_intersection boxes (bounds q))) as Hrange.
  { rewrite Hrt. replace (length rents) with (length boxes)
      by (subst boxes; apply length_fmap). apply candidates_in_range. }
  rewrite (iloc_omap _ _ Hrange). cbn.
  eexists. split; [done|].
  assert (mask_rows
            (matches intersects (omap (λ i, rents !! i)
                                      (rtree_intersection boxes (bounds q))) q)
            (omap (λ i, rents !! i) (rtree_intersection boxes (bounds q)))
          ≡ₚ brute_force intersects rents q) as Hperm.
  { unfold brute_force, matches. rewrite !mask_rows_filter, Hrt.
    subst boxes. rewrite candidates_rows.
    rewrite list_filter_filter. apply eq_reflexive_perm, filter_ext_elem.
    intros r Hr. simpl.
    unfold bounds_sound in Hbs. rewrite forallb_forall in Hbs.
    apply list_elem_of_In, Hbs in Hr.
    destruct (intersects r.2 q), (box_intersects (bounds r.2) (bounds q));
      simpl in *; intuition congruence. }
  split; [done|]. intros r. by rewrite Hperm.
Qed.

End SpatialIndexFacts.

(** ** Effects of the notebooks: disk, failures, reference systems *)

Section NotebookFacts.
Import Notebook.
Context {Value : Type}.
Variable lib : string → list Value → string + Value.
Variable reproject : CRS → CRS → Value → string + Value.
Variable latlong : Value → list (Q * Q).
Variable great_circle_miles : Q * Q → Q * Q → string + Q.
Variable with_column : Value → string → list Q → Value.

Local Abbreviation NB := (NB Value).
Local Abbreviation World := (World Value).
Local Abbreviation nb04 := (module04 Value lib).
Local Abbreviation nb06 :=
  (module06 Value lib reproject latlong great_circle_miles with_column).
Local Abbreviation nb10 := (module10 Value lib).

(** *** Files written *)

Section Frame.
Variable S : gset string.

Lemma ww_ret {A} (a : A) : writes_within Value S (mret a : NB A).
Proof. by intros w p _. Qed.

Lemma ww_raise {A} e : writes_within Value S (raise Value e : NB A).
Proof. by intros w p _. Qed.

Lemma ww_bind {A B} (m : NB A) (f : A → NB B) :
  writes_within Value S m → (∀ a, writes_within Value S (f a)) →
  writes_within Value S (m ≫= f).
Proof.
  intros Hm Hf w p Hp. unfold mbind, NB_bind.
  specialize (Hm w p Hp). destruct (m w) as [[e|a] w']; simpl in *; [done|].
  by rewrite (Hf a w' p Hp).
Qed.

Lemma ww_get x : writes_within Value S (get Value x).
Proof. intros w p _. unfold get. by destruct (ns _ w !! x). Qed.

Lemma ww_set x o : writes_within Value S (set Value x o).
Proof. by intros w p _. Qed.

Lemma ww_display : writes_within Value S (display Value).
Proof. by intros w p _. Qed.

Lemma ww_lib_call op args : writes_within Value S (lib_call Value lib op args).
Proof. intros w p _. unfold lib_call. by destruct (lib op args). Qed.

Lemma ww_lift {A} op (r : string + A) : writes_within Value S (lift Value op r).
Proof. destruct r; [apply ww_raise | apply ww_ret]. Qed.

Lemma ww_read_data path : writes_within Value S (read_data Value path).
Proof.
  intros w p _. unfold read_data. by destruct (disk _ w !! path) as [[]|].
Qed.

Lemma ww_write path f : path ∈ S → writes_within Value S (write Value path f).
Proof.
  intros Hin w p Hp. unfold write. simpl.
  apply lookup_insert_ne. by intros ->.
Qed.

Lemma ww_to_file o path : path ∈ S → writes_within Value S (to_file Value o path).
Proof. intros Hin. destruct o; [by apply ww_write | apply ww_raise]. Qed.

Lemma ww_to_crs o target : writes_within Value S (to_crs Value reproject o target).
Proof.
  destruct o as [[src|] v|v], target as [dst|]; simpl; try apply ww_raise.
  destruct (reproject src dst v); [apply ww_raise | apply ww_ret].
Qed.

Lemma ww_crs_of o : writes_within Value S (crs_of Value o).
Proof. destruct o; [apply ww_ret | apply ww_raise]. Qed.

Lemma ww_mapM {A B} (f : A → NB B) (xs : list A) :
  (∀ x, writes_within Value S (f x)) → writes_within Value S (mapM f xs).
Proof.
  intros Hf. induction xs as [|x xs IH]; [apply ww_ret|].
  cbn. apply ww_bind; [done|]. intros b.
  apply ww_bind; [done|]. intros bs. apply ww_ret.
Qed.

Lemma ww_for_each {A} (xs : list A) (body : A → NB unit) :
  (∀ x, writes_within Value S (body x)) →
  writes_within Value S (for_each Value xs body).
Proof.
  intros Hf. induction xs as [|x xs IH]; [apply ww_ret|].
  cbn. apply ww_bind; [done|]. by intros _.
Qed.

Lemma ww_first_two_distance o :
  writes_within Value S (first_two_distance Value latlong great_circle_miles o).
Proof.
  unfold first_two_distance.
  destruct (latlong (data_of Value o)) as [|? [|? ?]];
    try apply ww_raise; apply ww_lift.
Qed.

End Frame.

Ltac frame_step :=
  first
    [ apply ww_ret | apply ww_raise | apply ww_get | apply ww_set
    | apply ww_display | apply ww_lib_call | apply ww_lift | apply ww_read_data
    | apply ww_to_crs | apply ww_crs_of | apply ww_first_two_distance
    | apply ww_write; set_solver | apply ww_to_file; set_solver
    | apply ww_mapM; intros ? | apply ww_for_each; intros ?
    | apply ww_bind; [|intros ?] ].

Ltac frame :=
  unfold cell06_134, cell06_164, cell06_207, cell06_520, cell06_562,
    cell06_582, cell06_622, cell06_669, cell06_682, cell06_716, cell06_755,
    cell06_788, cell06_809, cell10_651, design_cell, ols_cell, scatter_plot,
    subplots, unpack, show, exec, assign, derive, compute, gets, read_csv,
    read_file, savefig, get_distance, apply_rows, define;
  repeat frame_step.

Lemma run_cells_frame (S : gset string) (cells : list (nat * NB unit)) :
  Forall (λ c, writes_within Value S c.2) cells →
  ∀ w p, p ∉ S → disk _ (final Value (run_cells Value cells w)) !! p = disk _ w !! p.
Proof.
  induction 1 as [|[n c] cells Hc _ IH]; intros w p Hp; [done|].
  simpl in *. specialize (Hc w p Hp).
  destruct (c w) as [[e|[]] w']; simpl in *; [done|].
  by rewrite IH.
Qed.

Lemma module04_frame : Forall (λ c, writes_within Value ∅ c.2) nb04.
Proof. unfold module04. repeat (constructor; [simpl; frame|]). constructor. Qed.

Lemma module10_frame : Forall (λ c, writes_within Value ∅ c.2) nb10.
Proof. unfold module10. repeat (constructor; [simpl; frame|]). constructor. Qed.

Lemma module06_frame :
  Forall (λ c, writes_within Value {["data/map.png"; "data/states2"]} c.2) nb06.
Proof. unfold module06. repeat (constructor; [simpl; frame|]). constructor. Qed.

(** C5.  Whatever the libraries compute and wherever a run stops, a full
    run of the notebooks, and a run of any one of them from any state,
    leaves every file other than [data/map.png] and [data/states2] as it
    was; modules 04 and 10 leave the whole disk as it was. *)
Theorem only_map_png_and_states2_written (d : gmap string (file Value))
    (w : World) (p : string) :
  p ≠ "data/map.png" → p ≠ "data/states2" →
  run_notebooks Value
    (notebooks Value lib reproject latlong great_circle_miles with_column) d !! p
  = d !! p ∧
  Forall (λ nb, disk _ (final Value (run_cells Value nb w)) !! p = disk _ w !! p)
         (notebooks Value lib reproject latlong great_circle_miles with_column) ∧
  disk _ (final Value (run_cells Value nb04 w)) = disk _ w ∧
  disk _ (final Value (run_cells Value nb10 w)) = disk _ w.
Proof.
  intros Hpng Hst.
  assert (p ∉ ({["data/map.png"; "data/states2"]} : gset string)) as Hp
    by (by intros [?%elem_of_singleton|?%elem_of_singleton]%elem_of_union).
  assert (p ∉ (∅ : gset string)) as Hp0 by set_solver.
  split; [|split; [|split]].
  - unfold run_notebooks, notebooks. cbn [foldl].
    rewrite (run_cells_frame ∅ _ module10_frame _ _ Hp0). cbn [fresh disk].
    rewrite (run_cells_frame _ _ module06_frame _ _ Hp). cbn [fresh disk].
    by rewrite (run_cells_frame ∅ _ module04_frame _ _ Hp0).
  - unfold notebooks. repeat constructor.
    + by apply (run_cells_frame ∅ _ module04_frame).
    + by apply (run_cells_frame _ _ module06_frame).
    + by apply (run_cells_frame ∅ _ module10_frame).
  - apply map_eq. intros q. apply (run_cells_frame ∅ _ module04_frame). set_solver.
  - apply map_eq. intros q. apply (run_cells_frame ∅ _ module10_frame). set_solver.
Qed.

(** *** Running a list of statements *)

Lemma mapM_cons_run {A B} (f : A → NB B) (r : A) (rows : list A) (w : World) :
  mapM f (r :: rows) w
  = match f r w with
    | (inr b, w') =>
        match mapM f rows w' with
        | (inr bs, w'') => (inr (b :: bs), w'')
        | (inl e, w'') => (inl e, w'')
        end
    | (inl e, w') => (inl e, w')
    end.
Proof.
  cbn. unfold mbind, NB_bind. destruct (f r w) as [[e|b] w']; [done|].
  by destruct (mapM f rows w') as [[e|bs] w''].
Qed.

(** *** Reference systems at the calls of [to_crs] *)

Lemma wp_ret {A} (a : A) (Φ : A → World → Prop) Ψ w :
  Φ a w → wp Value (mret a) Φ Ψ w.
Proof. done. Qed.

Lemma wp_bind {A B} (m : NB B) (f : B → NB A) (Φ : A → World → Prop) Ψ w :
  wp Value m (λ b w', wp Value (f b) Φ Ψ w') Ψ w → wp Value (m ≫= f) Φ Ψ w.
Proof. unfold wp, mbind, NB_bind. by destruct (m w) as [[e|b] w']. Qed.

Lemma wp_get x o (Φ : obj Value → World → Prop) Ψ d n s :
  n !! x = Some o → Φ o (mkWorld Value d n s) →
  wp Value (get Value x) Φ Ψ (mkWorld Value d n s).
Proof. intros Hx HΦ. unfold wp, get. simpl. by rewrite Hx. Qed.

Lemma wp_mapM_get xs os (Φ : list (obj Value) → World → Prop) Ψ d n s :
  mapM (λ x, n !! x) xs = Some os → Φ os (mkWorld Value d n s) →
  wp Value (mapM (get Value) xs) Φ Ψ (mkWorld Value d n s).
Proof.
  intros Hxs HΦ. unfold wp.
  assert (mapM (get Value) xs (mkWorld Value d n s)
          = (inr os, mkWorld Value d n s)) as ->; [|done].
  clear HΦ. revert os Hxs. induction xs as [|x xs IH]; intros os Hxs.
  - by injection Hxs as <-.
  - cbn in Hxs. destruct (n !! x) as [o|] eqn:Hx; [|done]. cbn in Hxs.
    destruct (mapM (λ x, n !! x) xs) as [os'|]; [|done].
    injection Hxs as <-. rewrite mapM_cons_run.
    unfold get at 1. simpl. rewrite Hx. by rewrite (IH os').
Qed.

Lemma wp_lib_call op args (Φ : Value → World → Prop) Ψ w :
  (∀ v, Φ v w) → (∀ msg, Ψ (LibraryError op msg) w) →
  wp Value (lib_call Value lib op args) Φ Ψ w.
Proof. intros HΦ HΨ. unfold wp, lib_call. by destruct (lib op args). Qed.

Lemma wp_lift {A} op (r : string + A) (Φ : A → World → Prop) Ψ w :
  (∀ a, Φ a w) → (∀ msg, Ψ (LibraryError op msg) w) →
  wp Value (lift Value op r) Φ Ψ w.
Proof. intros HΦ HΨ. destruct r; [apply HΨ | apply HΦ]. Qed.

Lemma wp_set x o (Φ : unit → World → Prop) Ψ d n s :
  Φ tt (mkWorld Value d (<[x := o]> n) s) →
  wp Value (set Value x o) Φ Ψ (mkWorld Value d n s).
Proof. done. Qed.

Lemma wp_display (Φ : unit → World → Prop) Ψ d n s :
  Φ tt (mkWorld Value d n (S s)) →
  wp Value (display Value) Φ Ψ (mkWorld Value d n s).
Proof. done. Qed.

Lemma wp_write path f (Φ : unit → World → Prop) Ψ d n s :
  Φ tt (mkWorld Value (<[path := f]> d) n s) →
  wp Value (write Value path f) Φ Ψ (mkWorld Value d n s).
Proof. done. Qed.

Lemma wp_to_file_frame c v path (Φ : unit → World → Prop) Ψ d n s :
  Φ tt (mkWorld Value (<[path := DataFile Value c v]> d) n s) →
  wp Value (to_file Value (Frame Value c v) path) Φ Ψ (mkWorld Value d n s).
Proof. done. Qed.

Lemma wp_read_data path (Φ : option CRS * Value → World → Prop) Ψ d n s :
  (∀ c v, d !! path = Some (DataFile Value c v) → Φ (c, v) (mkWorld Value d n s)) →
  Ψ (NotADataset path) (mkWorld Value d n s) →
  Ψ (FileNotFound path) (mkWorld Value d n s) →
  wp Value (read_data Value path) Φ Ψ (mkWorld Value d n s).
Proof.
  intros HΦ HΨ1 HΨ2. unfold wp, read_data. simpl.
  destruct (d !! path) as [[c v|dpi fig]|] eqn:Hd; auto.
Qed.

Lemma wp_to_crs_defined src v dst (Φ : obj Value → World → Prop) Ψ w :
  (∀ v', Φ (Frame Value (Some dst) v') w) →
  (∀ msg, Ψ (LibraryError "to_crs" msg) w) →
  wp Value (to_crs Value reproject (Frame Value (Some src) v) (Some dst)) Φ Ψ w.
Proof.
  intros HΦ HΨ. unfold wp. simpl.
  destruct (reproject src dst v); [apply HΨ | apply HΦ].
Qed.

Lemma wp_crs_of_frame c v (Φ : option CRS → World → Prop) Ψ w :
  Φ c w → wp Value (crs_of Value (Frame Value c v)) Φ Ψ w.
Proof. done. Qed.

Lemma wp_first_two_distance o (Φ : Q → World → Prop) Ψ w :
  (∀ d, Φ d w) → (∀ msg, Ψ (LibraryError "great_circle" msg) w) →
  Ψ (KeyError "loc") w →
  wp Value (first_two_distance Value latlong great_circle_miles o) Φ Ψ w.
Proof.
  intros HΦ HΨ HK. unfold first_two_distance.
  destruct (latlong (data_of Value o)) as [|p0 [|p1 ?]]; try exact HK.
  by apply wp_lift.
Qed.

Lemma wp_apply_get_distance rows (Φ : list Q → World → Prop) Ψ w :
  (∀ ds, Φ ds w) → (∀ msg, Ψ (LibraryError "great_circle" msg) w) →
  wp Value (apply_rows Value (get_distance Value great_circle_miles) rows) Φ Ψ w.
Proof.
  intros HΦ HΨ. unfold wp.
  assert ((∃ ds, apply_rows Value (get_distance Value great_circle_miles) rows w
                 = (inr ds, w)) ∨
          (∃ msg, apply_rows Value (get_distance Value great_circle_miles) rows w
                  = (inl (LibraryError "great_circle" msg), w)))
    as [[ds ->]|[msg ->]]; [|apply HΦ|apply HΨ].
  unfold apply_rows. set (F := get_distance Value great_circle_miles).
  induction rows as [|r rows IH]; [left; by exists []|].
  rewrite mapM_cons_run.
  destruct (great_circle_miles snell_library r) as [msg|dist] eqn:Hgc.
  - assert (F r w = (inl (LibraryError "great_circle" msg), w)) as ->.
    { subst F. unfold get_distance, mbind, NB_bind. by rewrite Hgc. }
    right. by exists msg.
  - assert (F r w = (inr (round2 dist), w)) as ->.
    { subst F. unfold get_distance, mbind, NB_bind. by rewrite Hgc. }
    destruct IH as [[ds ->]|[msg ->]]; [left|right]; eauto.
Qed.

Lemma run_step (P : outcome Value → Prop) n c rest w :
  wp Value c (λ _ w', P (run_cells Value rest w'))
             (λ e w', P (Halted Value n e w')) w →
  P (run_cells Value ((n, c) :: rest) w).
Proof. unfold wp. simpl. by destruct (c w) as [[e|[]] w']. Qed.

Lemma wp_for_each_nil {A} (body : A → NB unit) (Φ : unit → World → Prop) Ψ w :
  Φ tt w → wp Value (for_each Value [] body) Φ Ψ w.
Proof. done. Qed.

Lemma wp_for_each_cons {A} x xs (body : A → NB unit) (Φ : unit → World → Prop) Ψ w :
  wp Value (body x ≫= λ _, for_each Value xs body) Φ Ψ w →
  wp Value (for_each Value (x :: xs) body) Φ Ψ w.
Proof. done. Qed.

Lemma never_naive_finished w : never_naive Value (Finished Value w).
Proof. by intros n w'. Qed.

Ltac benign := cbv beta; unfold never_naive; intros; first [discriminate | congruence].

Ltac sym_step Hshp :=
  lazymatch goal with
  | |- never_naive _ (run_cells _ (_ :: _) _) =>
      apply (run_step (never_naive Value))
  | |- never_naive _ (run_cells _ [] _) => apply never_naive_finished
  | |- wp _ (mbind _ _) _ _ _ => apply wp_bind
  | |- wp _ (mret _) _ _ _ => apply wp_ret
  | |- wp _ (get _ ?x) _ _ (mkWorld _ ?d ?n ?s) =>
      let r := eval vm_compute in (n !! x) in
      lazymatch r with
      | Some ?o => apply (wp_get x o); [vm_compute; reflexivity|]
      end
  | |- wp _ (mapM (get _) ?xs) _ _ (mkWorld _ ?d ?n ?s) =>
      let r := eval vm_compute in (mapM (λ x, n !! x) xs) in
      lazymatch r with
      | Some ?os => apply (wp_mapM_get xs os); [vm_compute; reflexivity|]
      end
  | |- wp _ (set _ _ _) _ _ _ => apply wp_set
  | |- wp _ (display _) _ _ _ => apply wp_display
  | |- wp _ (write _ _ _) _ _ _ => apply wp_write
  | |- wp _ (to_file _ (Frame _ _ _) _) _ _ _ => apply wp_to_file_frame
  | |- wp _ (lib_call _ _ _ _) _ _ _ => apply wp_lib_call; [intros ?|benign]
  | |- wp _ (lift _ _ _) _ _ _ => apply wp_lift; [intros ?|benign]
  | |- wp _ (read_data _ _) _ _ _ =>
      apply wp_read_data;
        [ let c := fresh "c" in let v := fresh "v" in let Hf := fresh "Hf" in
          intros c v Hf;
          try (let c0 := fresh "c" in destruct (Hshp c v Hf) as [c0 ->])
        | benign | benign ]
  | |- wp _ (to_crs _ _ (Frame _ (Some _) _) (Some _)) _ _ _ =>
      apply wp_to_crs_defined; [intros ?|benign]
  | |- wp _ (crs_of _ (Frame _ _ _)) _ _ _ => apply wp_crs_of_frame
  | |- wp _ (first_two_distance _ _ _ _) _ _ _ =>
      apply wp_first_two_distance; [intros ?|benign|benign]
  | |- wp _ (apply_rows _ (get_distance _ _) _) _ _ _ =>
      apply wp_apply_get_distance; [intros ?|benign]
  | |- wp _ (for_each _ [] _) _ _ _ => apply wp_for_each_nil
  | |- wp _ (for_each _ (_ :: _) _) _ _ _ => apply wp_for_each_cons
  end;
  cbv beta.

Ltac sym_run Hshp :=
  unfold module04, module06, module10, fresh, cell06_134, cell06_164,
    cell06_207, cell06_520, cell06_562, cell06_582, cell06_622, cell06_669,
    cell06_682, cell06_716, cell06_755, cell06_788, cell06_809, cell10_651,
    design_cell, ols_cell, scatter_plot, cols04, subplots, unpack, show, exec,
    assign, derive, compute, gets, read_csv, read_file, savefig, define;
  repeat sym_step Hshp.

(** C2.  When the states shapefile comes with a reference system, no run of
    a notebook -- whatever the libraries compute, whichever other files are
    there -- is halted by [to_crs] for a missing source reference system:
    each of the six calls, all in module 06, is made on a frame whose [crs]
    was read from the shapefile or assigned in an earlier cell. *)
Theorem to_crs_source_always_defined (d : gmap string (file Value)) :
  (∀ c v, d !! "data/states_21basic/states.shp" = Some (DataFile Value c v) →
          is_Some c) →
  Forall (λ nb, never_naive Value (run_cells Value nb (fresh Value d)))
         (notebooks Value lib reproject latlong great_circle_miles with_column).
Proof.
  intros Hshp. unfold notebooks. repeat constructor.
  - sym_run Hshp.
  - sym_run Hshp.
  - sym_run Hshp.
Qed.

End NotebookFacts.

(** ** Failures, from the operation that raises to the end of the run *)

Section Propagation.
Import Notebook Code Programs.
Context {Value : Type}.
Variable lib : string → list Value → string + Value.
Variable reproject : CRS → CRS → Value → string + Value.
Variable latlong : Value → list (Q * Q).
Variable great_circle_miles : Q * Q → Q * Q → string + Q.
Variable with_column : Value → string → list Q → Value.

Local Abbreviation NB := (NB Value).
Local Abbreviation World := (World Value).
Local Abbreviation code := (@code Value lib reproject latlong great_circle_miles).
Local Abbreviation codes := (@codes Value lib reproject latlong great_circle_miles).

Lemma agrees_bind {A B} (m : NB A) (f : A → NB B) w l1 (l2 : A → World → list event) :
  agrees (m w) l1 →
  (∀ a w', m w = (inr a, w') → agrees (f a w') (l2 a w')) →
  agrees ((m ≫= f) w)
         (l1 ++ match m w with
                | (inr a, w') => l2 a w'
                | (inl _, _) => []
                end).
Proof.
  unfold agrees, mbind, NB_bind. intros H1 H2.
  destruct (m w) as [[e|a] w'] eqn:Hm; simpl in *.
  - by rewrite app_nil_r.
  - specialize (H2 a w' eq_refl). destruct (f a w').1 as [e|b].
    + destruct H2 as (pre & ev & -> & Hev & Hpre).
      exists (l1 ++ pre), ev. rewrite app_assoc. split; [done|]. split; [done|].
      by apply Forall_app.
    + by apply Forall_app.
Qed.

Lemma agrees_mapM {A B} (f : A → NB B) (ev : A → World → list event) l :
  (∀ a w, agrees (f a w) (ev a w)) →
  ∀ w, agrees (mapM f l w) (each f ev l w).
Proof.
  intros Hf. induction l as [|x l IH]; intros w.
  - constructor.
  - rewrite mapM_cons_run. cbn [each]. specialize (Hf x w).
    unfold agrees in *. destruct (f x w) as [[e|b] w'] eqn:Hx; simpl in *.
    + by rewrite app_nil_r.
    + specialize (IH w'). destruct (mapM f l w') as [[e|bs] w'']; simpl in *.
      * destruct IH as (pre & ev' & -> & Hev & Hpre).
        exists (ev x w ++ pre), ev'. rewrite app_assoc.
        split; [done|]. split; [done|]. by apply Forall_app.
      * by apply Forall_app.
Qed.

Lemma agrees_for_each {A} (body : A → NB unit) (ev : A → World → list event) xs :
  (∀ x w, agrees (body x w) (ev x w)) →
  ∀ w, agrees (for_each Value xs body w) (each body ev xs w).
Proof.
  intros Hb. induction xs as [|x xs IH]; intros w.
  - constructor.
  - cbn [for_each each].
    apply (agrees_bind (body x) (λ _, for_each Value xs body) w (ev x w)
             (λ _ w', each body ev xs w')); [apply Hb|].
    intros _ w' _. apply IH.
Qed.

Ltac raised_last :=
  eexists [], _; split; [reflexivity|split; [reflexivity|constructor]].

(** No construct of the notebooks stands between an operation that raises
    and the statement it is part of. *)
Lemma log_agrees {A} (m : NB A) (k : code m) : ∀ w, agrees (m w) (log k w).
Proof.
  induction k as [A a|A B m f km IHm kf IHf|x|x o| |name|op args|path|o path
                 |fig path dpi|o target|o|o|A op r|A B f l kf IHf
                 |A B f rows kf IHf|A xs body kb IHb|A name m km IHm];
    intros w; cbn [Code.log].
  - constructor.
  - apply agrees_bind; [apply IHm|]. intros a w' _. apply IHf.
  - unfold agrees, get. destruct (ns Value w !! x); simpl.
    + by repeat constructor.
    + raised_last.
  - constructor.
  - constructor.
  - constructor.
  - unfold agrees, lib_call. destruct (lib op args) as [msg|v]; simpl.
    + raised_last.
    + by repeat constructor.
  - unfold agrees, read_data. destruct (disk Value w !! path) as [[c v|dpi fig]|]; simpl.
    + by repeat constructor.
    + raised_last.
    + raised_last.
  - unfold agrees. destruct o; simpl.
    + by repeat constructor.
    + raised_last.
  - by repeat constructor.
  - unfold agrees. destruct o as [[src|] v|v]; simpl.
    + destruct target as [dst|]; simpl.
      * destruct (reproject src dst v) as [msg|v']; simpl.
        -- raised_last.
        -- by repeat constructor.
      * raised_last.
    + raised_last.
    + raised_last.
  - unfold agrees. destruct o; simpl.
    + by repeat constructor.
    + raised_last.
  - unfold agrees, first_two_distance.
    destruct (latlong (data_of Value o)) as [|p0 [|p1 ?]]; simpl.
    + raised_last.
    + raised_last.
    + destruct (great_circle_miles p0 p1) as [msg|d]; simpl.
      * eexists [_], _. split; [done|]. split; [done|]. by repeat constructor.
      * by repeat constructor.
  - unfold agrees. destruct r as [msg|a]; simpl.
    + raised_last.
    + by repeat constructor.
  - apply agrees_mapM. intros a w'. apply IHf.
  - apply (agrees_mapM f). intros a w'. apply IHf.
  - apply agrees_for_each. intros x w'. apply IHb.
  - apply IHm.
Qed.

Lemma uncaught_run {cells} (ks : codes cells) : ∀ w, uncaught ks w.
Proof.
  assert (∀ w, match run_cells Value cells w with
               | Finished _ _ => Forall (λ nev, raised nev.2 = None) (run_log ks w)
               | Halted _ n e _ =>
                   ∃ pre ev, run_log ks w = pre ++ [(n, ev)] ∧ raised ev = Some e ∧
                             Forall (λ nev, raised nev.2 = None) pre
               end) as Hrun.
  { induction ks as [|n c rest k ks IH]; intros w; [constructor|].
    cbn [Code.run_log run_cells]. pose proof (log_agrees c k w) as Hk.
    unfold agrees in Hk. destruct (c w) as [[e|[]] w']; simpl in Hk.
    - destruct Hk as (pre & ev & -> & Hev & Hpre). rewrite app_nil_r.
      exists ((λ ev, (n, ev)) <$> pre), ev. rewrite fmap_app. split; [done|].
      split; [done|]. by apply Forall_fmap.
    - specialize (IH w'). destruct (run_cells Value rest w') as [w''|n' e w''].
      + apply Forall_app. split; [by apply Forall_fmap|done].
      + destruct IH as (pre & ev & -> & Hev & Hpre).
        exists (((λ ev, (n, ev)) <$> log k w) ++ pre), ev.
        rewrite app_assoc. split; [done|]. split; [done|].
        apply Forall_app. split; [by apply Forall_fmap|done]. }
  intros w. specialize (Hrun w). split; [|split].
  - intros pre n ev post e Hlog Hev.
    destruct (run_cells Value cells w) as [w'|n' e' w'].
    + rewrite Hlog in Hrun. apply Forall_app in Hrun as [_ Hrun].
      apply Forall_cons in Hrun as [Hrun _]. simpl in Hrun. congruence.
    + destruct Hrun as (pre' & ev' & Hlog' & Hev' & Hpre').
      rewrite Hlog in Hlog'.
      destruct post as [|p post].
      * apply app_inj_tail in Hlog' as [_ [= -> ->]].
        split; [done|]. exists w'. congruence.
      * exfalso. assert (raised ev = None); [|congruence].
        rewrite Forall_forall in Hpre'. apply (Hpre' (n, ev)).
        destruct (exists_last (l := p :: post)) as (q & x & Hq); [done|].
        rewrite Hq in Hlog'.
        replace (pre ++ (n, ev) :: q ++ [x])
          with ((pre ++ (n, ev) :: q) ++ [x]) in Hlog'
          by (by rewrite <- app_assoc).
        apply app_inj_tail in Hlog' as [<- _].
        apply elem_of_app. right. by left.
  - intros Hq. destruct (run_cells Value cells w) as [w'|n e w']; [by exists w'|].
    destruct Hrun as (pre & ev & Hlog & Hev & _). rewrite Hlog in Hq.
    apply Forall_app in Hq as [_ Hq]. apply Forall_cons in Hq as [Hq _].
    simpl in Hq. congruence.
  - intros n e w' Hh. rewrite Hh in Hrun.
    destruct Hrun as (pre & ev & Hlog & Hev & _). eauto.
Qed.


(** C4.  Nothing in the three notebooks catches, translates or retries.
    Each notebook has a code, so it is written with sequencing, loops,
    calls and definitions only.  Hence in any run, from any state and
    whatever the libraries do: an operation that raises -- a file load, a
    geometry operation, a reprojection, a regression fit, any library
    call, a name or attribute lookup -- is the last operation of the run,
    and the run is halted at the cell of that operation with the
    exception it raised; a halted run was halted by its last operation;
    and a run in which no operation raises goes through every cell. *)
Theorem failures_propagate_uncaught (w : World) :
  uncaught (code04 lib reproject latlong great_circle_miles) w ∧
  uncaught (code06 lib reproject latlong great_circle_miles with_column) w ∧
  uncaught (code10 lib reproject latlong great_circle_miles) w.
Proof. split; [|split]; apply uncaught_run. Qed.

End Propagation.

(** ** Call sites *)

Section CallSites.
Import Notebook Code Programs.
Context {Value : Type}.
Variable lib : string → list Value → string + Value.
Variable reproject : CRS → CRS → Value → string + Value.
Variable latlong : Value → list (Q * Q).
Variable great_circle_miles : Q * Q → Q * Q → string + Q.
Variable with_column : Value → string → list Q → Value.

Local Abbreviation K04 := (code04 lib reproject latlong great_circle_miles).
Local Abbreviation K06 := (code06 lib reproject latlong great_circle_miles with_column).
Local Abbreviation K10 := (code10 lib reproject latlong great_circle_miles).

Ltac each_case H tac :=
  lazymatch type of H with
  | _ ∨ _ => destruct H as [H|H]; each_case H tac
  | ∃ _, _ => destruct H as [? H]; each_case H tac
  | _ ∧ _ => let H1 := fresh "Hn" in destruct H as [H1 H]; each_case H tac
  | False => destruct H
  | _ => tac H
  end.

Lemma defines04 n name :
  cell_defines K04 n name ↔ n = 507%nat ∧ name = "scatter_plot".
Proof.
  split.
  - intros H. vm_compute in H. each_case H ltac:(fun H => by subst).
  - intros [-> ->]. vm_compute. tauto.
Qed.

Lemma defines06 n name :
  cell_defines K06 n name ↔ n = 134%nat ∧ name = "get_distance".
Proof.
  split.
  - intros H. vm_compute in H. each_case H ltac:(fun H => by subst).
  - intros [-> ->]. vm_compute. tauto.
Qed.

Lemma defines10 n name : ¬ cell_defines K10 n name.
Proof. intros H. vm_compute in H. each_case H ltac:(fun H => by subst). Qed.

Lemma self_contained04 : self_contained K04.
Proof.
  intros n s H. vm_compute in H.
  each_case H ltac:(fun H =>
    subst; cbn [s_origin s_place s_callee];
    first [ exact I
          | exists 507%nat; split; [lia|]; by apply defines04 ]).
Qed.

Lemma self_contained06 : self_contained K06.
Proof.
  intros n s H. vm_compute in H.
  each_case H ltac:(fun H =>
    subst; cbn [s_origin s_place s_callee];
    first [ exact I
          | exists 134%nat; split; [lia|]; by apply defines06 ]).
Qed.

Lemma self_contained10 : self_contained K10.
Proof.
  intros n s H. vm_compute in H.
  each_case H ltac:(fun H => subst; cbn [s_origin s_place s_callee]; exact I).
Qed.

Lemma named_direct04 n s :
  cell_sites K04 n s → named (s_callee s) = true →
  s_origin s = Library ∧ s_place s = TopLevel.
Proof.
  intros H. vm_compute in H.
  each_case H ltac:(fun H => subst; vm_compute; by intros).
Qed.

Lemma named_direct06 n s :
  cell_sites K06 n s → named (s_callee s) = true →
  s_origin s = Library ∧ s_place s = TopLevel.
Proof.
  intros H. vm_compute in H.
  each_case H ltac:(fun H => subst; vm_compute; by intros).
Qed.

Lemma named_direct10 n s :
  cell_sites K10 n s → named (s_callee s) = true →
  s_origin s = Library ∧ s_place s = TopLevel.
Proof.
  intros H. vm_compute in H.
  each_case H ltac:(fun H => subst; vm_compute; by intros).
Qed.


(** C6.  Every call that names one of the operations of the specification
    is written in a cell and goes to the library directly, not through a
    function of the repository.  The repository defines two functions,
    [scatter_plot] (module 04, cell 507) and [get_distance] (module 06,
    cell 134); a call of a repository function is written in a cell of the
    notebook that defines it, in or after the defining cell, and the
    bodies of the two functions call libraries only: no notebook calls
    into another one.  And nothing is put between a library and the
    notebook: an exception is the one the operation raised, and no
    operation follows it. *)
Theorem named_operations_are_direct_library_calls :
  (∀ n s, cell_sites K04 n s ∨ cell_sites K06 n s ∨ cell_sites K10 n s →
          named (s_callee s) = true →
          s_origin s = Library ∧ s_place s = TopLevel) ∧
  (self_contained K04 ∧ self_contained K06 ∧ self_contained K10) ∧
  (∀ n name, cell_defines K04 n name ↔ n = 507%nat ∧ name = "scatter_plot") ∧
  (∀ n name, cell_defines K06 n name ↔ n = 134%nat ∧ name = "get_distance") ∧
  (∀ n name, ¬ cell_defines K10 n name) ∧
  (∀ w, uncaught K04 w ∧ uncaught K06 w ∧ uncaught K10 w).
Proof.
  split; [|split; [|split; [|split; [|split]]]].
  - intros n s [H|[H|H]].
    + by apply (named_direct04 n).
    + by apply (named_direct06 n).
    + by apply (named_direct10 n).
  - split; [apply self_contained04|split; [apply self_contained06|apply self_contained10]].
  - apply defines04.
  - apply defines06.
  - apply defines10.
  - intros w. split; [|split]; apply uncaught_run.
Qed.

End CallSites.

(** ** County dummies (module 10, section 2a) *)

Section Dummies.
Import Pandas Module10.

Lemma elem_of_unique (vs : list cell) c : c ∈ unique vs ↔ c ∈ vs.
Proof.
  induction vs as [|v vs IH]; [done|]. simpl.
  rewrite !elem_of_cons, list_elem_of_filter, IH.
  destruct (decide (c = v)); intuition.
Qed.

Lemma unique_NoDup (vs : list cell) : NoDup (unique vs).
Proof.
  induction vs as [|v vs IH]; simpl; constructor.
  - rewrite list_elem_of_filter. by intros [? _].
  - by apply NoDup_filter.
Qed.

Lemma cell_eqb_eq c k : c ≠ NaN → cell_eqb c k = bool_decide (c = k).
Proof.
  intros Hc. destruct c, k; try done; simpl.
  all: by rewrite bool_decide_eq_false_2.
Qed.

Lemma indicator_sum_absent c ks :
  c ∉ ks → foldr Z.add 0 (indicator c <$> ks) = 0.
Proof.
  induction ks as [|k ks IH]; intros Hc; [done|].
  apply not_elem_of_cons in Hc as [Hne Hc]. cbn [fmap list_fmap foldr].
  fold (indicator c <$> ks). rewrite (IH Hc). unfold indicator.
  destruct c, k; simpl; try done;
    rewrite bool_decide_eq_false_2; done.
Qed.

Lemma indicator_sum_once c ks :
  c ≠ NaN → NoDup ks → c ∈ ks → foldr Z.add 0 (indicator c <$> ks) = 1.
Proof.
  intros Hc. induction 1 as [|k ks Hk Hnd IH]; intros Hin.
  - by apply elem_of_nil in Hin.
  - cbn [fmap list_fmap foldr]. fold (indicator c <$> ks).
    apply elem_of_cons in Hin as [->|Hin].
    + rewrite (indicator_sum_absent k ks Hk). unfold indicator.
      rewrite cell_eqb_eq by done. by rewrite bool_decide_eq_true_2.
    + rewrite (IH Hin). unfold indicator. rewrite cell_eqb_eq by done.
      rewrite bool_decide_eq_false_2; [done|]. by intros ->.
Qed.

(** The full set of dummies sums to 1 on every row whose county is not
    missing. *)
Lemma full_dummies_sum_to_one (col : list cell) c :
  c ∈ col → c ≠ NaN → foldr Z.add 0 (indicator c <$> unique col) = 1.
Proof.
  intros Hin Hc. apply indicator_sum_once; [done|apply unique_NoDup|].
  by apply elem_of_unique.
Qed.

(** [dummy_values] is this indicator, row by row. *)
Lemma dummy_values_indicator (col : list cell) k :
  dummy_values col k = (λ c, Num (indicator c k)) <$> col.
Proof. done. Qed.

(** The dummies kept in the list are zero on the rows of the first county,
    so on the whole frame their sum is not the constant column. *)
Lemma kept_dummies_zero_on_first_county c0 (rest : list cell) k :
  k ∈ drop 1 (unique (c0 :: rest)) → indicator c0 k = 0.
Proof.
  simpl. rewrite drop_0, list_elem_of_filter. intros [Hne _].
  unfold indicator. destruct c0, k; simpl; try done;
    rewrite bool_decide_eq_false_2; congruence.
Qed.

(** On the sample frame: one 0/1 column per county, in order of first
    appearance, and the list of kept dummies without the first. *)
Example county_dummies_sample :
  ∃ tracts0 tracts,
    load_tracts Samples.tract_columns Samples.tract_rows = Some tracts0 ∧
    add_county_dummies object tracts0 = Some tracts ∧
    columns tracts
    = Samples.tract_columns
      ++ ["dummy_county_001"; "dummy_county_003"; "dummy_county_005"] ∧
    row_sums tracts ["dummy_county_001"; "dummy_county_003"; "dummy_county_005"]
    = Some (ones tracts) ∧
    county_dummies object tracts = Some ["dummy_county_003"; "dummy_county_005"] ∧
    row_sums tracts ["dummy_county_003"; "dummy_county_005"] = Some [0; 1; 1; 1; 1].
Proof.
  eexists _, _. split; [vm_compute; reflexivity|].
  split; [vm_compute; reflexivity|].
  repeat split; vm_compute; reflexivity.
Qed.

(** C9, at the failing input.  Five tracts, the first alone in its county
    and without household income: the first county's dummy is left out of
    the list, the null-dropping removes the only row of that county, and
    the dummy columns of the design matrix sum, row by row, to the column
    of ones. *)
Theorem county_dummies_collinear_after_dropna :
  ∃ X ds,
    fixed_effects Samples.tract_columns Samples.tract_rows = Some (X, ds) ∧
    ds = ["dummy_county_003"; "dummy_county_005"] ∧
    index X = [1; 2; 3; 4] ∧
    row_sums X ds = Some (ones X) ∧
    ones X = [1; 1; 1; 1].
Proof.
  eexists _, _. split; [vm_compute; reflexivity|].
  repeat split; vm_compute; reflexivity.
Qed.

End Dummies.

(** ** Frames, dummies and regimes column by column (module 10) *)

Section FrameFacts.
Import Pandas Module10 Frames.

Lemma col_values_Some df n vs :
  col_values df n = Some vs ↔
  ∃ p, col_pos n (columns df) = Some p ∧ vs = (λ ir, cell_at ir.2 p) <$> rows df.
Proof.
  unfold col_values, getitem_col. split.
  - intros (s & Hs & ->)%fmap_Some. apply bind_Some in Hs as (p & Hp & [= <-]).
    exists p. split; [done|]. by rewrite <- list_fmap_compose.
  - intros (p & Hp & ->). rewrite Hp. cbn. by rewrite <- list_fmap_compose.
Qed.

Lemma col_values_None df n : col_values df n = None ↔ col_pos n (columns df) = None.
Proof.
  unfold col_values, getitem_col. destruct (col_pos n (columns df)); cbn; done.
Qed.

Lemma col_pos_lookup n cols p : col_pos n cols = Some p → cols !! p = Some n.
Proof.
  revert p. induction cols as [|c cs IH]; intros p H; [done|].
  simpl in H. case_decide; [by injection H as <-; subst|].
  apply fmap_Some in H as (q & Hq & ->). simpl. by apply IH.
Qed.

Lemma col_pos_None n cols : col_pos n cols = None ↔ n ∉ cols.
Proof.
  split.
  - intros H Hin. apply col_pos_Some in Hin as [p Hp]. congruence.
  - intros Hn. destruct (col_pos n cols) as [p|] eqn:Hp; [|done].
    apply col_pos_elem in Hp. done.
Qed.

Lemma col_pos_app_l n cols more :
  n ∈ cols → col_pos n (cols ++ more) = col_pos n cols.
Proof.
  induction cols as [|c cs IH]; intros Hin; [by apply elem_of_nil in Hin|].
  simpl. case_decide; [done|].
  apply elem_of_cons in Hin as [->|Hin]; [done|]. by rewrite IH.
Qed.

Lemma col_pos_app_new n cols : n ∉ cols → col_pos n (cols ++ [n]) = Some (length cols).
Proof.
  induction cols as [|c cs IH]; intros Hn; simpl.
  - by rewrite decide_True.
  - apply not_elem_of_cons in Hn as [Hne Hn].
    rewrite decide_False by done. by rewrite IH.
Qed.

Lemma col_pos_app_other n c cols :
  c ≠ n → col_pos c (cols ++ [n]) = col_pos c cols.
Proof.
  intros Hne. induction cols as [|c' cs IH]; simpl.
  - by rewrite decide_False.
  - case_decide; [done|]. by rewrite IH.
Qed.

Lemma fmap_eq_pointwise {A B} (f g : A → B) (l : list A) :
  f <$> l = g <$> l → ∀ x, x ∈ l → f x = g x.
Proof.
  induction l as [|a l IH]; intros Heq x Hx; [by apply elem_of_nil in Hx|].
  rewrite !fmap_cons in Heq. injection Heq as Ha Hl.
  apply elem_of_cons in Hx as [->|Hx]; [done|]. by apply IH.
Qed.

(** Column assignment on a well-formed frame: the frame stays well-formed,
    the column reads back as assigned, and every other column is as it
    was. *)
Lemma setitem_spec df n vals :
  well_formed df → length vals = length (rows df) →
  well_formed (setitem df n vals) ∧
  index (setitem df n vals) = index df ∧
  col_values (setitem df n vals) n = Some vals ∧
  (∀ c, c ≠ n → col_values (setitem df n vals) c = col_values df c).
Proof.
  intros Hwf Hlen. split; [|split; [by apply setitem_index|]].
  - unfold well_formed, setitem in *.
    destruct (col_pos n (columns df)) as [p|]; simpl;
      revert vals Hlen; induction Hwf as [|[i r] rs Hr _ IH];
      intros [|v vals] Hlen; simpl in *; try done; constructor;
        try (apply IH; lia); simpl.
    + by rewrite length_insert.
    + rewrite !length_app. simpl. lia.
  - unfold setitem. destruct (col_pos n (columns df)) as [p|] eqn:Hp.
    + assert (p < length (columns df))%nat as Hlt
        by (eapply lookup_lt_Some, col_pos_lookup; done).
      split.
      * apply col_values_Some. exists p. split; [done|]. simpl.
        unfold well_formed in Hwf. revert vals Hlen.
        induction Hwf as [|[i r] rs Hr _ IH]; intros [|v vals] Hlen;
          simpl in *; try done.
        f_equal; [|apply IH; lia]. unfold cell_at.
        rewrite list_lookup_insert_eq; [done|lia].
      * intros c Hc. unfold col_values, getitem_col. simpl.
        destruct (col_pos c (columns df)) as [q|] eqn:Hq; [|done]. cbn.
        f_equal. rewrite <- !list_fmap_compose.
        assert (p ≠ q) as Hpq.
        { intros ->. apply col_pos_lookup in Hp, Hq. congruence. }
        unfold well_formed in Hwf. revert vals Hlen.
        induction Hwf as [|[i r] rs Hr _ IH]; intros [|v vals] Hlen;
          simpl in *; try done.
        f_equal; [|apply IH; lia]. unfold cell_at.
        by rewrite list_lookup_insert_ne.
    + apply col_pos_None in Hp. split.
      * apply col_values_Some. exists (length (columns df)).
        split; [by apply col_pos_app_new|]. simpl.
        unfold well_formed in Hwf. revert vals Hlen.
        induction Hwf as [|[i r] rs Hr _ IH]; intros [|v vals] Hlen;
          simpl in *; try done.
        f_equal; [|apply IH; lia]. unfold cell_at.
        rewrite lookup_app_r by lia. rewrite Hr, Nat.sub_diag. done.
      * intros c Hc. unfold col_values, getitem_col. simpl.
        rewrite col_pos_app_other by done.
        destruct (col_pos c (columns df)) as [q|] eqn:Hq; [|done]. cbn.
        f_equal. rewrite <- !list_fmap_compose.
        assert (q < length (columns df))%nat as Hlt
          by (eapply lookup_lt_Some, col_pos_lookup; done).
        unfold well_formed in Hwf. revert vals Hlen.
        induction Hwf as [|[i r] rs Hr _ IH]; intros [|v vals] Hlen;
          simpl in *; try done.
        f_equal; [|apply IH; lia]. unfold cell_at.
        rewrite lookup_app_l by lia. done.
Qed.


Lemma dummy_name_not_source_column dt k c :
  c = "COUNTYFP" ∨ c = response ∨ c ∈ predictors → dummy_name dt k ≠ c.
Proof.
  unfold dummy_name, predictors, response.
  rewrite !elem_of_cons, elem_of_nil.
  intros H Heq. simpl in Heq.
  destruct H as [->|[->|[->|[->|[->|[->|[->|[->|[]]]]]]]]]; discriminate.
Qed.

Lemma well_formed_read_file cols data :
  Forall (λ r, length r = length cols) data → well_formed (read_file cols data).
Proof.
  intros H. unfold well_formed, read_file. simpl.
  generalize (seqZ 0 (Z.of_nat (length data))). intros l. revert l.
  induction H as [|r rs Hr _ IH]; intros [|i l]; simpl; constructor; auto.
Qed.

Lemma well_formed_dropna_subset df subset t :
  well_formed df → dropna_subset df subset = Some t → well_formed t.
Proof.
  unfold dropna_subset, well_formed. intros Hwf H.
  apply bind_Some in H as (ps & _ & [= <-]). simpl.
  apply Forall_forall. intros x [_ Hx]%list_elem_of_filter.
  rewrite Forall_forall in Hwf. by apply Hwf.
Qed.

(** The dummy columns the loop adds, one county after the other. *)
Lemma add_dummies_spec dt ks : ∀ df col,
  well_formed df → col_values df "COUNTYFP" = Some col →
  ∃ t, add_dummies dt df ks = Some t ∧ well_formed t ∧
       (NoDup (dummy_name dt <$> ks) →
        ∀ k, k ∈ ks → col_values t (dummy_name dt k) = Some (dummy_values col k)) ∧
       (∀ c, c ∉ dummy_name dt <$> ks → col_values t c = col_values df c).
Proof.
  induction ks as [|k ks IH]; intros df col Hwf Hcol.
  - exists df. split; [done|]. split; [done|]. split; [|done].
    intros _ k Hk. by apply elem_of_nil in Hk.
  - assert (length (dummy_values col k) = length (rows df)) as Hlen.
    { apply col_values_Some in Hcol as (p & _ & ->).
      unfold dummy_values. by rewrite !length_fmap. }
    destruct (setitem_spec df (dummy_name dt k) _ Hwf Hlen)
      as (Hwf1 & _ & Hset & Hother).
    assert (add_dummy dt df k = Some (setitem df (dummy_name dt k) (dummy_values col k)))
      as Hadd.
    { unfold add_dummy. unfold col_values in Hcol.
      apply fmap_Some in Hcol as (s & -> & ->). done. }
    destruct (IH (setitem df (dummy_name dt k) (dummy_values col k)) col Hwf1)
      as (t & Ht & Hwft & Hks & Hrest).
    { rewrite Hother; [done|]. intros Heq.
      by eapply dummy_name_not_source_column; [left|]. }
    exists t. split; [by simpl; rewrite Hadd|]. split; [done|]. split.
    + rewrite fmap_cons. intros [Hk Hnd]%NoDup_cons.
      intros k' [->|Hk']%elem_of_cons; [|by apply Hks].
      by rewrite Hrest.
    + rewrite fmap_cons. intros c [Hc1 Hc2]%not_elem_of_cons.
      rewrite Hrest by done. apply Hother. congruence.
Qed.

Lemma mapM_col_pos_Some (cols names : list string) :
  names ⊆ cols →
  ∃ ps, mapM (λ n, col_pos n cols) names = Some ps ∧
        Forall2 (λ n p, col_pos n cols = Some p) names ps.
Proof.
  intros Hsub. induction names as [|n names IH].
  - by exists [].
  - destruct IH as (ps & Hps & Hall).
    { intros x Hx. apply Hsub. by right. }
    destruct (col_pos_Some n cols) as [p Hp]; [apply Hsub; by left|].
    exists (p :: ps). split; [|by constructor].
    rewrite mapM_Some. constructor; [done|]. by apply mapM_Some.
Qed.

Lemma mapM_col_pos_Forall2 (cols names : list string) ps :
  mapM (λ n, col_pos n cols) names = Some ps →
  Forall2 (λ n p, col_pos n cols = Some p) names ps.
Proof. intros H. by apply mapM_Some in H. Qed.

(** The row sums of columns whose cells are known row by row; the rows
    are given as the image of a list [src]. *)
Lemma row_sums_pointwise {A} cols (g : A → Z * list cell) (src : list A)
    ks (name : cell → string) (f : A → cell → Z) :
  (∀ k, k ∈ ks → ∃ p, col_pos (name k) cols = Some p ∧
                     ∀ a, a ∈ src → cell_at (g a).2 p = Num (f a k)) →
  row_sums (mkDF cols (g <$> src)) (name <$> ks)
  = Some ((λ a, foldr Z.add 0 (f a <$> ks)) <$> src).
Proof.
  intros H. unfold row_sums. simpl.
  assert (∃ ps, mapM (λ n, col_pos n cols) (name <$> ks) = Some ps ∧
                ∀ a, a ∈ src →
                  (λ p, num_of (cell_at (g a).2 p)) <$> ps = f a <$> ks)
    as (ps & -> & Hps).
  { induction ks as [|k ks IH].
    - by exists [].
    - destruct IH as (ps & Hps & Hrows).
      { intros k' Hk'. apply H. by right. }
      destruct (H k) as (p & Hp & Hcells); [by left|].
      exists (p :: ps). split.
      + rewrite fmap_cons. rewrite mapM_Some. constructor; [done|].
        by apply mapM_Some.
      + intros a Ha. rewrite !fmap_cons. rewrite (Hrows a Ha).
        by rewrite (Hcells a Ha). }
  cbn. f_equal. rewrite <- list_fmap_compose.
  apply Forall_fmap_ext_1, Forall_forall.
  intros a Ha. simpl. by rewrite Hps.
Qed.

Lemma indicator_sum_nan ks : foldr Z.add 0 (indicator NaN <$> ks) = 0.
Proof. induction ks as [|k ks IH]; [done|]. rewrite fmap_cons. simpl. done. Qed.

Lemma col_values_rows df n vs p :
  col_values df n = Some vs → col_pos n (columns df) = Some p →
  vs = (λ ir, cell_at ir.2 p) <$> rows df.
Proof.
  intros (q & Hq & ->)%col_values_Some Hp.
  assert (q = p) as -> by congruence. done.
Qed.

(** The loop of 2a on a well-formed frame: one 0/1 column per county, the
    other columns and the index as they were. *)
Lemma add_county_dummies_spec dt tracts col :
  well_formed tracts → col_values tracts "COUNTYFP" = Some col →
  NoDup (dummy_name dt <$> unique col) →
  ∃ t, add_county_dummies dt tracts = Some t ∧
       index t = index tracts ∧
       (∀ k, k ∈ col → col_values t (dummy_name dt k) = Some (dummy_values col k)) ∧
       (∀ c, c ∉ dummy_name dt <$> unique col → col_values t c = col_values tracts c) ∧
       all_county_dummies dt t = Some (dummy_name dt <$> unique col).
Proof.
  intros Hwf Hcol Hnd.
  destruct (add_dummies_spec dt (unique col) tracts col Hwf Hcol)
    as (t & Ht & Hwft & Hks & Hrest).
  assert (add_county_dummies dt tracts = Some t) as Hadd.
  { unfold add_county_dummies. unfold col_values in Hcol.
    apply fmap_Some in Hcol as (s & -> & ->). done. }
  assert (col_values t "COUNTYFP" = Some col) as Hcolt.
  { rewrite Hrest; [done|]. intros (k & Hk & _)%list_elem_of_fmap.
    by eapply dummy_name_not_source_column; [left|]. }
  exists t. split; [done|]. split; [by eapply add_dummies_index|].
  split; [intros k Hk; apply Hks; [done|by apply elem_of_unique]|].
  split; [done|].
  unfold all_county_dummies. unfold col_values in Hcolt.
  apply fmap_Some in Hcolt as (s & -> & ->). done.
Qed.

(** X9.  The loop of cell 848 (module 10) on a frame whose rows all have one
    cell per column and whose column [COUNTYFP] has dtype [dt] (strings and
    nulls for object, integers for int64, whole numbers below [2^53] and
    [nan] for float64), when the f-string gives no two counties the same
    column name (a county is printed as an element of a column of that
    dtype: a string as it is, a null as [None] or [nan], a number as [3] or
    [3.0]): the loop succeeds, keeps the index, leaves every other column
    as it was and sets, for each county, the column [dummy_county_<county>]
    to 1 on the rows of that county and 0 elsewhere; the dummies of a row
    sum to 1 when the row has a county and to 0 when its county is
    missing. *)
Theorem county_dummy_columns dt tracts col :
  well_formed tracts → col_values tracts "COUNTYFP" = Some col →
  has_dtype dt col →
  NoDup (dummy_name dt <$> unique col) →
  ∃ t, add_county_dummies dt tracts = Some t ∧
       index t = index tracts ∧
       (∀ k, k ∈ col → col_values t (dummy_name dt k) = Some (dummy_values col k)) ∧
       (∀ c, c ∉ dummy_name dt <$> unique col → col_values t c = col_values tracts c) ∧
       row_sums t (dummy_name dt <$> unique col)
       = Some ((λ c, if notna c then 1 else 0) <$> col).
Proof.
  intros Hwf Hcol _ Hnd.
  destruct (add_county_dummies_spec dt tracts col Hwf Hcol Hnd)
    as (t & Hadd & Hidx & Hks & Hrest & _).
  assert (col_values t "COUNTYFP" = Some col) as Hcolt.
  { rewrite Hrest; [done|]. intros (k & Hk & _)%list_elem_of_fmap.
    by eapply dummy_name_not_source_column; [left|]. }
  exists t. split; [done|]. split; [done|]. split; [done|]. split; [done|].
  pose proof Hcolt as (pC & HpC & Hcells)%col_values_Some.
  destruct t as [cols rs]. simpl in *.
  rewrite <- (list_fmap_id rs) at 1.
  rewrite (row_sums_pointwise cols id rs (unique col) (dummy_name dt)
             (λ ir k, indicator (cell_at ir.2 pC) k)).
  - f_equal.
    trans ((λ c : cell, if notna c then 1 else 0)
             <$> ((λ ir : Z * list cell, cell_at ir.2 pC) <$> rs));
      [|by rewrite <- Hcells].
    rewrite <- list_fmap_compose.
    apply Forall_fmap_ext_1, Forall_forall. intros ir Hir. simpl.
    destruct (cell_at ir.2 pC) eqn:Hc.
    + apply indicator_sum_nan.
    + apply full_dummies_sum_to_one; [|done].
      rewrite Hcells, list_elem_of_fmap. by exists ir.
    + apply full_dummies_sum_to_one; [|done].
      rewrite Hcells, list_elem_of_fmap. by exists ir.
  - intros k Hk. assert (k ∈ col) as Hkc by (by apply elem_of_unique).
    specialize (Hks k Hkc).
    apply col_values_Some in Hks as (p & Hp & Hvals). simpl in *.
    exists p. split; [done|]. intros ir Hir. simpl.
    unfold dummy_values in Hvals. rewrite Hcells in Hvals.
    rewrite <- list_fmap_compose in Hvals.
    symmetry. by apply (fmap_eq_pointwise _ _ _ Hvals).
Qed.

(** *** Design matrices row by row *)

Lemma filter_fmap_comm {A B} (f : A → B) (P : B → bool) (l : list A) :
  filter (λ y, P y) (f <$> l) = f <$> filter (λ x, P (f x)) l.
Proof.
  induction l as [|x l IH]; [done|].
  rewrite fmap_cons, !filter_cons, IH. by destruct (P (f x)).
Qed.

Lemma mask_rows_fmap {A B} (f : A → B) mask (l : list A) :
  mask_rows mask (f <$> l) = f <$> mask_rows mask l.
Proof.
  revert l. induction mask as [|[] mask IH]; intros [|x l]; simpl; try done.
  by rewrite IH.
Qed.

(** The rows of [tracts[names].dropna()]: the rows of the frame that have
    no missing value in the selected columns, restricted to them. *)
Lemma design_rows tracts names X :
  design tracts names = Some X →
  ∃ ps, Forall2 (λ n p, col_pos n (columns tracts) = Some p) names ps ∧
        X = mkDF names (select ps <$> filter (λ ir, complete_row ps ir) (rows tracts)).
Proof.
  unfold design, getitem_cols. intros (sel & Hsel & ->)%fmap_Some.
  apply bind_Some in Hsel as (ps & Hps & [= <-]).
  exists ps. split; [by apply mapM_Some|].
  unfold dropna. simpl. f_equal.
  apply (filter_fmap_comm (select ps) (λ ir, forallb notna ir.2)).
Qed.

Lemma design_regimes_rows tracts mask names X :
  design_regimes tracts mask names = Some X →
  ∃ ps, Forall2 (λ n p, col_pos n (columns tracts) = Some p) names ps ∧
        length mask = length (rows tracts) ∧
        X = mkDF names (select ps <$> filter (λ ir, complete_row ps ir)
                                          (mask_rows mask (rows tracts))).
Proof.
  unfold design_regimes, loc_mask_cols, getitem_cols.
  intros (sel & Hsel & ->)%fmap_Some.
  case_decide as Hlen; [|done].
  apply bind_Some in Hsel as (sel' & Hsel' & [= <-]).
  apply bind_Some in Hsel' as (ps & Hps & [= <-]).
  exists ps. split; [by apply mapM_Some|]. split; [done|].
  unfold dropna. simpl. f_equal. rewrite mask_rows_fmap.
  apply (filter_fmap_comm (select ps) (λ ir, forallb notna ir.2)).
Qed.

(** [tracts.loc[labels]] at the labels of some of the frame's rows, the
    index having no duplicate: these rows. *)
Lemma loc_rows_of df (sub : list (Z * list cell)) :
  NoDup (index df) → (∀ x, x ∈ sub → x ∈ rows df) →
  loc df sub.*1 = Some (mkDF (columns df) sub).
Proof.
  intros Hnd Hsub. unfold loc.
  assert (mapM (λ l, match rows_with l (rows df) with
                     | [] => None | m => Some m end) sub.*1
          = Some ((λ x, [x]) <$> sub)) as ->.
  { apply mapM_Some. induction sub as [|[l r] sub IH]; [constructor|].
    rewrite !fmap_cons. constructor.
    - simpl. rewrite (rows_with_unique (rows df) l r Hnd); [done|].
      apply Hsub. by left.
    - apply IH. intros x Hx. apply Hsub. by right. }
  cbn. do 2 f_equal. induction sub as [|x sub IH]; [done|].
  rewrite fmap_cons. simpl. f_equal. apply IH.
  intros y Hy. apply Hsub. by right.
Qed.

Lemma select_index ps (l : list (Z * list cell)) : (select ps <$> l).*1 = l.*1.
Proof. by rewrite <- list_fmap_compose. Qed.

Lemma select_cell cols names ps n q p ir :
  Forall2 (λ n p, col_pos n cols = Some p) names ps →
  col_pos n names = Some q → col_pos n cols = Some p →
  cell_at (select ps ir).2 q = cell_at ir.2 p.
Proof.
  intros Hall Hq Hp. apply col_pos_lookup in Hq.
  destruct (Forall2_lookup_l _ _ _ _ _ Hall Hq) as (p' & Hp' & Hpos).
  assert (p' = p) as -> by congruence.
  unfold select, cell_at at 1. simpl. rewrite list_lookup_fmap, Hp'. done.
Qed.


Lemma load_tracts_spec cols data tracts :
  Forall (λ r, length r = length cols) data →
  load_tracts cols data = Some tracts →
  well_formed tracts ∧ NoDup (index tracts) ∧
  ∃ p, col_pos response (columns tracts) = Some p ∧
       ∀ ir, ir ∈ rows tracts → notna (cell_at ir.2 p) = true.
Proof.
  intros Hrect Hload. split; [|split].
  - eapply well_formed_dropna_subset; [|done]. by apply well_formed_read_file.
  - by destruct (tracts_invariant object cols data tracts tracts Hload); [left|].
  - unfold load_tracts, dropna_subset in Hload.
    apply bind_Some in Hload as (ps & Hps & [= <-]). simpl in *.
    apply bind_Some in Hps as (p & Hp & [= <-]). exists p. split; [done|].
    intros ir [Hir _]%list_elem_of_filter. simpl in Hir.
    by destruct (notna (cell_at ir.2 p)).
Qed.

Lemma response_complete dt cols data tracts0 tracts :
  Forall (λ r, length r = length cols) data →
  load_tracts cols data = Some tracts0 →
  tracts = tracts0 ∨ add_county_dummies dt tracts0 = Some tracts →
  ∃ p, col_pos response (columns tracts) = Some p ∧
       ∀ ir, ir ∈ rows tracts → notna (cell_at ir.2 p) = true.
Proof.
  intros Hrect Hload Hcase.
  destruct (load_tracts_spec _ _ _ Hrect Hload) as (Hwf & _ & p0 & Hp0 & Hna).
  destruct Hcase as [->|Hadd]; [by exists p0|].
  unfold add_county_dummies in Hadd.
  apply bind_Some in Hadd as (s & Hs & Hadd).
  destruct (add_dummies_spec dt (unique s.*2) tracts0 s.*2 Hwf)
    as (t & Ht & _ & _ & Hrest).
  { unfold col_values. by rewrite Hs. }
  assert (t = tracts) as -> by congruence.
  assert (col_values tracts response = col_values tracts0 response) as Heq.
  { apply Hrest. intros (k & Hk & _)%list_elem_of_fmap.
    by eapply dummy_name_not_source_column; [right; left|]. }
  destruct (col_values tracts0 response) as [vs|] eqn:Hvs.
  - apply col_values_Some in Heq as (p & Hp & Hvals).
    exists p. split; [done|].
    rewrite (col_values_rows _ _ _ _ Hvs Hp0) in Hvals.
    apply add_dummies_index in Ht. intros ir Hir.
    assert (Forall (λ c, notna c = true)
              ((λ ir, cell_at ir.2 p) <$> rows tracts)) as Hall.
    { rewrite <- Hvals. apply Forall_fmap, Forall_forall. intros x Hx.
      by apply Hna. }
    rewrite Forall_fmap, Forall_forall in Hall. by apply Hall.
  - apply col_values_None in Hvs. congruence.
Qed.

(** X8.  Module 10, cells 755, 796 and 872.  Neither the design matrix
    [X = tracts[names].dropna()] nor the response [y] taken at its labels
    holds a missing value, and they have the same number of rows -- for the
    frame as loaded and for the frame with the county dummies. *)
Theorem design_and_response_complete dt cols data tracts0 tracts names X y :
  Forall (λ r, length r = length cols) data →
  load_tracts cols data = Some tracts0 →
  tracts = tracts0 ∨ add_county_dummies dt tracts0 = Some tracts →
  design tracts names = Some X →
  response_vector tracts (index X) = Some y →
  Forall (λ ir, Forall (λ c, notna c = true) ir.2) (rows X) ∧
  Forall (λ ic, notna ic.2 = true) y ∧
  length y = length (rows X).
Proof.
  intros Hrect Hload Hcase HX Hy.
  destruct (tracts_invariant _ _ _ _ _ Hload Hcase) as [Hnd _].
  destruct (response_complete _ _ _ _ _ Hrect Hload Hcase) as (p & Hp & Hna).
  apply design_rows in HX as (ps & Hps & ->).
  unfold response_vector, index in Hy. simpl in Hy.
  rewrite select_index in Hy.
  rewrite loc_rows_of in Hy; [|done|by intros x [_ Hx]%list_elem_of_filter].
  cbn in Hy. unfold getitem_col in Hy. simpl in Hy. rewrite Hp in Hy.
  injection Hy as <-. simpl. split; [|split].
  - apply Forall_fmap, Forall_forall. intros ir [Hir _]%list_elem_of_filter.
    unfold complete_row in Hir. simpl.
    apply Forall_forall. intros c Hc.
    apply forallb_True in Hir.
    rewrite Forall_forall in Hir. by apply Is_true_true, Hir.
  - apply Forall_fmap, Forall_forall. intros ir [_ Hir]%list_elem_of_filter.
    simpl. by apply Hna.
  - by rewrite !length_fmap.
Qed.

Lemma fmap_replicate_ones {A} (f : A → Z) (l : list A) :
  f <$> l = replicate (length l) 1 ↔ Forall (λ x, f x = 1) l.
Proof.
  induction l as [|x l IH].
  - split; [constructor|done].
  - rewrite fmap_cons, Forall_cons, <- IH. cbn [length replicate]. split.
    + intros [= ? ?]. done.
    + intros [-> ->]. done.
Qed.

Lemma kept_indicator_one c k0 :
  (if notna c && negb (cell_eqb c k0) then 1 else 0) = 1 ↔ c ≠ NaN ∧ c ≠ k0.
Proof.
  destruct (decide (c = NaN)) as [->|Hc].
  { simpl. split; [done|]. by intros [? _]. }
  rewrite cell_eqb_eq by done.
  replace (notna c) with true by (by destruct c).
  case_bool_decide; simpl; split; try done.
  by intros [_ ?].
Qed.

(** X10.  Cells 848 to 872 of module 10, for a column [COUNTYFP] of dtype
    [dt] to whose counties the f-string gives different column names.  The
    list of kept dummies is the names of all counties but the first, each
    printed as an element of a column of that dtype.  On the rows of the
    fixed-effects design matrix the kept dummies sum to 0 on a row of the
    first county or without county, and to 1 on any other row.  So their
    sum is the constant column of [add_constant] exactly when no row of the
    first county (and none without county) survives [dropna]. *)
Theorem kept_dummies_row_sums dt tracts0 tracts col k0 rest ps X :
  well_formed tracts0 → NoDup (index tracts0) →
  col_values tracts0 "COUNTYFP" = Some col →
  has_dtype dt col →
  NoDup (dummy_name dt <$> unique col) →
  unique col = k0 :: rest →
  add_county_dummies dt tracts0 = Some tracts →
  design tracts (ps ++ (dummy_name dt <$> rest)) = Some X →
  county_dummies dt tracts = Some (dummy_name dt <$> rest) ∧
  ∃ regimes,
    regimes_vector tracts (index X) = Some regimes ∧
    row_sums X (dummy_name dt <$> rest)
    = Some ((λ ic, if notna ic.2 && negb (cell_eqb ic.2 k0) then 1 else 0)
              <$> regimes) ∧
    (row_sums X (dummy_name dt <$> rest) = Some (ones X) ↔
     Forall (λ ic, ic.2 ≠ NaN ∧ ic.2 ≠ k0) regimes).
Proof.
  intros Hwf Hnd Hcol _ Hnames Huniq Hadd HX.
  destruct (add_county_dummies_spec dt tracts0 col Hwf Hcol Hnames)
    as (t & Ht & Hidx & Hks & Hrest & Hall).
  assert (t = tracts) as -> by congruence. clear Ht.
  assert (col_values tracts "COUNTYFP" = Some col) as Hcolt.
  { rewrite Hrest; [done|]. intros (k & Hk & _)%list_elem_of_fmap.
    by eapply dummy_name_not_source_column; [left|]. }
  split.
  { unfold county_dummies. rewrite Hall, Huniq. done. }
  apply col_values_Some in Hcolt as (pC & HpC & Hcells).
  apply design_rows in HX as (pss & Hpss & ->).
  set (kept := filter (λ ir, complete_row pss ir) (rows tracts)).
  assert (∀ x, x ∈ kept → x ∈ rows tracts) as Hkept
    by (by intros x [_ Hx]%list_elem_of_filter).
  exists ((λ ir, (ir.1, cell_at ir.2 pC)) <$> kept).
  assert (NoDup (k0 :: rest)) as Hndk by (rewrite <- Huniq; apply unique_NoDup).
  apply NoDup_cons in Hndk as [Hk0 Hndr].
  assert (∀ ir, ir ∈ kept →
            foldr Z.add 0 (indicator (cell_at ir.2 pC) <$> rest)
            = if notna (cell_at ir.2 pC) && negb (cell_eqb (cell_at ir.2 pC) k0)
              then 1 else 0) as Hsum.
  { intros ir Hir.
    assert (cell_at ir.2 pC ∈ k0 :: rest) as Hin.
    { rewrite <- Huniq. apply elem_of_unique. rewrite Hcells.
      apply list_elem_of_fmap. exists ir. split; [done|]. by apply Hkept. }
    destruct (decide (cell_at ir.2 pC = NaN)) as [->|Hc].
    { by rewrite indicator_sum_nan. }
    rewrite (cell_eqb_eq _ k0 Hc).
    replace (notna (cell_at ir.2 pC)) with true
      by (by destruct (cell_at ir.2 pC)).
    apply elem_of_cons in Hin as [Heq|Hin].
    - rewrite Heq, bool_decide_eq_true_2 by done. simpl.
      by apply indicator_sum_absent.
    - rewrite bool_decide_eq_false_2
        by (intros Heq; by rewrite Heq in Hin).
      simpl. by apply indicator_sum_once. }
  assert (row_sums (mkDF (ps ++ (dummy_name dt <$> rest)) (select pss <$> kept))
            (dummy_name dt <$> rest)
          = Some ((λ ic : Z * cell,
                     if notna ic.2 && negb (cell_eqb ic.2 k0) then 1 else 0)
                    <$> ((λ ir, (ir.1, cell_at ir.2 pC)) <$> kept))) as Hrows.
  { rewrite (row_sums_pointwise _ (select pss) kept rest (dummy_name dt)
               (λ ir k, indicator (cell_at ir.2 pC) k)).
    - f_equal. rewrite <- list_fmap_compose.
      apply Forall_fmap_ext_1, Forall_forall. intros ir Hir. simpl.
      by apply Hsum.
    - intros k Hk.
      assert (k ∈ col) as Hkc
        by (apply elem_of_unique; rewrite Huniq; by right).
      specialize (Hks k Hkc).
      apply col_values_Some in Hks as (p & Hp & Hvals).
      destruct (col_pos_Some (dummy_name dt k) (ps ++ (dummy_name dt <$> rest)))
        as [q Hq].
      { apply elem_of_app. right. apply list_elem_of_fmap. by exists k. }
      exists q. split; [done|]. intros ir Hir.
      rewrite (select_cell _ _ _ _ _ _ ir Hpss Hq Hp).
      unfold dummy_values in Hvals. rewrite Hcells in Hvals.
      rewrite <- list_fmap_compose in Hvals.
      symmetry. apply (fmap_eq_pointwise _ _ _ Hvals). by apply Hkept. }
  split; [|split; [done|]].
  - unfold regimes_vector, index. simpl. rewrite select_index.
    rewrite loc_rows_of; [|by rewrite Hidx|done].
    cbn. unfold getitem_col. simpl. by rewrite HpC.
  - rewrite Hrows. unfold ones. simpl. rewrite !length_fmap.
    rewrite <- (length_fmap (λ ir : Z * list cell, (ir.1, cell_at ir.2 pC)) kept).
    split.
    + intros [= H]. apply fmap_replicate_ones in H.
      eapply Forall_impl; [done|]. intros [i c]. simpl.
      apply kept_indicator_one.
    + intros H. f_equal. apply fmap_replicate_ones.
      eapply Forall_impl; [done|]. intros [i c]. simpl.
      apply kept_indicator_one.
Qed.

(** X11.  Cells 907 and 918 of module 10.  The regimes vector is taken at the
    labels of the masked design matrix, row for row, and every regime is one
    of the (at most three) counties the mask was built from: the regimes
    model has at most three regimes. *)
Theorem regimes_within_selected_counties tracts col order names X :
  NoDup (index tracts) → col_values tracts "COUNTYFP" = Some col →
  design_regimes tracts (isin col (take 3 order)) names = Some X →
  ∃ regimes,
    regimes_vector tracts (index X) = Some regimes ∧
    s_index regimes = index X ∧
    Forall (λ ic, ic.2 ∈ take 3 order) regimes ∧
    (length (remove_dups regimes.*2) ≤ 3)%nat.
Proof.
  intros Hnd Hcol HX.
  apply col_values_Some in Hcol as (pC & HpC & Hcells).
  apply design_regimes_rows in HX as (ps & Hps & Hlen & ->).
  set (counties := take 3 order) in *.
  assert (mask_rows (isin col counties) (rows tracts)
          = filter (λ ir, bool_decide (cell_at ir.2 pC ∈ counties)) (rows tracts))
    as Hmask.
  { unfold isin. rewrite Hcells, <- list_fmap_compose.
    apply (mask_rows_filter
             (λ ir : Z * list cell, bool_decide (cell_at ir.2 pC ∈ counties))). }
  rewrite Hmask.
  set (kept := filter (λ ir, complete_row ps ir) _).
  assert (∀ x, x ∈ kept → x ∈ rows tracts ∧ cell_at x.2 pC ∈ counties) as Hkept.
  { intros x [_ [Hx1 Hx2]%list_elem_of_filter]%list_elem_of_filter.
    split; [done|]. by apply bool_decide_unpack in Hx1. }
  exists ((λ ir, (ir.1, cell_at ir.2 pC)) <$> kept).
  assert (Forall (λ ic : Z * cell, ic.2 ∈ counties)
            ((λ ir, (ir.1, cell_at ir.2 pC)) <$> kept)) as Hin.
  { apply Forall_fmap, Forall_forall. intros ir Hir. simpl. by apply Hkept. }
  split; [|split; [|split; [done|]]].
  - unfold regimes_vector, index. simpl. rewrite select_index.
    rewrite loc_rows_of; [|done|intros x Hx; by apply Hkept].
    cbn. unfold getitem_col. simpl. by rewrite HpC.
  - unfold s_index, index. simpl. rewrite select_index.
    by rewrite <- list_fmap_compose.
  - trans (length counties); [|unfold counties; rewrite length_take; lia].
    apply submseteq_length, NoDup_submseteq; [apply NoDup_remove_dups|].
    intros c Hc. apply (proj1 (elem_of_remove_dups _ _)) in Hc.
    apply list_elem_of_fmap in Hc as ([i c'] & -> & Hc).
    rewrite Forall_forall in Hin. by apply (Hin (i, c')).
Qed.

End FrameFacts.

(** ** The scatter series (module 04) *)

Section Scatter.
Import Pandas Module04 Charts Geo.

Lemma above_half_spec c :
  above_half c = true ↔ ∃ q, c = Some q ∧ (1 # 2 < q)%Q.
Proof.
  destruct c as [q|]; simpl.
  - unfold Qlt_bool. rewrite negb_true_iff. split.
    + intros Hle. exists q. split; [done|].
      apply Qnot_le_lt. intros H%Qle_bool_iff. congruence.
    + intros (q' & [= <-] & Hlt). apply not_true_is_false.
      intros H%Qle_bool_iff. by apply Qle_not_lt in H.
  - split; [done|]. by intros (q & ? & _).
Qed.

(** X5.  Cell 541 of module 04.  The two scatter series split the tracts: a
    tract is drawn as 'majority white' exactly when its [prop_white] is
    present and above one half, and as 'minority white' otherwise -- also
    when its [prop_white] is missing. *)
Theorem white_scatter_partition (df : list (Z * option Q)) :
  minority_white df ++ majority_white df ≡ₚ df ∧
  (∀ r, r ∈ majority_white df ↔ r ∈ df ∧ ∃ q, r.2 = Some q ∧ (1 # 2 < q)%Q) ∧
  (∀ r, r ∈ minority_white df ↔
        r ∈ df ∧ (r.2 = None ∨ ∃ q, r.2 = Some q ∧ (q <= 1 # 2)%Q)).
Proof.
  split; [|split].
  - apply mask_rows_partition. unfold white_mask. by rewrite length_fmap.
  - intros r. unfold majority_white, white_mask.
    by rewrite (mask_rows_fmap_elem (λ r, above_half r.2)), above_half_spec.
  - intros r. unfold minority_white, white_mask. rewrite <- list_fmap_compose.
    rewrite (mask_rows_fmap_elem (negb ∘ (λ r, above_half r.2))). simpl.
    rewrite negb_true_iff. split; intros [Hin H]; (split; [done|]).
    + destruct r.2 as [q|] eqn:Hq; [|by left]. right. exists q. split; [done|].
      apply Qnot_lt_le. intros Hlt.
      assert (above_half (Some q) = true) by (apply above_half_spec; eauto).
      congruence.
    + apply not_true_is_false. intros (q & Hq & Hlt)%above_half_spec.
      destruct H as [H|(q' & H & Hle)]; [congruence|].
      rewrite Hq in H. injection H as <-. by apply Qle_not_lt in Hle.
Qed.

End Scatter.

(** ** The two-stage query and the join against the contiguous states
       (module 06) *)

Section TwoStage.
Import Pandas Geo.
Context {geom : Type}.
Variable intersects : geom → geom → bool.
Variable bounds : geom → box.
Variable rtree_intersection : list box → box → list nat.

(** X7.  Cell 892 of module 06.  Whatever positions the spatial index
    returns, the rows the two-stage query keeps are rows of [rents] that
    intersect the geometry, no more of them than positions returned; the
    query fails (IndexError) exactly when the index returns a position past
    the end of [rents]. *)
Theorem two_stage_sound (rents : list (Z * geom)) (q : geom) :
  (∀ precise_matches,
     two_stage intersects bounds rtree_intersection rents q = Some precise_matches →
     Forall (λ r, r ∈ rents ∧ intersects r.2 q = true) precise_matches ∧
     (length precise_matches
      ≤ length (rtree_intersection ((λ r, bounds r.2) <$> rents) (bounds q)))%nat) ∧
  (two_stage intersects bounds rtree_intersection rents q = None ↔
   ∃ i, i ∈ rtree_intersection ((λ r, bounds r.2) <$> rents) (bounds q) ∧
        (length rents ≤ i)%nat).
Proof.
  unfold two_stage. cbv zeta.
  set (positions := rtree_intersection ((λ r, bounds r.2) <$> rents) (bounds q)).
  split.
  - intros pm Hpm. apply bind_Some in Hpm as (possible & Hiloc & [= <-]).
    unfold iloc in Hiloc. apply mapM_Some in Hiloc.
    unfold matches. rewrite mask_rows_filter. split.
    + apply Forall_forall. intros r [Hr Hin]%list_elem_of_filter.
      split; [|by destruct (intersects r.2 q)].
      apply list_elem_of_lookup in Hin as [j Hj].
      destruct (Forall2_lookup_r _ _ _ _ _ Hiloc Hj) as (i & _ & Hi).
      by eapply list_elem_of_lookup_2.
    + etrans; [apply length_filter|]. by rewrite (Forall2_length _ _ _ Hiloc).
  - unfold iloc. destruct (mapM (λ i, rents !! i) positions) as [possible|] eqn:Hm;
      cbn.
    + split; [done|]. intros (i & Hi & Hlen). exfalso.
      apply mapM_Some in Hm. apply list_elem_of_lookup in Hi as [j Hj].
      destruct (Forall2_lookup_l _ _ _ _ _ Hm Hj) as (r & _ & Hr).
      apply lookup_lt_Some in Hr. lia.
    + split; [|done]. intros _.
      destruct (decide (Forall (λ i, is_Some (rents !! i)) positions)) as [Hall|Hnot].
      * apply mapM_is_Some in Hall. rewrite Hm in Hall. by destruct Hall.
      * apply not_Forall_Exists in Hnot; [|apply _].
        apply Exists_exists in Hnot as (i & Hi & Hnone).
        exists i. split; [done|]. apply lookup_ge_None.
        by apply eq_None_not_Some.
Qed.

End TwoStage.

Section ContiguousFacts.
Import Pandas Geo Contiguous.
Context {P G : Type}.
Variable within : P → G → bool.

Lemma contiguous_states_elem (states : list (@state_row G)) s :
  s ∈ contiguous_states states ↔
  s ∈ states ∧ s.2.1 ≠ Str "Alaska" ∧ s.2.1 ≠ Str "Hawaii".
Proof.
  unfold contiguous_states, contiguous_mask.
  rewrite (mask_rows_fmap_elem
             (λ s : @state_row G, negb (cell_eqb s.2.1 (Str "Alaska"))
                                  && negb (cell_eqb s.2.1 (Str "Hawaii")))).
  rewrite andb_true_iff, !negb_true_iff.
  assert (∀ n, cell_eqb s.2.1 (Str n) = false ↔ s.2.1 ≠ Str n) as Hn.
  { intros n. destruct s.2.1 as [|z|a]; simpl; try done.
    by rewrite bool_decide_eq_false. }
  by rewrite !Hn.
Qed.

Lemma sjoin_left_elem {L R} (w : L → R → bool) left right i g o :
  (i, g, o) ∈ sjoin_left w left right ↔
  (i, g) ∈ left ∧
  match o with
  | Some j => ∃ r, (j, r) ∈ right ∧ w g r = true
  | None => ∀ j r, (j, r) ∈ right → w g r = false
  end.
Proof.
  unfold sjoin_left. rewrite list_elem_of_bind. split.
  - intros ([i' g'] & Hrow & Hin). simpl in Hrow.
    destruct (join_matches w g' right) as [|m ms] eqn:Hm.
    + apply list_elem_of_singleton in Hrow as [= -> -> ->]. split; [done|].
      intros j r Hr. destruct (w g' r) eqn:Hw; [|done]. exfalso.
      assert (j ∈ join_matches w g' right) as Hj.
      { unfold join_matches. apply list_elem_of_fmap. exists (j, r).
        split; [done|]. apply list_elem_of_filter. simpl. by rewrite Hw. }
      rewrite Hm in Hj. by apply elem_of_nil in Hj.
    + change ((i, g, o) ∈ (λ j, (i', g', Some j)) <$> (m :: ms)) in Hrow.
      rewrite <- Hm in Hrow.
      apply list_elem_of_fmap in Hrow as (j & [= -> -> ->] & Hj).
      split; [done|]. unfold join_matches in Hj.
      apply list_elem_of_fmap in Hj as ([j' r] & -> & [Hw Hr]%list_elem_of_filter).
      exists r. split; [done|]. simpl in Hw. by destruct (w g' r).
  - intros [Hin Ho]. exists (i, g). split; [|done]. simpl.
    destruct o as [j|].
    + destruct Ho as (r & Hr & Hw).
      assert (j ∈ join_matches w g right) as Hj.
      { unfold join_matches. apply list_elem_of_fmap. exists (j, r).
        split; [done|]. apply list_elem_of_filter. simpl. by rewrite Hw. }
      destruct (join_matches w g right) as [|m ms] eqn:Hm;
        [by apply elem_of_nil in Hj|].
      change ((i, g, Some j) ∈ (λ j, (i, g, Some j)) <$> (m :: ms)).
      apply list_elem_of_fmap. by exists j.
    + assert (join_matches w g right = []) as ->; [|by left].
      unfold join_matches.
      destruct (filter (λ jr, w g jr.2) right) as [|[j r] l] eqn:Hf; [done|].
      assert ((j, r) ∈ filter (λ jr, w g jr.2) right) as Hjr by (rewrite Hf; left).
      apply list_elem_of_filter in Hjr as [Hw Hr]. simpl in Hw.
      rewrite (Ho j r Hr) in Hw. done.
Qed.

(** X6.  Cells 366 and 818 of module 06.  The join is against the states
    other than Alaska and Hawaii: every listing is kept; a listing is paired
    only with states of another name that it lies within; and a listing that
    lies within no state but Alaska or Hawaii comes out with a missing
    [index_right]. *)
Theorem alaska_hawaii_listings_unmatched (rents : list (Z * P))
    (states : list (@state_row G)) :
  (∀ i p, (i, p) ∈ rents → ∃ o, (i, p, o) ∈ rents_states within rents states) ∧
  (∀ i p j, (i, p, Some j) ∈ rents_states within rents states →
     (i, p) ∈ rents ∧
     ∃ name g, (j, (name, g)) ∈ states ∧ within p g = true ∧
               name ≠ Str "Alaska" ∧ name ≠ Str "Hawaii") ∧
  (∀ i p, (i, p) ∈ rents →
     (∀ j name g, (j, (name, g)) ∈ states → within p g = true →
                  name = Str "Alaska" ∨ name = Str "Hawaii") →
     (i, p, None) ∈ rents_states within rents states ∧
     ∀ j, (i, p, Some j) ∉ rents_states within rents states).
Proof.
  unfold rents_states. split; [|split].
  - intros i p Hin.
    destruct (join_matches (λ p s, within p s.2) p (contiguous_states states))
      as [|m ms] eqn:Hm.
    + exists None. unfold sjoin_left. apply list_elem_of_bind.
      exists (i, p). split; [|done]. simpl. rewrite Hm. by left.
    + exists (Some m). unfold sjoin_left. apply list_elem_of_bind.
      exists (i, p). split; [|done]. simpl. rewrite Hm. by left.
  - intros i p j [Hin ([name g] & Hs & Hw)]%sjoin_left_elem. split; [done|].
    apply contiguous_states_elem in Hs as (Hs & Ha & Hh). eauto 10.
  - intros i p Hin Honly.
    assert (∀ j r, (j, r) ∈ contiguous_states states → within p r.2 = false) as Hnone.
    { intros j [name g] (Hs & Ha & Hh)%contiguous_states_elem. simpl in *.
      destruct (within p g) eqn:Hw; [|done].
      destruct (Honly j name g Hs Hw); congruence. }
    split.
    + apply sjoin_left_elem. by split.
    + intros j [_ (r & Hr & Hw)]%sjoin_left_elem.
      by rewrite (Hnone j r Hr) in Hw.
Qed.

End ContiguousFacts.

(** ** Rounding to hundredths *)

Section Rounding.
Import Notebook.

(** [round(x, 2)] is the binary64 nearest to the number of hundredths
    nearest to [x], the even one of the two when [x] is half-way. *)
Lemma round2_hundredths (x : Q) :
  ∃ n : Z, round2 x = Float64.nearest (inject_Z n / 100) ∧
           (Qabs (inject_Z n / 100 - x) <= 1 # 200)%Q ∧
           ((Qabs (inject_Z n / 100 - x) == 1 # 200)%Q → Z.even n = true).
Proof.
  exists (Float64.rne (x * 100)). split; [done|].
  pose proof (rne_close (x * 100)) as H.
  assert (Qabs (inject_Z (Float64.rne (x * 100)) / 100 - x)
          == Qabs (inject_Z (Float64.rne (x * 100)) - x * 100) * (1 # 100))%Q as Heq.
  { assert (inject_Z (Float64.rne (x * 100)) / 100 - x
            == (inject_Z (Float64.rne (x * 100)) - x * 100) * (1 # 100))%Q as ->
      by (unfold Qdiv; change (/ 100)%Q with (1 # 100)%Q; ring).
    rewrite Qabs_Qmult. done. }
  split.
  - rewrite Heq. lra.
  - intros Htie. apply rne_tie. rewrite Heq in Htie. lra.
Qed.

End Rounding.

(** ** Why a run stops *)

Section OutcomeFacts.
Import Notebook Outcomes.
Context {Value : Type}.
Variable lib : string → list Value → string + Value.
Variable reproject : CRS → CRS → Value → string + Value.
Variable latlong : Value → list (Q * Q).
Variable great_circle_miles : Q * Q → Q * Q → string + Q.
Variable with_column : Value → string → list Q → Value.

Local Abbreviation NB := (NB Value).
Local Abbreviation World := (World Value).

Lemma wpe_lib_call op args (Φ : Value → World → Prop) Ψ w :
  (∀ v, lib op args = inr v → Φ v w) →
  (∀ msg, lib op args = inl msg → Ψ (LibraryError op msg) w) →
  wp Value (lib_call Value lib op args) Φ Ψ w.
Proof. intros HΦ HΨ. unfold wp, lib_call. destruct (lib op args); auto. Qed.

Lemma wpe_read_data path (Φ : option CRS * Value → World → Prop) Ψ d n s :
  (∀ c v, d !! path = Some (DataFile Value c v) → Φ (c, v) (mkWorld Value d n s)) →
  (∀ dpi fig, d !! path = Some (ImageFile Value dpi fig) →
              Ψ (NotADataset path) (mkWorld Value d n s)) →
  (d !! path = None → Ψ (FileNotFound path) (mkWorld Value d n s)) →
  wp Value (read_data Value path) Φ Ψ (mkWorld Value d n s).
Proof.
  intros HΦ HΨ1 HΨ2. unfold wp, read_data. simpl.
  destruct (d !! path) as [[c v|dpi fig]|] eqn:Hd; eauto.
Qed.

Lemma wpe_to_crs src v dst (Φ : obj Value → World → Prop) Ψ w :
  (∀ v', Φ (Frame Value (Some dst) v') w) →
  (∀ msg, reproject src dst v = inl msg → Ψ (LibraryError "to_crs" msg) w) →
  wp Value (to_crs Value reproject (Frame Value (Some src) v) (Some dst)) Φ Ψ w.
Proof.
  intros HΦ HΨ. unfold wp. simpl.
  destruct (reproject src dst v) eqn:Hr; [by apply HΨ | apply HΦ].
Qed.

Lemma wpe_to_crs_naive v target (Φ : obj Value → World → Prop) Ψ w :
  Ψ NaiveGeometries w →
  wp Value (to_crs Value reproject (Frame Value None v) target) Φ Ψ w.
Proof. done. Qed.

Lemma wpe_first_two_distance o (Φ : Q → World → Prop) Ψ w :
  (∀ d, Φ d w) →
  (∀ a b msg, great_circle_miles a b = inl msg →
              Ψ (LibraryError "great_circle" msg) w) →
  ((length (latlong (data_of Value o)) < 2)%nat → Ψ (KeyError "loc") w) →
  wp Value (first_two_distance Value latlong great_circle_miles o) Φ Ψ w.
Proof.
  intros HΦ HΨ HK. unfold first_two_distance.
  destruct (latlong (data_of Value o)) as [|p0 [|p1 ?]];
    try (apply HK; simpl; lia).
  unfold wp, lift. destruct (great_circle_miles p0 p1) eqn:Hg; simpl; eauto.
Qed.

Lemma wpe_apply_get_distance rows (Φ : list Q → World → Prop) Ψ w :
  (∀ ds, Φ ds w) →
  (∀ a b msg, great_circle_miles a b = inl msg →
              Ψ (LibraryError "great_circle" msg) w) →
  wp Value (apply_rows Value (get_distance Value great_circle_miles) rows) Φ Ψ w.
Proof.
  intros HΦ HΨ. unfold wp.
  assert ((∃ ds, apply_rows Value (get_distance Value great_circle_miles) rows w
                 = (inr ds, w)) ∨
          (∃ a b msg, great_circle_miles a b = inl msg ∧
             apply_rows Value (get_distance Value great_circle_miles) rows w
             = (inl (LibraryError "great_circle" msg), w)))
    as [[ds ->]|(a & b & msg & Hg & ->)]; [|apply HΦ|by eapply HΨ].
  unfold apply_rows. set (F := get_distance Value great_circle_miles).
  induction rows as [|r rows IH]; [left; by exists []|].
  rewrite mapM_cons_run.
  destruct (great_circle_miles snell_library r) as [msg|dist] eqn:Hgc.
  - assert (F r w = (inl (LibraryError "great_circle" msg), w)) as ->.
    { subst F. unfold get_distance, mbind, NB_bind. by rewrite Hgc. }
    right. by exists snell_library, r, msg.
  - assert (F r w = (inr (round2 dist), w)) as ->.
    { subst F. unfold get_distance, mbind, NB_bind. by rewrite Hgc. }
    destruct IH as [[ds ->]|(a & b & msg & Hg & ->)]; [left|right]; eauto 6.
Qed.

Lemma explained_finished d (Φ : World → Prop) w :
  Φ w → explained lib reproject latlong great_circle_miles d Φ (run_cells Value [] w).
Proof. done. Qed.

End OutcomeFacts.

Section Traces.
Import Notebook Outcomes.
Context {Value : Type}.
Variable lib : string → list Value → string + Value.
Variable reproject : CRS → CRS → Value → string + Value.
Variable latlong : Value → list (Q * Q).
Variable great_circle_miles : Q * Q → Q * Q → string + Q.
Variable with_column : Value → string → list Q → Value.

Local Abbreviation nb04 := (module04 Value lib).
Local Abbreviation nb06 :=
  (module06 Value lib reproject latlong great_circle_miles with_column).
Local Abbreviation nb10 := (module10 Value lib).
Local Abbreviation explained' := (explained lib reproject latlong great_circle_miles).

Ltac in_inputs :=
  unfold inputs; repeat first [apply list_elem_of_here | apply list_elem_of_further].

Ltac because :=
  cbv beta; intros; cbn [explained caused];
  lazymatch goal with
  | |- _ ∈ inputs ∧ _ !! _ = None => split; [in_inputs | assumption]
  | |- _ ∈ inputs ∧ (∃ _ _, _) => split; [in_inputs | eauto]
  | |- (∃ _, _) ∨ _ =>
      first [ left; eexists; eassumption
            | right; left; split; [reflexivity|eauto]
            | right; right; split; [reflexivity|eauto] ]
  | |- ∃ _, _ !! "data/states_21basic/states.shp" = _ => eexists; eassumption
  | |- ∃ _ _ _, _ ∧ _ ∧ _ =>
      do 3 eexists; split; [eassumption|split; [eassumption|assumption]]
  end.

Ltac trace_step :=
  lazymatch goal with
  | |- wp _ (mbind _ _) _ _ _ => apply wp_bind
  | |- wp _ (mret _) _ _ _ => apply wp_ret
  | |- wp _ (get _ ?x) _ _ (mkWorld _ ?d ?n ?s) =>
      let r := eval vm_compute in (n !! x) in
      lazymatch r with
      | Some ?o => apply (wp_get x o); [vm_compute; reflexivity|]
      end
  | |- wp _ (mapM (get _) ?xs) _ _ (mkWorld _ ?d ?n ?s) =>
      let r := eval vm_compute in (mapM (λ x, n !! x) xs) in
      lazymatch r with
      | Some ?os => apply (wp_mapM_get xs os); [vm_compute; reflexivity|]
      end
  | |- wp _ (set _ _ _) _ _ _ => apply wp_set
  | |- wp _ (display _) _ _ _ => apply wp_display
  | |- wp _ (write _ _ _) _ _ _ => apply wp_write
  | |- wp _ (to_file _ (Frame _ _ _) _) _ _ _ => apply wp_to_file_frame
  | |- wp _ (lib_call _ _ _ _) _ _ _ => apply wpe_lib_call; [intros ? ?|because]
  | |- wp _ (read_data _ _) _ _ _ =>
      let Hf := fresh "Hf" in
      apply wpe_read_data;
        [ intros ? ? Hf; rewrite ?lookup_insert_ne in Hf by done
        | intros ? ? Hf; rewrite ?lookup_insert_ne in Hf by done; because
        | intros Hf; rewrite ?lookup_insert_ne in Hf by done; because ]
  | |- wp _ (to_crs _ _ (Frame _ (Some _) _) (Some _)) _ _ _ =>
      apply wpe_to_crs; [intros ?|because]
  | |- wp _ (to_crs _ _ (Frame _ None _) _) _ _ _ =>
      apply wpe_to_crs_naive; because
  | |- wp _ (to_crs _ _ (Frame _ ?c _) _) _ _ _ => destruct c
  | |- wp _ (crs_of _ (Frame _ _ _)) _ _ _ => apply wp_crs_of_frame
  | |- wp _ (first_two_distance _ _ _ _) _ _ _ =>
      apply wpe_first_two_distance; [intros ?|because|because]
  | |- wp _ (apply_rows _ (get_distance _ _) _) _ _ _ =>
      apply wpe_apply_get_distance; [intros ?|because]
  | |- wp _ (for_each _ [] _) _ _ _ => apply wp_for_each_nil
  | |- wp _ (for_each _ (_ :: _) _) _ _ _ => apply wp_for_each_cons
  | |- ?P (run_cells _ (_ :: _) _) => apply (run_step P)
  | |- _ (run_cells _ [] _) => apply explained_finished
  end;
  cbv beta.

Ltac trace :=
  unfold module04, module06, module10, fresh, cell06_134, cell06_164,
    cell06_207, cell06_520, cell06_562, cell06_582, cell06_622, cell06_669,
    cell06_682, cell06_716, cell06_755, cell06_788, cell06_809, cell10_651,
    design_cell, ols_cell, scatter_plot, cols04, subplots, unpack, show, exec,
    assign, derive, compute, gets, read_csv, read_file, savefig, define;
  repeat trace_step.

Lemma module04_explained d :
  explained' d (λ _, True) (run_cells Value nb04 (fresh Value d)).
Proof. trace. all: exact I. Qed.

Lemma module10_explained d :
  explained' d (λ _, True) (run_cells Value nb10 (fresh Value d)).
Proof. trace. all: exact I. Qed.

Lemma module06_explained d :
  explained' d (module06_final d) (run_cells Value nb06 (fresh Value d)).
Proof.
  trace.
  all: unfold module06_final, frame_crs; cbn [disk ns].
  all: do 6 eexists.
  all: split; [eassumption|]; split; [eassumption|]; split; [reflexivity|].
  all: repeat split; vm_compute; reflexivity.
Qed.

End Traces.

Section RunFacts.
Import Notebook Outcomes.
Context {Value : Type}.
Variable lib : string → list Value → string + Value.
Variable reproject : CRS → CRS → Value → string + Value.
Variable latlong : Value → list (Q * Q).
Variable great_circle_miles : Q * Q → Q * Q → string + Q.
Variable with_column : Value → string → list Q → Value.

Local Abbreviation NB := (NB Value).
Local Abbreviation World := (World Value).
Local Abbreviation nb04 := (module04 Value lib).
Local Abbreviation nb06 :=
  (module06 Value lib reproject latlong great_circle_miles with_column).
Local Abbreviation nb10 := (module10 Value lib).
Local Abbreviation all_notebooks :=
  (notebooks Value lib reproject latlong great_circle_miles with_column).

Lemma notebooks_explained d nb :
  nb ∈ all_notebooks →
  ∃ Φ, explained lib reproject latlong great_circle_miles d Φ
         (run_cells Value nb (fresh Value d)).
Proof.
  unfold notebooks. rewrite !elem_of_cons, elem_of_nil.
  intros [->|[->|[->|[]]]]; eexists.
  - apply module04_explained.
  - apply (module06_explained lib reproject latlong great_circle_miles with_column).
  - apply module10_explained.
Qed.

(** X12.  A notebook run from a fresh kernel stops only for a cause outside
    the notebook: an input file that is missing or is not a dataset, a
    points table with fewer than two rows, a states shapefile without
    reference system, or an exception raised by a library.  It never stops
    on an undefined name, on a missing attribute or on [to_crs] without a
    target: every name is bound before the cells that use it. *)
Theorem runs_halt_only_for_a_cause d nb n e w :
  nb ∈ all_notebooks →
  run_cells Value nb (fresh Value d) = Halted Value n e w →
  caused lib reproject latlong great_circle_miles d e.
Proof.
  intros Hnb Hrun. destruct (notebooks_explained d nb Hnb) as [Φ HΦ].
  by rewrite Hrun in HΦ.
Qed.

(** X13.  With the seven input files present as datasets, a reference system
    in the states shapefile, at least two rows in the points table and
    libraries that do not raise, each of the three notebooks runs to its
    last cell. *)
Theorem notebooks_run_to_completion d :
  (∀ p, p ∈ inputs → ∃ c v, d !! p = Some (DataFile Value c v)) →
  (∀ c v, d !! "data/states_21basic/states.shp" = Some (DataFile Value c v) →
          is_Some c) →
  (∀ c v0 v, d !! "data/usa-latlong.csv" = Some (DataFile Value c v0) →
             lib "gpd.GeoDataFrame(df)" [v0] = inr v →
             (2 ≤ length (latlong v))%nat) →
  (∀ op args msg, lib op args ≠ inl msg) →
  (∀ src dst v msg, reproject src dst v ≠ inl msg) →
  (∀ a b msg, great_circle_miles a b ≠ inl msg) →
  Forall (λ nb, ∃ w, run_cells Value nb (fresh Value d) = Finished Value w)
         all_notebooks.
Proof.
  intros Hin Hshp Hrows Hlib Hrep Hgc.
  apply Forall_forall. intros nb Hnb.
  destruct (notebooks_explained d nb Hnb) as [Φ HΦ].
  destruct (run_cells Value nb (fresh Value d)) as [w|n e w]; [by exists w|].
  exfalso. destruct e; simpl in HΦ; try done.
  - destruct HΦ as [Hp Hnone]. destruct (Hin _ Hp) as (c & v & Hsome). congruence.
  - destruct HΦ as [Hp (dpi & fig & Himg)].
    destruct (Hin _ Hp) as (c & v & Hsome). congruence.
  - destruct HΦ as (c & v0 & v & Hf & Hl & Hlen).
    specialize (Hrows c v0 v Hf Hl). lia.
  - destruct HΦ as [v Hf]. by destruct (Hshp None v Hf).
  - destruct HΦ as [[args H]|[[_ (src & dst & v & H)]|[_ (a & b & H)]]].
    + by eapply Hlib.
    + by eapply Hrep.
    + by eapply Hgc.
Qed.

(** X14.  When module 06 runs to its last cell: [states], [contiguous_states],
    [rents] and [rents_states] are in the reference system of the states
    shapefile, [california] and [cal_points] in UTM zone 11,
    [contiguous_states_proj] in the Albers projection and [usa_points] still
    in the original one (the projection of cell 669 is displayed, not
    kept); the disk is the initial one plus [data/states2], written with the
    reference system of [states.geojson], and [data/map.png] at 600 dpi. *)
Theorem module06_final_state d w :
  run_cells Value nb06 (fresh Value d) = Finished Value w →
  module06_final d w.
Proof.
  intros Hrun.
  pose proof (module06_explained lib reproject latlong great_circle_miles
                with_column d) as H.
  by rewrite Hrun in H.
Qed.

(** *** The two functions of the repository *)

Lemma get_distance_ok row miles (w : World) :
  great_circle_miles snell_library row = inr miles →
  get_distance Value great_circle_miles row w = (inr (round2 miles), w).
Proof. intros H. unfold get_distance, mbind, NB_bind, lift. by rewrite H. Qed.

(** X1.  [get_distance] (module 06, line 135) gives the great-circle
    distance from Snell Library to the row as [round(distance, 2)] gives
    it: the float nearest to a whole number of hundredths that is at most
    half a hundredth away from what geopy computed, the even number of
    hundredths when geopy's value is half-way; the world is unchanged.
    When geopy raises, the exception comes out as it is. *)
Theorem get_distance_rounds row (w : World) :
  match great_circle_miles snell_library row with
  | inr miles =>
      ∃ n : Z,
        get_distance Value great_circle_miles row w
        = (inr (Float64.nearest (inject_Z n / 100)), w) ∧
        (Qabs (inject_Z n / 100 - miles) <= 1 # 200)%Q ∧
        ((Qabs (inject_Z n / 100 - miles) == 1 # 200)%Q → Z.even n = true)
  | inl msg =>
      get_distance Value great_circle_miles row w
      = (inl (LibraryError "great_circle" msg), w)
  end.
Proof.
  destruct (great_circle_miles snell_library row) as [msg|miles] eqn:Hg.
  - unfold get_distance, mbind, NB_bind, lift. by rewrite Hg.
  - destruct (round2_hundredths miles) as (n & Hn & Hclose). exists n.
    rewrite (get_distance_ok _ _ _ Hg). by rewrite <- Hn.
Qed.

Lemma apply_rows_get_distance_ok rows miles (w : World) :
  Forall2 (λ row d, great_circle_miles snell_library row = inr d) rows miles →
  apply_rows Value (get_distance Value great_circle_miles) rows w
  = (inr (round2 <$> miles), w).
Proof.
  unfold apply_rows. induction 1 as [|row d rows miles Hd _ IH]; [done|].
  rewrite mapM_cons_run, (get_distance_ok _ _ _ Hd), IH. done.
Qed.

(** X2.  Cell 134 of module 06.  The cell defines [get_distance] and, when
    geopy gives a distance for every row of [usa_points], rebinds
    [usa_points] to the same table (same kind, same crs) with the column
    [miles_from_snell] set to [round(distance, 2)] of each row's distance,
    in row order: the float nearest to a whole number of hundredths at most
    half a hundredth from the distance.  It displays one output, leaves the
    disk as it was and changes no name other than [usa_points] and
    [get_distance]. *)
Theorem miles_from_snell_column (w : World) usa_points miles :
  ns Value w !! "usa_points" = Some usa_points →
  Forall2 (λ row d, great_circle_miles snell_library row = inr d)
          (latlong (data_of Value usa_points)) miles →
  ∃ w',
    cell06_134 Value latlong great_circle_miles with_column w = (inr tt, w') ∧
    ns Value w' !! "usa_points"
    = Some (like Value usa_points
              (with_column (data_of Value usa_points) "miles_from_snell"
                 (round2 <$> miles))) ∧
    (∀ x, x ≠ "usa_points" → x ≠ "get_distance" →
          ns Value w' !! x = ns Value w !! x) ∧
    disk Value w' = disk Value w ∧
    shown Value w' = S (shown Value w) ∧
    Forall (λ d, ∃ n : Z,
              round2 d = Float64.nearest (inject_Z n / 100) ∧
              (Qabs (inject_Z n / 100 - d) <= 1 # 200)%Q ∧
              ((Qabs (inject_Z n / 100 - d) == 1 # 200)%Q → Z.even n = true))
           miles.
Proof.
  intros Hns Hall. eexists. split.
  - unfold cell06_134, define, mbind, NB_bind, get, mret, NB_ret. rewrite Hns.
    by rewrite (apply_rows_get_distance_ok _ _ _ Hall).
  - simpl. split; [by rewrite lookup_insert_eq|].
    split; [by intros x Hx _; rewrite lookup_insert_ne|].
    split; [done|]. split; [done|].
    apply Forall_forall. intros d _. apply round2_hundredths.
Qed.

(** X3.  [scatter_plot] (module 04, line 507).  A call either displays one
    figure and leaves the namespace and the disk as they were -- its [fig]
    and [ax] are local -- or ends with the exception that one of its
    library calls raised, in an unchanged world. *)
Theorem scatter_plot_is_local df xcol ycol (w : World) :
  scatter_plot Value lib df xcol ycol w
  = (inr tt, mkWorld Value (disk Value w) (ns Value w) (S (shown Value w))) ∨
  ∃ op msg args,
    lib op args = inl msg ∧
    scatter_plot Value lib df xcol ycol w = (inl (LibraryError op msg), w).
Proof.
  unfold scatter_plot, mbind, NB_bind, lib_call.
  destruct (lib "plt.subplots(figsize=(6, 6))" []) as [msg|figax] eqn:H1;
    [right; eauto 6|].
  destruct (lib _ [figax; data_of Value df]) as [msg|?] eqn:H2; [right; eauto 6|].
  destruct (lib ("ax.set_xlabel('" +:+ xcol +:+ "')") [figax]) as [msg|?] eqn:H3;
    [right; eauto 6|].
  destruct (lib ("ax.set_ylabel('" +:+ ycol +:+ "')") [figax]) as [msg|?] eqn:H4;
    [right; eauto 6|].
  by left.
Qed.

End RunFacts.

(** ** Examples, witnesses and counterexamples *)

Section Examples.
Import Pandas Module10 Module04 Geo Notebook Code Programs Samples MoreSamples.

(** A call site of a code, found by going through it. *)
Ltac site :=
  lazymatch goal with
  | |- _ ∨ _ => first [left; site | right; site]
  | |- _ ∧ _ => split; [site | site]
  | |- ∃ _ : unit, _ => exists tt; site
  | |- ∃ _ : obj _, _ => exists (Plain _ 0); site
  | |- ∃ _ : list _, _ => exists []; site
  | |- ∃ _ : Z, _ => exists 0; site
  | |- ∃ _ : Q, _ => exists 0%Q; site
  | |- ∃ _ : option _, _ => exists None; site
  | |- ∃ _ : (_ * _)%type, _ => eexists (_, _); site
  | |- ∃ _, _ => eexists; site
  | |- _ = _ => reflexivity
  end.

(** From the last event of a run to the cell the run is halted at. *)
Ltac halted_by H :=
  lazymatch type of H with
  | ∀ pre n ev post e, run_log ?K ?w = _ → _ =>
      let l := eval vm_compute in (last (run_log K w)) in
      lazymatch l with
      | Some (?n, ?ev) =>
          let r := eval vm_compute in (raised ev) in
          lazymatch r with
          | Some ?e =>
              let Hh := fresh "Hh" in
              destruct (H (removelast (run_log K w)) n ev [] e) as [_ Hh];
              [vm_compute; reflexivity | reflexivity | exact Hh]
          end
      end
  end.

(** C1 as stated fails: a listing within two overlapping regions appears
    twice, so three listings give four rows. *)
Lemma sjoin_rows_exceed_left_rows :
  ¬ (length (sjoin_left box_within listings regions) ≤ length listings)%nat.
Proof. vm_compute. lia. Qed.

(** [round(0.125, 2)] is the float [0.12], which is not twelve hundredths;
    half-way cases go to the even hundredth. *)
Example round2_ties_to_even :
  round2 (1 # 8) = Float64.nearest (12 # 100) ∧
  round2 (1 # 8) = (1080863910568919 # 9007199254740992)%Q ∧
  ¬ (round2 (1 # 8) == 12 # 100)%Q ∧
  round2 (3 # 8) = Float64.nearest (38 # 100) ∧
  round2 (2591123 # 1000) = Float64.nearest (259112 # 100).
Proof. repeat split; try (vm_compute; reflexivity). vm_compute. discriminate. Qed.

Example sjoin_left_sample :
  sjoin_left box_within listings regions
  = [(0, pt 5 5, Some 0); (0, pt 5 5, Some 1); (1, pt 1 1, Some 0);
     (2, pt 20 20, None)].
Proof. reflexivity. Qed.

Lemma design_response_rows_aligned_witness :
  ∃ tracts X y,
    load_tracts tract_columns tract_rows = Some tracts ∧
    design tracts predictors = Some X ∧
    response_vector tracts (index X) = Some y ∧
    s_index y = index X ∧ index X = [1; 2; 3; 4].
Proof.
  let t := eval vm_compute in (load_tracts tract_columns tract_rows) in
  lazymatch t with
  | Some ?tr =>
      let x := eval vm_compute in (design tr predictors) in
      lazymatch x with
      | Some ?X =>
          exists tr, X;
          destruct (design_response_rows_aligned object tract_columns tract_rows tr tr)
            as (_ & H & _); [vm_compute; reflexivity | left; reflexivity |];
          destruct (H predictors X) as ((y & Hy & Hi) & _);
            [vm_compute; reflexivity|];
          exists y;
          split; [vm_compute; reflexivity|];
          split; [vm_compute; reflexivity|];
          split; [exact Hy|];
          split; [exact Hi | vm_compute; reflexivity]
      end
  end.
Defined.

Lemma weekend_partition_hourly_shares_witness :
  (Qabs (Qsum (weekday_hourly_share gps).*2 - 1) <= 24 # 2 ^ 53)%Q ∧
  (Qabs (Qsum (weekend_hourly_share gps).*2 - 1) <= 24 # 2 ^ 53)%Q ∧
  (Qabs (Qsum (weekday_hourly_share six_hours).*2 - 1) <= 24 # 2 ^ 53)%Q.
Proof.
  destruct (weekend_partition_hourly_shares gps) as (_ & _ & _ & H).
  destruct (weekend_partition_hourly_shares six_hours) as (_ & _ & _ & H6).
  split; [|split].
  - apply (H (weekdays gps)); [by left|]. vm_compute. split; reflexivity.
  - apply (H (weekends gps)); [by right|]. vm_compute. split; reflexivity.
  - apply (H6 (weekdays six_hours)); [by left|]. vm_compute. split; reflexivity.
Defined.

Example gps_sample :
  weekdays gps = [(Some 1800, []); (Some 431940, [])] ∧
  weekends gps = [(Some 190800, []); (Some 277800, [])] ∧
  weekday_hourly_share gps = [(0, (1 # 2)%Q); (23, (1 # 2)%Q)] ∧
  weekend_hourly_share gps = [(5, 1%Q)].
Proof. repeat split; vm_compute; reflexivity. Qed.

(** C10 as stated fails.  Six records on a Thursday, one in each of the
    hours 0 to 5: all are weekday records, each hour's share is the float
    nearest to 1/6, and the six shares sum to [1 - 2^-54], not to 1; added
    from left to right as floats they give [0.9999999999999999].  And two
    records without a date are weekday records (a missing weekday equals
    neither 5 nor 6) that belong to no hour: the subset is not empty, its
    series is. *)
Lemma hourly_shares_do_not_sum_to_one :
  (weekdays six_hours = six_hours ∧
   weekday_hourly_share six_hours
   = (λ h, (h, (6004799503160661 # 36028797018963968)%Q)) <$> [0; 1; 2; 3; 4; 5] ∧
   ¬ (Qsum (weekday_hourly_share six_hours).*2 == 1)%Q ∧
   (Qsum (weekday_hourly_share six_hours).*2
    == 18014398509481983 # 18014398509481984)%Q ∧
   fsum (weekday_hourly_share six_hours).*2
   = (9007199254740991 # 9007199254740992)%Q) ∧
  (weekdays undated = undated ∧ undated ≠ [] ∧
   weekday_hourly_share undated = [] ∧
   ¬ (Qsum (weekday_hourly_share undated).*2 == 1)%Q).
Proof.
  split.
  - split; [vm_compute; reflexivity|]. split; [vm_compute; reflexivity|].
    split; [vm_compute; discriminate|]. split; vm_compute; reflexivity.
  - split; [vm_compute; reflexivity|]. split; [discriminate|].
    split; [vm_compute; reflexivity|]. vm_compute. discriminate.
Qed.

Lemma two_stage_selects_brute_force_witness :
  ∃ precise_matches,
    two_stage box_intersects id_bounds rtree_backwards listings (rect 0 0 6 6)
    = Some precise_matches ∧
    precise_matches ≡ₚ brute_force box_intersects listings (rect 0 0 6 6) ∧
    (∀ r, r ∈ precise_matches ↔
          r ∈ brute_force box_intersects listings (rect 0 0 6 6)).
Proof.
  apply (two_stage_selects_brute_force box_intersects id_bounds rtree_backwards).
  - unfold rtree_sound, rtree_backwards. apply reverse_Permutation.
  - vm_compute. reflexivity.
Defined.

(** The two queries agree as sets of rows, not as sequences. *)
Example two_stage_order_differs :
  two_stage box_intersects id_bounds rtree_backwards listings (rect 0 0 6 6)
  = Some [(1, pt 1 1); (0, pt 5 5)] ∧
  brute_force box_intersects listings (rect 0 0 6 6) = [(0, pt 5 5); (1, pt 1 1)].
Proof. split; vm_compute; reflexivity. Qed.

Lemma to_crs_source_always_defined_witness :
  Forall (λ nb, never_naive Z (run_cells Z nb (fresh Z (disk06 (Some original_crs)))))
         (notebooks Z lib_ok reproject_ok latlong_two great_circle_ok with_column_ok).
Proof.
  apply (to_crs_source_always_defined lib_ok reproject_ok latlong_two
           great_circle_ok with_column_ok).
  intros c v H. vm_compute in H. injection H as <- _. by eexists.
Defined.

(** On the sample disk the whole of module 06 runs, and its six calls of
    [to_crs] with it; the two files it adds are the shapefile copy and the
    map. *)
Example module06_sample_run :
  ∃ w, run_cells Z nb06_ok (fresh Z (disk06 (Some original_crs))) = Finished Z w ∧
       dom (disk Z w) = dom (disk06 (Some original_crs)) ∪ {["data/states2"; "data/map.png"]} ∧
       disk Z w !! "data/map.png" = Some (ImageFile Z 600 0).
Proof.
  eexists. split; [vm_compute; reflexivity|]. split; vm_compute; reflexivity.
Qed.

(** Without a reference system in the shapefile, the first [to_crs] stops
    the run. *)
Example module06_naive_shapefile :
  ∃ w, run_cells Z nb06_ok (fresh Z (disk06 None)) = Halted Z 562 NaiveGeometries w.
Proof. eexists. vm_compute. reflexivity. Qed.

Lemma only_map_png_and_states2_written_witness :
  run_notebooks Z
    (notebooks Z lib_ok reproject_ok latlong_two great_circle_ok with_column_ok)
    (disk06 (Some original_crs)) !! "data/listings.csv"
  = disk06 (Some original_crs) !! "data/listings.csv" ∧
  Forall (λ nb, disk Z (final Z (run_cells Z nb (fresh Z (disk06 (Some original_crs)))))
                  !! "data/listings.csv"
                = disk Z (fresh Z (disk06 (Some original_crs))) !! "data/listings.csv")
         (notebooks Z lib_ok reproject_ok latlong_two great_circle_ok with_column_ok) ∧
  disk Z (final Z (run_cells Z (module04 Z lib_ok) (fresh Z (disk06 (Some original_crs)))))
  = disk Z (fresh Z (disk06 (Some original_crs))) ∧
  disk Z (final Z (run_cells Z (module10 Z lib_ok) (fresh Z (disk06 (Some original_crs)))))
  = disk Z (fresh Z (disk06 (Some original_crs))).
Proof.
  apply (only_map_png_and_states2_written lib_ok reproject_ok latlong_two
           great_circle_ok with_column_ok); discriminate.
Defined.

(** On the sample disk a full run adds exactly the two files. *)
Example full_run_sample :
  dom (run_notebooks Z
         (notebooks Z lib_ok reproject_ok latlong_two great_circle_ok with_column_ok)
         (disk06 (Some original_crs)))
  = dom (disk06 (Some original_crs)) ∪ {["data/states2"; "data/map.png"]}.
Proof. vm_compute. reflexivity. Qed.

(** [df.loc] with a repeated label returns every row of that label for each
    request: the alignment of C3 rests on the labels being unique. *)
Example loc_repeated_label :
  index <$> loc (mkDF ["a"] [(0, [Num 1]); (0, [Num 2])]) [0; 0]
  = Some [0; 0; 0; 0].
Proof. reflexivity. Qed.

(** A missing file, a geometry operation, a reprojection and a regression
    fit that raise: each halts the run at its cell with its own exception. *)
Lemma failures_propagate_uncaught_witness :
  (∃ w, run_cells Z (module10 Z lib_ok) (fresh Z ∅)
        = Halted Z 651 (FileNotFound "data/census_tracts_data.geojson") w) ∧
  (∃ w, run_cells Z (module06 Z (lib_failing "intersects(") reproject_ok latlong_two
                              great_circle_ok with_column_ok) (fresh Z disk_all)
        = Halted Z 256
            (LibraryError
               "states['geometry'].intersects(usa_points['geometry'].unary_union)"
               "failed") w) ∧
  (∃ w, run_cells Z (module06 Z lib_ok reproject_failing latlong_two
                              great_circle_ok with_column_ok) (fresh Z disk_all)
        = Halted Z 562 (LibraryError "to_crs" "failed") w) ∧
  (∃ w, run_cells Z (module10 Z (lib_failing "OLS")) (fresh Z disk_all)
        = Halted Z 731 (LibraryError "sm.OLS(y, Xc)" "failed") w).
Proof.
  split; [|split; [|split]].
  - destruct (failures_propagate_uncaught lib_ok reproject_ok latlong_two
                great_circle_ok with_column_ok (fresh Z ∅)) as (_ & _ & H & _).
    halted_by H.
  - destruct (failures_propagate_uncaught (lib_failing "intersects(") reproject_ok
                latlong_two great_circle_ok with_column_ok (fresh Z disk_all))
      as (_ & (H & _) & _).
    halted_by H.
  - destruct (failures_propagate_uncaught lib_ok reproject_failing latlong_two
                great_circle_ok with_column_ok (fresh Z disk_all))
      as (_ & (H & _) & _).
    halted_by H.
  - destruct (failures_propagate_uncaught (lib_failing "OLS") reproject_ok
                latlong_two great_circle_ok with_column_ok (fresh Z disk_all))
      as (_ & _ & H & _).
    halted_by H.
Defined.

(** The run that the failing [intersects] halts: the events of cell 256
    end with the call that raised, and nothing follows it. *)
Example module06_failing_intersects_log :
  last (run_log (code06 (lib_failing "intersects(") reproject_ok latlong_two
                        great_circle_ok with_column_ok) (fresh Z disk_all))
  = Some (256%nat,
          mkEvent "states['geometry'].intersects(usa_points['geometry'].unary_union)"
            (Some (LibraryError
                     "states['geometry'].intersects(usa_points['geometry'].unary_union)"
                     "failed"))).
Proof. vm_compute. reflexivity. Qed.

(** The call sites of the notebooks, as the theorem on them reads them:
    the spatial join and the regression fit are written in a cell and go
    to the library; the two functions of the repository are called from a
    cell of their own notebook, and [get_distance] calls geopy. *)
Example call_sites_sample :
  cell_sites (code06 lib_ok reproject_ok latlong_two great_circle_ok with_column_ok) 818
    (mkSite TopLevel "gpd.sjoin(rents, contiguous_states, how='left', op='within')"
       Library) ∧
  named "gpd.sjoin(rents, contiguous_states, how='left', op='within')" = true ∧
  cell_sites (code06 lib_ok reproject_ok latlong_two great_circle_ok with_column_ok) 134
    (mkSite TopLevel "get_distance" Repository) ∧
  cell_sites (code06 lib_ok reproject_ok latlong_two great_circle_ok with_column_ok) 134
    (mkSite (InBody "get_distance") "great_circle" Library) ∧
  cell_sites (code04 lib_ok reproject_ok latlong_two great_circle_ok) 521
    (mkSite TopLevel "scatter_plot" Repository) ∧
  cell_sites (code10 lib_ok reproject_ok latlong_two great_circle_ok) 731
    (mkSite TopLevel "sm.OLS(y, Xc)" Library) ∧
  named "sm.OLS(y, Xc)" = true ∧ named "scatter_plot" = false.
Proof.
  split; [cbn; site|]. split; [reflexivity|]. split; [cbn; site|].
  split; [cbn; site|]. split; [cbn; site|]. split; [cbn; site|].
  split; reflexivity.
  Unshelve. all: try exact 0%Q. all: try exact 0. all: try exact None.
  all: try exact [].
Qed.

(** The column names the f-string gives, by the dtype of [COUNTYFP]: the
    strings of an object column as they are and its nulls as [None]; the
    integers of a column without nulls as their digits; those of a column
    with nulls, a float64 one, with [.0], and the null as [nan]. *)
Example dummy_names_follow_dtype :
  dtype_of [Str "001"; NaN] = object ∧
  dummy_name object <$> [Str "001"; NaN]
  = ["dummy_county_001"; "dummy_county_None"] ∧
  dtype_of [Num 3; Num 5] = int64 ∧
  dummy_name int64 <$> [Num 3; Num 5] = ["dummy_county_3"; "dummy_county_5"] ∧
  dtype_of [Num 3; NaN] = float64 ∧
  dummy_name float64 <$> [Num 3; NaN] = ["dummy_county_3.0"; "dummy_county_nan"].
Proof. repeat split; vm_compute; reflexivity. Qed.

(** A float64 column keeps its dtype when the rows with its nulls are
    dropped: the county 3 is still printed [3.0]. *)
Example float_county_after_dropna :
  add_county_dummies float64 (mkDF ["COUNTYFP"] [(0, [Num 3]); (1, [Num 5])])
  = Some (mkDF ["COUNTYFP"; "dummy_county_3.0"; "dummy_county_5.0"]
               [(0, [Num 3; Num 1; Num 0]); (1, [Num 5; Num 0; Num 1])]).
Proof. vm_compute. reflexivity. Qed.

(** Two counties with one name: the county [None] and the missing county
    are both printed [None], and the second iteration of the loop
    overwrites the column of the first with zeros. *)
Example dummy_name_clash :
  add_county_dummies object (mkDF ["COUNTYFP"] [(0, [Str "None"]); (1, [NaN])])
  = Some (mkDF ["COUNTYFP"; "dummy_county_None"]
               [(0, [Str "None"; Num 0]); (1, [NaN; Num 0])]).
Proof. vm_compute. reflexivity. Qed.

(** A latitude that geopy refuses stops module 06 at the cell that calls
    [great_circle], with geopy's own message, before anything is written. *)
Example module06_bad_latitude :
  ∃ w, run_cells Z (module06 Z lib_ok reproject_ok latlong_bad
                             great_circle_checked with_column_ok)
                 (fresh Z (disk06 (Some original_crs)))
       = Halted Z 119 (LibraryError "great_circle"
                                    "Latitude must be in the [-90; 90] range.") w ∧
       disk Z w = disk06 (Some original_crs).
Proof. eexists. split; vm_compute; reflexivity. Qed.

End Examples.

(** ** Witnesses of the further properties *)

Section MoreExamples.
Import Pandas Module10 Module04 Geo Notebook Code Programs Samples Frames Outcomes MoreSamples.

Lemma county_dummy_columns_witness :
  ∃ t, add_county_dummies object (Pandas.read_file tract_columns tract_rows) = Some t ∧
       row_sums t ["dummy_county_001"; "dummy_county_003"; "dummy_county_005"]
       = Some [1; 1; 1; 1; 1].
Proof.
  destruct (county_dummy_columns object (Pandas.read_file tract_columns tract_rows)
              [Str "001"; Str "003"; Str "003"; Str "005"; Str "005"])
    as (t & Ht & _ & _ & _ & Hsum).
  - vm_compute. repeat constructor.
  - vm_compute. reflexivity.
  - repeat constructor.
  - apply (bool_decide_unpack _). vm_compute. exact I.
  - exists t. split; [exact Ht | exact Hsum].
Defined.

Lemma design_and_response_complete_witness :
  ∃ tracts X y,
    load_tracts tract_columns tract_rows = Some tracts ∧
    design tracts predictors = Some X ∧
    response_vector tracts (index X) = Some y ∧
    Forall (λ ir, Forall (λ c, notna c = true) ir.2) (rows X) ∧
    Forall (λ ic, notna ic.2 = true) y ∧
    length y = length (rows X).
Proof.
  let t := eval vm_compute in (load_tracts tract_columns tract_rows) in
  lazymatch t with
  | Some ?tr =>
      let x := eval vm_compute in (design tr predictors) in
      lazymatch x with
      | Some ?X =>
          let y := eval vm_compute in (response_vector tr (index X)) in
          lazymatch y with
          | Some ?Y =>
              exists tr, X, Y;
              split; [vm_compute; reflexivity|];
              split; [vm_compute; reflexivity|];
              split; [vm_compute; reflexivity|];
              apply (design_and_response_complete object tract_columns tract_rows tr tr
                       predictors X Y);
                [ vm_compute; repeat constructor
                | vm_compute; reflexivity
                | left; reflexivity
                | vm_compute; reflexivity
                | vm_compute; reflexivity ]
          end
      end
  end.
Defined.

Lemma kept_dummies_row_sums_witness :
  ∃ tracts0 tracts X regimes,
    load_tracts tract_columns tract_rows = Some tracts0 ∧
    add_county_dummies object tracts0 = Some tracts ∧
    design tracts (predictors ++ ["dummy_county_003"; "dummy_county_005"]) = Some X ∧
    regimes_vector tracts (index X) = Some regimes ∧
    (row_sums X ["dummy_county_003"; "dummy_county_005"] = Some (ones X) ↔
     Forall (λ ic, ic.2 ≠ NaN ∧ ic.2 ≠ Str "001") regimes).
Proof.
  let t := eval vm_compute in (load_tracts tract_columns tract_rows) in
  lazymatch t with
  | Some ?tr =>
      let t2 := eval vm_compute in (add_county_dummies object tr) in
      lazymatch t2 with
      | Some ?tr2 =>
          let x := eval vm_compute in
            (design tr2 (predictors ++ ["dummy_county_003"; "dummy_county_005"])) in
          lazymatch x with
          | Some ?X =>
              destruct (kept_dummies_row_sums object tr tr2
                          [Str "001"; Str "003"; Str "003"; Str "005"; Str "005"]
                          (Str "001") [Str "003"; Str "005"] predictors X)
                as (_ & regimes & Hreg & _ & Hiff);
                [ vm_compute; repeat constructor
                | apply (bool_decide_unpack _); vm_compute; exact I
                | vm_compute; reflexivity
                | repeat constructor
                | apply (bool_decide_unpack _); vm_compute; exact I
                | vm_compute; reflexivity
                | vm_compute; reflexivity
                | vm_compute; reflexivity
                | exists tr, tr2, X, regimes;
                  split; [vm_compute; reflexivity|];
                  split; [vm_compute; reflexivity|];
                  split; [vm_compute; reflexivity|];
                  split; [exact Hreg | exact Hiff] ]
          end
      end
  end.
Defined.

Lemma regimes_within_selected_counties_witness :
  ∃ tracts X regimes,
    load_tracts tract_columns tract_rows = Some tracts ∧
    design_regimes tracts
      (isin [Str "001"; Str "003"; Str "003"; Str "005"; Str "005"]
            (take 3 [Str "003"; Str "005"]))
      predictors = Some X ∧
    regimes_vector tracts (index X) = Some regimes ∧
    s_index regimes = index X ∧
    Forall (λ ic, ic.2 ∈ take 3 [Str "003"; Str "005"]) regimes ∧
    (length (remove_dups regimes.*2) ≤ 3)%nat.
Proof.
  let t := eval vm_compute in (load_tracts tract_columns tract_rows) in
  lazymatch t with
  | Some ?tr =>
      let x := eval vm_compute in
        (design_regimes tr
           (isin [Str "001"; Str "003"; Str "003"; Str "005"; Str "005"]
                 (take 3 [Str "003"; Str "005"]))
           predictors) in
      lazymatch x with
      | Some ?X =>
          destruct (regimes_within_selected_counties tr
                      [Str "001"; Str "003"; Str "003"; Str "005"; Str "005"]
                      [Str "003"; Str "005"] predictors X)
            as (regimes & H);
            [ apply (bool_decide_unpack _); vm_compute; exact I
            | vm_compute; reflexivity
            | vm_compute; reflexivity
            | exists tr, X, regimes;
              split; [vm_compute; reflexivity|];
              split; [vm_compute; reflexivity|];
              exact H ]
      end
  end.
Defined.

Lemma miles_from_snell_column_witness :
  ∃ w',
    cell06_134 Z latlong_two great_circle_ok with_column_ok world_points
    = (inr tt, w') ∧
    ns Z w' !! "usa_points"
    = Some (Frame Z None
              (with_column_ok 1 "miles_from_snell"
                 [Float64.nearest (259100 # 100); Float64.nearest (259100 # 100)])) ∧
    disk Z w' = ∅ ∧ shown Z w' = 1%nat.
Proof.
  destruct (miles_from_snell_column latlong_two great_circle_ok with_column_ok
              world_points (Frame Z None 1) [(2591 # 1)%Q; (2591 # 1)%Q])
    as (w' & Hrun & Hcol & _ & Hdisk & Hshown & _).
  - vm_compute. reflexivity.
  - repeat constructor.
  - exists w'. split; [exact Hrun|]. split; [exact Hcol|].
    split; [exact Hdisk | exact Hshown].
Defined.

Lemma module06_final_state_witness :
  module06_final (disk06 (Some original_crs))
    (final Z (run_cells Z nb06_ok (fresh Z (disk06 (Some original_crs))))).
Proof.
  apply (module06_final_state lib_ok reproject_ok latlong_two great_circle_ok
           with_column_ok).
  vm_compute. reflexivity.
Defined.

Lemma runs_halt_only_for_a_cause_witness :
  caused lib_ok reproject_ok latlong_two great_circle_ok ∅
    (FileNotFound "data/census_tracts_data.geojson").
Proof.
  apply (runs_halt_only_for_a_cause lib_ok reproject_ok latlong_two
           great_circle_ok with_column_ok ∅ (module10 Z lib_ok) 651 _ (fresh Z ∅)).
  - unfold notebooks. do 2 right. left.
  - vm_compute. reflexivity.
Defined.

Lemma notebooks_run_to_completion_witness :
  Forall (λ nb, ∃ w, run_cells Z nb (fresh Z disk_all) = Finished Z w)
         (notebooks Z lib_ok reproject_ok latlong_two great_circle_ok with_column_ok).
Proof.
  apply (notebooks_run_to_completion lib_ok reproject_ok latlong_two
           great_circle_ok with_column_ok).
  - intros p Hp. unfold inputs in Hp.
    rewrite !elem_of_cons, elem_of_nil in Hp.
    destruct Hp as [->|[->|[->|[->|[->|[->|[->|[]]]]]]]];
      eexists _, _; vm_compute; reflexivity.
  - intros c v H. vm_compute in H. injection H as <- _. by eexists.
  - intros c v0 v _ _. simpl. lia.
  - discriminate.
  - discriminate.
  - discriminate.
Defined.

End MoreExamples.
